(** * Wavefront volumetric path tracing: media.cpp and optix.cu

    A shallow embedding of the GPU medium kernels of pbrt-v4
    ([src/pbrt/gpu/media.cpp]) and of the OptiX ray-generation,
    intersection, any-hit and closest-hit programs
    ([src/pbrt/gpu/optix.cu]).

    - [Float] is IEEE-754 binary32, through the Standard Library's executable
      specification [SpecFloat] (precision 24, [emax] 128), so every
      arithmetic step rounds the way the device code does.
    - A [SampledSpectrum] is the four-wavelength array of the renderer.
    - Work queues are append-only lists; one kernel invocation is a function
      from the queues before to the queues after.
    - The collaborators the two files call but do not define (the random
      number generator, the hash, the medium's majorant traversal, the
      intersection engine, lights, phase functions and materials) are the
      fields of the class [Externals]; the shapes, the textures and the
      reservoir sampler that the hit programs call are the fields of the
      class [Shapes].

    The file has the data model first, then the kernels, a small scene that
    instantiates the collaborators, the hit programs with their test
    shapes, facts of binary32 arithmetic, and last the properties of the
    kernels and of the programs. *)

From Stdlib Require Import ZArith List Bool Lia Permutation.
From Stdlib Require Import Floats.SpecFloat.
Import ListNotations.
Open Scope Z_scope.

(** ** Binary32 arithmetic *)

Module F32.

Definition prec : Z := 24.
Definition emax : Z := 128.

Definition Float : Type := spec_float.

Definition add : Float -> Float -> Float := SFadd prec emax.
Definition sub : Float -> Float -> Float := SFsub prec emax.
Definition mul : Float -> Float -> Float := SFmul prec emax.
Definition div : Float -> Float -> Float := SFdiv prec emax.
Definition neg : Float -> Float := SFopp.
Definition ltb : Float -> Float -> bool := SFltb.
Definition eqb : Float -> Float -> bool := SFeqb.
Definition valid : Float -> bool := valid_binary prec emax.

(** [a != b] of C++: true on unordered operands. *)
Definition neqb (a b : Float) : bool := negb (eqb a b).

(** [std::max<Float>(a, b)] is [(a < b) ? b : a]. *)
Definition max (a b : Float) : Float := if ltb a b then b else a.

Definition zero : Float := S754_zero false.
Definition one : Float := S754_finite false 8388608 (-23).
Definition four : Float := S754_finite false 8388608 (-21).
(** [0x1p24f] *)
Definition two24 : Float := S754_finite false 8388608 1.
Definition Infinity : Float := S754_infinity false.
(** [1e30f] and [1e-5f], each the binary32 nearest to the decimal. *)
Definition big_tMax : Float :=
  binary_normalize prec emax (10 ^ 30) 0 false.
Definition shadow_tMin : Float :=
  div one (binary_normalize prec emax 100000 0 false).

(** [1.f / 0x1p24f] *)
Definition inv_two24 : Float := div one two24.

(** Integer conversion of a small count, as in [sum / N]. *)
Definition of_count (n : Z) : Float := binary_normalize prec emax n 0 false.

End F32.

Abbreviation Float := F32.Float.

Declare Scope f32_scope.
Delimit Scope f32_scope with f32.
Infix "+" := F32.add : f32_scope.
Infix "-" := F32.sub : f32_scope.
Infix "*" := F32.mul : f32_scope.
Infix "/" := F32.div : f32_scope.
Infix "<?" := F32.ltb : f32_scope.
Infix "=?" := F32.eqb : f32_scope.

(** ** Spectra

    Modelled from the spec: the class [SampledSpectrum] of
    [pbrt/util/spectrum.h] is not among the two source files.  The spec's
    data model fixes the number of wavelength samples at four and treats
    every radiometric quantity component-wise; the operators below are the
    component-wise ones the kernels call. *)

Record SampledSpectrum : Type := mkSpectrum {
  c0 : Float; c1 : Float; c2 : Float; c3 : Float
}.

Definition SampledWavelengths : Type := SampledSpectrum.

Module Sp.

Definition const (v : Float) : SampledSpectrum := mkSpectrum v v v v.

Definition map (f : Float -> Float) (a : SampledSpectrum) : SampledSpectrum :=
  mkSpectrum (f (c0 a)) (f (c1 a)) (f (c2 a)) (f (c3 a)).

Definition map2 (f : Float -> Float -> Float) (a b : SampledSpectrum)
  : SampledSpectrum :=
  mkSpectrum (f (c0 a) (c0 b)) (f (c1 a) (c1 b))
             (f (c2 a) (c2 b)) (f (c3 a) (c3 b)).

Definition add : SampledSpectrum -> SampledSpectrum -> SampledSpectrum :=
  map2 F32.add.
Definition sub : SampledSpectrum -> SampledSpectrum -> SampledSpectrum :=
  map2 F32.sub.
Definition mul : SampledSpectrum -> SampledSpectrum -> SampledSpectrum :=
  map2 F32.mul.
Definition div : SampledSpectrum -> SampledSpectrum -> SampledSpectrum :=
  map2 F32.div.

(** [s * a] and [s / a] for a scalar [a]. *)
Definition scale (s : SampledSpectrum) (a : Float) : SampledSpectrum :=
  map (fun x => F32.mul x a) s.
Definition divf (s : SampledSpectrum) (a : Float) : SampledSpectrum :=
  map (fun x => F32.div x a) s.

(** [operator bool]: some component differs from zero. *)
Definition nonzero (s : SampledSpectrum) : bool :=
  F32.neqb (c0 s) F32.zero || F32.neqb (c1 s) F32.zero
  || F32.neqb (c2 s) F32.zero || F32.neqb (c3 s) F32.zero.

Definition MaxComponentValue (s : SampledSpectrum) : Float :=
  F32.max (F32.max (F32.max (c0 s) (c1 s)) (c2 s)) (c3 s).

Definition Average (s : SampledSpectrum) : Float :=
  F32.div (F32.add (F32.add (F32.add (c0 s) (c1 s)) (c2 s)) (c3 s)) F32.four.

(** [ClampZero]: [std::max<Float>(0, c)] on every component. *)
Definition ClampZero (s : SampledSpectrum) : SampledSpectrum :=
  map (fun x => F32.max F32.zero x) s.

End Sp.

Declare Scope spec_scope.
Delimit Scope spec_scope with sp.
Infix "+" := Sp.add : spec_scope.
Infix "-" := Sp.sub : spec_scope.
Infix "*" := Sp.mul : spec_scope.
Infix "/" := Sp.div : spec_scope.
Infix "*:" := Sp.scale (at level 40, left associativity) : spec_scope.
Infix "/:" := Sp.divf (at level 40, left associativity) : spec_scope.

(** ** Geometry

    Modelled from the spec: the tuples of [pbrt/util/vecmath.h] are absent
    from the two source files; only the operations the kernels spell out
    (negation, point difference, comparison with the zero vector) are
    given here. *)

Record Tuple3 : Type := mkTuple3 { x : Float; y : Float; z : Float }.
Definition Vector3f : Type := Tuple3.
Definition Point3f : Type := Tuple3.
Definition Normal3f : Type := Tuple3.
Record Point2f : Type := mkPoint2f { p2_x : Float; p2_y : Float }.

(** A point with its per-coordinate error interval. *)
Record Point3fi : Type := mkPoint3fi { pi_low : Point3f; pi_high : Point3f }.

Module Vec.
Definition zero3 : Tuple3 := mkTuple3 F32.zero F32.zero F32.zero.
Definition neg (v : Vector3f) : Vector3f :=
  mkTuple3 (F32.neg (x v)) (F32.neg (y v)) (F32.neg (z v)).
Definition sub (a b : Point3f) : Vector3f :=
  mkTuple3 (F32.sub (x a) (x b)) (F32.sub (y a) (y b)) (F32.sub (z a) (z b)).
(** [a == b] on tuples: every coordinate compares equal. *)
Definition eqb (a b : Tuple3) : bool :=
  F32.eqb (x a) (x b) && F32.eqb (y a) (y b) && F32.eqb (z a) (z b).
(** [Point3fi(p)] and [Point3f(pi)]. *)
Definition to_fi (p : Point3f) : Point3fi := mkPoint3fi p p.
Definition midpoint (a b : Float) : Float :=
  F32.div (F32.add a b) (F32.of_count 2).
Definition of_fi (p : Point3fi) : Point3f :=
  mkTuple3 (midpoint (x (pi_low p)) (x (pi_high p)))
           (midpoint (y (pi_low p)) (y (pi_high p)))
           (midpoint (z (pi_low p)) (z (pi_high p))).
End Vec.

(** ** Handles

    A handle is a tagged pointer; it converts to [true] exactly when it is
    not null.  Pointers are integers, [0] is [nullptr]. *)

Definition Handle : Type := Z.
Definition MediumHandle : Type := Handle.
Definition MaterialHandle : Type := Handle.
Definition LightHandle : Type := Handle.
Definition FloatTextureHandle : Type := Handle.
Definition nullptr : Handle := 0.
Definition is_set (h : Handle) : bool := negb (h =? 0).

Record MediumInterface : Type := mkMediumInterface {
  inside : MediumHandle;
  outside : MediumHandle
}.
(** [MediumInterface(medium)]: the same medium on both sides. *)
Definition MediumInterface_of (m : MediumHandle) : MediumInterface :=
  mkMediumInterface m m.

Record Ray : Type := mkRay {
  o : Point3f;
  d : Vector3f;
  time : Float;
  medium : MediumHandle
}.

(** The Henyey-Greenstein phase function carries its asymmetry parameter. *)
Record HGPhaseFunction : Type := mkHG { g : Float }.

(** The phase-function handle is a tagged pointer: null, a pointer to a
    Henyey-Greenstein object, or a pointer whose tag names another kind. *)
Inductive PhaseFunctionHandle : Type :=
| PhaseNull
| PhaseHG (hg : HGPhaseFunction)
| PhaseOther (tag : positive).

(** [CastOrNullptr<HGPhaseFunction>()]: the pointer if the tag is the
    requested one, [nullptr] otherwise. *)
Definition CastOrNullptr_HG (h : PhaseFunctionHandle) : option HGPhaseFunction :=
  match h with
  | PhaseHG hg => Some hg
  | PhaseNull | PhaseOther _ => None
  end.

Record PhaseFunctionSample : Type := mkPhaseSample {
  ps_p : Float;
  ps_wi : Vector3f;
  ps_pdf : Float
}.

Record Interaction : Type := mkInteraction {
  in_pi : Point3fi;
  in_n : Normal3f;
  in_mediumInterface : option MediumInterface
}.

Record MediumInteraction : Type := mkMediumInteraction {
  mi_p : Point3f;
  sigma_a : SampledSpectrum;
  sigma_s : SampledSpectrum;
  sigma_maj : SampledSpectrum;
  Le : SampledSpectrum;
  phase : PhaseFunctionHandle
}.

(** Modelled from the spec: [MediumInteraction::sigma_n] is declared in a
    header that is not among the sources; the spec gives it as
    [sigma_maj - sigma_a - sigma_s], component-wise, clamped at zero. *)
Definition sigma_n (intr : MediumInteraction) : SampledSpectrum :=
  Sp.ClampZero (sigma_maj intr - sigma_a intr - sigma_s intr)%sp.

Record MediumSample : Type := mkMediumSample {
  intr : option MediumInteraction;
  Tmaj : SampledSpectrum
}.

Record Shading : Type := mkShading {
  sh_n : Normal3f;
  dpdu : Vector3f;
  dpdv : Vector3f;
  dndu : Normal3f;
  dndv : Normal3f
}.

Record SurfaceInteraction : Type := mkSurfaceInteraction {
  si_pi : Point3fi;
  si_n : Normal3f;
  si_uv : Point2f;
  si_wo : Vector3f;
  si_time : Float;
  si_mediumInterface : option MediumInterface;
  si_material : MaterialHandle;
  si_areaLight : LightHandle;
  si_shading : Shading
}.

Inductive LightType : Type :=
| DeltaPosition | DeltaDirection | Area | Infinite.

Definition IsDeltaLight (t : LightType) : bool :=
  match t with
  | DeltaPosition | DeltaDirection => true
  | Area | Infinite => false
  end.

Record SampledLight : Type := mkSampledLight {
  sl_light : LightHandle;
  sl_pdf : Float
}.

Record LightLiSample : Type := mkLightLiSample {
  ls_L : SampledSpectrum;
  ls_wi : Vector3f;
  ls_pdf : Float;
  ls_pLight : Point3f
}.

Record LightSampleContext : Type := mkLightSampleContext {
  lc_pi : Point3fi;
  lc_n : Normal3f;
  lc_ns : Normal3f
}.

Record DirectSamples : Type := mkDirect { direct_u : Point2f; direct_uc : Float }.
Record IndirectSamples : Type := mkIndirect {
  indirect_uc : Float; indirect_u : Point2f; indirect_rr : Float
}.
Record RaySamples : Type := mkRaySamples {
  direct : DirectSamples;
  indirect : IndirectSamples
}.

(** ** Work items

    One record per queue kind, with the fields in the order the kernels
    pass them to [Push]. *)

Record RayWorkItem : Type := mkRayWorkItem {
  r_ray : Ray;
  r_piPrev : Point3fi;
  r_nPrev : Normal3f;
  r_nsPrev : Normal3f;
  r_beta : SampledSpectrum;
  r_pdfUni : SampledSpectrum;
  r_pdfNEE : SampledSpectrum;
  r_lambda : SampledWavelengths;
  r_etaScale : Float;
  r_isSpecularBounce : bool;
  r_anyNonSpecularBounces : bool;
  r_pixelIndex : Z
}.

Record EscapedRayWorkItem : Type := mkEscapedRayWorkItem {
  er_beta : SampledSpectrum;
  er_pdfUni : SampledSpectrum;
  er_pdfNEE : SampledSpectrum;
  er_lambda : SampledWavelengths;
  er_rayo : Point3f;
  er_rayd : Vector3f;
  er_piPrev : Point3fi;
  er_nPrev : Normal3f;
  er_nsPrev : Normal3f;
  er_isSpecularBounce : Z;
  er_pixelIndex : Z
}.

Record HitAreaLightWorkItem : Type := mkHitAreaLightWorkItem {
  hl_areaLight : LightHandle;
  hl_lambda : SampledWavelengths;
  hl_beta : SampledSpectrum;
  hl_pdfUni : SampledSpectrum;
  hl_pdfNEE : SampledSpectrum;
  hl_p : Point3f;
  hl_n : Normal3f;
  hl_uv : Point2f;
  hl_wo : Vector3f;
  hl_piPrev : Point3fi;
  hl_rayd : Vector3f;
  hl_time : Float;
  hl_nPrev : Normal3f;
  hl_nsPrev : Normal3f;
  hl_isSpecularBounce : Z;
  hl_pixelIndex : Z
}.

Record MediumTransitionWorkItem : Type := mkMediumTransitionWorkItem {
  mt_ray : Ray;
  mt_lambda : SampledWavelengths;
  mt_beta : SampledSpectrum;
  mt_pdfUni : SampledSpectrum;
  mt_pdfNEE : SampledSpectrum;
  mt_piPrev : Point3fi;
  mt_nPrev : Normal3f;
  mt_nsPrev : Normal3f;
  mt_isSpecularBounce : bool;
  mt_anyNonSpecularBounces : bool;
  mt_etaScale : Float;
  mt_pixelIndex : Z
}.

Record MediumSampleWorkItem : Type := mkMediumSampleWorkItem {
  ms_ray : Ray;
  ms_tMax : Float;
  ms_lambda : SampledWavelengths;
  ms_beta : SampledSpectrum;
  ms_pdfUni : SampledSpectrum;
  ms_pdfNEE : SampledSpectrum;
  ms_rayIndex : Z;
  ms_pixelIndex : Z;
  ms_piPrev : Point3fi;
  ms_nPrev : Normal3f;
  ms_nsPrev : Normal3f;
  ms_isSpecularBounce : bool;
  ms_anyNonSpecularBounces : bool;
  ms_etaScale : Float;
  ms_areaLight : LightHandle;
  ms_pi : Point3fi;
  ms_n : Normal3f;
  ms_wo : Vector3f;
  ms_uv : Point2f;
  ms_material : MaterialHandle;
  ms_ns : Normal3f;
  ms_dpdus : Vector3f;
  ms_dpdvs : Vector3f;
  ms_dndus : Normal3f;
  ms_dndvs : Normal3f;
  ms_mediumInterface : MediumInterface
}.

Record MediumScatterWorkItem : Type := mkMediumScatterWorkItem {
  sc_p : Point3f;
  sc_lambda : SampledWavelengths;
  sc_beta : SampledSpectrum;
  sc_pdfUni : SampledSpectrum;
  sc_rayIndex : Z;
  sc_phase : HGPhaseFunction;
  sc_wo : Vector3f;
  sc_etaScale : Float;
  sc_medium : MediumHandle;
  sc_pixelIndex : Z
}.

Record MaterialEvalWorkItem : Type := mkMaterialEvalWorkItem {
  me_material : MaterialHandle;
  me_lambda : SampledWavelengths;
  me_beta : SampledSpectrum;
  me_pdfUni : SampledSpectrum;
  me_pi : Point3fi;
  me_n : Normal3f;
  me_ns : Normal3f;
  me_dpdus : Vector3f;
  me_dpdvs : Vector3f;
  me_dndus : Normal3f;
  me_dndvs : Normal3f;
  me_wo : Vector3f;
  me_uv : Point2f;
  me_time : Float;
  me_anyNonSpecularBounces : bool;
  me_etaScale : Float;
  me_mediumInterface : MediumInterface;
  me_rayIndex : Z;
  me_pixelIndex : Z
}.

Record ShadowRayWorkItem : Type := mkShadowRayWorkItem {
  sr_ray : Ray;
  sr_tMax : Float;
  sr_lambda : SampledWavelengths;
  sr_Ld : SampledSpectrum;
  sr_pdfUni : SampledSpectrum;
  sr_pdfNEE : SampledSpectrum;
  sr_pixelIndex : Z
}.

(** ** Queues

    A queue is the list of the items pushed so far, oldest first.  Every
    ray queue also stores the pre-generated samples of its ray slots.  The
    material-evaluation queues keep one list each; the sub-queue of a
    material type is the items of that list whose handle has the type's
    tag.  The escaped-ray queue is optional: [None] is the null pointer. *)

Record RayQueue : Type := mkRayQueue {
  rq_items : list RayWorkItem;
  raySamples : Z -> RaySamples
}.

Record Queues : Type := mkQueues {
  rayQueues0 : RayQueue;
  rayQueues1 : RayQueue;
  mediumSampleQueue : list MediumSampleWorkItem;
  mediumScatterQueue : list MediumScatterWorkItem;
  escapedRayQueue : option (list EscapedRayWorkItem);
  mediumTransitionQueue : list MediumTransitionWorkItem;
  hitAreaLightQueue : list HitAreaLightWorkItem;
  basicEvalMaterialQueue : list MaterialEvalWorkItem;
  universalEvalMaterialQueue : list MaterialEvalWorkItem;
  shadowRayQueue : list ShadowRayWorkItem;
  pixelSampleState_L : Z -> SampledSpectrum
}.

(** [rayQueues[i & 1]] *)
Definition rayQueues (q : Queues) (i : Z) : RayQueue :=
  if Z.land i 1 =? 0 then rayQueues0 q else rayQueues1 q.

Module Q.

Definition with_mediumSample (f : list MediumSampleWorkItem -> list MediumSampleWorkItem)
  (q : Queues) : Queues :=
  mkQueues (rayQueues0 q) (rayQueues1 q) (f (mediumSampleQueue q))
    (mediumScatterQueue q) (escapedRayQueue q) (mediumTransitionQueue q)
    (hitAreaLightQueue q) (basicEvalMaterialQueue q)
    (universalEvalMaterialQueue q) (shadowRayQueue q) (pixelSampleState_L q).

Definition with_mediumScatter (f : list MediumScatterWorkItem -> list MediumScatterWorkItem)
  (q : Queues) : Queues :=
  mkQueues (rayQueues0 q) (rayQueues1 q) (mediumSampleQueue q)
    (f (mediumScatterQueue q)) (escapedRayQueue q) (mediumTransitionQueue q)
    (hitAreaLightQueue q) (basicEvalMaterialQueue q)
    (universalEvalMaterialQueue q) (shadowRayQueue q) (pixelSampleState_L q).

Definition with_escaped (f : list EscapedRayWorkItem -> list EscapedRayWorkItem)
  (q : Queues) : Queues :=
  mkQueues (rayQueues0 q) (rayQueues1 q) (mediumSampleQueue q)
    (mediumScatterQueue q) (option_map f (escapedRayQueue q))
    (mediumTransitionQueue q) (hitAreaLightQueue q) (basicEvalMaterialQueue q)
    (universalEvalMaterialQueue q) (shadowRayQueue q) (pixelSampleState_L q).

Definition with_mediumTransition
  (f : list MediumTransitionWorkItem -> list MediumTransitionWorkItem)
  (q : Queues) : Queues :=
  mkQueues (rayQueues0 q) (rayQueues1 q) (mediumSampleQueue q)
    (mediumScatterQueue q) (escapedRayQueue q) (f (mediumTransitionQueue q))
    (hitAreaLightQueue q) (basicEvalMaterialQueue q)
    (universalEvalMaterialQueue q) (shadowRayQueue q) (pixelSampleState_L q).

Definition with_hitAreaLight
  (f : list HitAreaLightWorkItem -> list HitAreaLightWorkItem)
  (q : Queues) : Queues :=
  mkQueues (rayQueues0 q) (rayQueues1 q) (mediumSampleQueue q)
    (mediumScatterQueue q) (escapedRayQueue q) (mediumTransitionQueue q)
    (f (hitAreaLightQueue q)) (basicEvalMaterialQueue q)
    (universalEvalMaterialQueue q) (shadowRayQueue q) (pixelSampleState_L q).

Definition with_basicEval
  (f : list MaterialEvalWorkItem -> list MaterialEvalWorkItem)
  (q : Queues) : Queues :=
  mkQueues (rayQueues0 q) (rayQueues1 q) (mediumSampleQueue q)
    (mediumScatterQueue q) (escapedRayQueue q) (mediumTransitionQueue q)
    (hitAreaLightQueue q) (f (basicEvalMaterialQueue q))
    (universalEvalMaterialQueue q) (shadowRayQueue q) (pixelSampleState_L q).

Definition with_universalEval
  (f : list MaterialEvalWorkItem -> list MaterialEvalWorkItem)
  (q : Queues) : Queues :=
  mkQueues (rayQueues0 q) (rayQueues1 q) (mediumSampleQueue q)
    (mediumScatterQueue q) (escapedRayQueue q) (mediumTransitionQueue q)
    (hitAreaLightQueue q) (basicEvalMaterialQueue q)
    (f (universalEvalMaterialQueue q)) (shadowRayQueue q) (pixelSampleState_L q).

Definition with_shadow (f : list ShadowRayWorkItem -> list ShadowRayWorkItem)
  (q : Queues) : Queues :=
  mkQueues (rayQueues0 q) (rayQueues1 q) (mediumSampleQueue q)
    (mediumScatterQueue q) (escapedRayQueue q) (mediumTransitionQueue q)
    (hitAreaLightQueue q) (basicEvalMaterialQueue q)
    (universalEvalMaterialQueue q) (f (shadowRayQueue q)) (pixelSampleState_L q).

Definition with_pixelL (f : (Z -> SampledSpectrum) -> Z -> SampledSpectrum)
  (q : Queues) : Queues :=
  mkQueues (rayQueues0 q) (rayQueues1 q) (mediumSampleQueue q)
    (mediumScatterQueue q) (escapedRayQueue q) (mediumTransitionQueue q)
    (hitAreaLightQueue q) (basicEvalMaterialQueue q)
    (universalEvalMaterialQueue q) (shadowRayQueue q) (f (pixelSampleState_L q)).

Definition with_rayQueue (i : Z) (f : list RayWorkItem -> list RayWorkItem)
  (q : Queues) : Queues :=
  let upd rq := mkRayQueue (f (rq_items rq)) (raySamples rq) in
  if Z.land i 1 =? 0 then
    mkQueues (upd (rayQueues0 q)) (rayQueues1 q) (mediumSampleQueue q)
      (mediumScatterQueue q) (escapedRayQueue q) (mediumTransitionQueue q)
      (hitAreaLightQueue q) (basicEvalMaterialQueue q)
      (universalEvalMaterialQueue q) (shadowRayQueue q) (pixelSampleState_L q)
  else
    mkQueues (rayQueues0 q) (upd (rayQueues1 q)) (mediumSampleQueue q)
      (mediumScatterQueue q) (escapedRayQueue q) (mediumTransitionQueue q)
      (hitAreaLightQueue q) (basicEvalMaterialQueue q)
      (universalEvalMaterialQueue q) (shadowRayQueue q) (pixelSampleState_L q).

(** [queue->Push(w)] *)
Definition Push {A : Type} (w : A) (l : list A) : list A := l ++ [w].

(** [array[i] = v] *)
Definition store {A : Type} (i : Z) (v : A) (f : Z -> A) : Z -> A :=
  fun j => if j =? i then v else f j.

(** [queue->Ld[index] = v]: overwrite one field of the item in slot [index]. *)
Fixpoint set_Ld (index : nat) (v : SampledSpectrum) (l : list ShadowRayWorkItem)
  : list ShadowRayWorkItem :=
  match l, index with
  | [], _ => []
  | w :: t, O =>
      mkShadowRayWorkItem (sr_ray w) (sr_tMax w) (sr_lambda w) v
        (sr_pdfUni w) (sr_pdfNEE w) (sr_pixelIndex w) :: t
  | w :: t, S k => w :: set_Ld k v t
  end.

End Q.

(** ** Faults and fuel

    The kernels dereference two values without a check: the pointer that
    [CastOrNullptr] returns and the optional that the light sampler
    returns.  Both are faults here, and so is a queue read past its size.
    The medium traversal and the shadow loop have no bound in the source,
    so their embeddings take fuel. *)

Inductive fault : Type :=
| NullDereference
| EmptyOptional
| OutOfRange.

Inductive exec (A : Type) : Type :=
| Ret (a : A)
| Fault (f : fault)
| OutOfFuel.

Arguments Ret {A} a.
Arguments Fault {A} f.
Arguments OutOfFuel {A}.

Definition bind {A B : Type} (m : exec A) (k : A -> exec B) : exec B :=
  match m with
  | Ret a => k a
  | Fault f => Fault f
  | OutOfFuel => OutOfFuel
  end.

Notation "x <- m ;; k" := (bind m (fun x => k))
  (at level 61, m at next level, right associativity).
Notation "' p <- m ;; k" := (bind m (fun p => k))
  (at level 61, p pattern, m at next level, right associativity).

(** ** The collaborators

    Everything the two files call and do not define.  [TmajState] is the
    medium's own position in its majorant traversal; [SampleTmaj_next]
    yields the next sample handed to the callback, or [None] when the
    medium returns without calling it again. *)

Inductive Launch : Type :=
| LaunchFindClosest
| LaunchShadow
| LaunchShadowTr.

Class Externals : Type := {
  (* pbrt/util/hash.h, pbrt/util/rng.h *)
  Hash_Float : Float -> Z;
  Hash_Point3f : Point3f -> Z;
  Hash_Vector3f : Vector3f -> Z;
  RNG : Type;
  RNG_new : Z -> Z -> RNG;
  Uniform : RNG -> Float * RNG;
  (* pbrt/util/sampling.h *)
  SampleDiscrete : list Float -> Float -> Z;
  (* pbrt/media.h *)
  TmajState : Type;
  SampleTmaj_begin : MediumHandle -> Ray -> Float -> SampledWavelengths -> TmajState;
  SampleTmaj_next : TmajState -> RNG -> option (MediumSample * TmajState * RNG);
  HG_p : HGPhaseFunction -> Vector3f -> Vector3f -> Float;
  HG_PDF : HGPhaseFunction -> Vector3f -> Vector3f -> Float;
  HG_Sample_p : HGPhaseFunction -> Vector3f -> Point2f -> option PhaseFunctionSample;
  (* pbrt/lights.h, pbrt/lightsamplers.h *)
  lightSampler_Sample : LightSampleContext -> Float -> option SampledLight;
  Light_SampleLi : LightHandle -> LightSampleContext -> Point2f ->
                   SampledWavelengths -> option LightLiSample;
  Light_Type : LightHandle -> LightType;
  (* pbrt/materials.h, pbrt/textures.h *)
  GetDisplacement : MaterialHandle -> FloatTextureHandle;
  CanEvaluateTextures : MaterialHandle -> bool;
  BasicCanEvaluate : FloatTextureHandle -> bool;
  (* pbrt/interaction.h, pbrt/ray.h, pbrt/util/vecmath.h *)
  SpawnRay : Interaction -> Vector3f -> Ray;
  SpawnRayTo : Interaction -> Point3f -> Ray;
  Ray_at : Ray -> Float -> Point3f;
  Distance : Point3f -> Point3f -> Float;
  Length : Vector3f -> Float;
  ShadowEpsilon : Float;
  (* the intersection engine: the closest hit of the ray in (tMin, tMax)
     that the any-hit programs of the launch accept, as the closest-hit
     program builds it, with its distance; [None] runs the miss program *)
  optixTrace : Launch -> Ray -> Float -> Float -> option (SurfaceInteraction * Float);
  (* the fields of a medium-sample slot that the short [Push] overload
     leaves as they were *)
  stale_MediumSample : Z -> MediumSampleWorkItem
}.

Section Kernels.

Context {E : Externals}.

(** The integrator's [maxDepth]. *)
Variable maxDepth : Z.

(** *** Majorant traversal

    [ray.medium.SampleTmaj(ray, tMax, rng, lambda, callback)]: hand the
    medium's samples to the callback until it returns [false].  The
    generator and the callback share the one [rng]. *)

Fixpoint SampleTmaj_loop {S : Type} (fuel : nat) (ts : TmajState) (rng : RNG)
  (callback : MediumSample -> S -> RNG -> exec (bool * S * RNG)) (s : S)
  : exec (S * RNG) :=
  match fuel with
  | O => OutOfFuel
  | Datatypes.S fuel' =>
      match SampleTmaj_next ts rng with
      | None => Ret (s, rng)
      | Some (sample, ts', rng1) =>
          '(continue, s', rng2) <- callback sample s rng1 ;;
          if (continue : bool)
          then SampleTmaj_loop fuel' ts' rng2 callback s'
          else Ret (s', rng2)
      end
  end.

Definition SampleTmaj {S : Type} (fuel : nat) (ray : Ray) (tMax : Float)
  (rng : RNG) (lambda : SampledWavelengths)
  (callback : MediumSample -> S -> RNG -> exec (bool * S * RNG)) (s : S)
  : exec (S * RNG) :=
  SampleTmaj_loop fuel (SampleTmaj_begin (medium ray) ray tMax lambda) rng callback s.

(** *** media.cpp: the medium-sample kernel *)

(** What the callback did with a sample: the branch that its debug line
    names. *)
Inductive Outcome : Type :=
| NoInteraction     (* "No intr" *)
| Absorbed          (* "absorbed" *)
| Scattered         (* "scattered" *)
| NullScattered.    (* "null-scattered" *)

Record Visit : Type := mkVisit {
  v_sample : MediumSample;
  v_outcome : Outcome
}.

(** The locals the traversal callback captures by reference, and the debug
    trace of the samples it has been handed, oldest first. *)
Record PathState : Type := mkPathState {
  beta : SampledSpectrum;
  pdfUni : SampledSpectrum;
  pdfNEE : SampledSpectrum;
  L : SampledSpectrum;
  scattered : bool;
  scatterQ : list MediumScatterWorkItem;
  visits : list Visit
}.

(** The overflow guard shared by both traversals. *)
Definition too_large (a b c : SampledSpectrum) : bool :=
  (F32.two24 <? Sp.MaxComponentValue a)%f32
  || (F32.two24 <? Sp.MaxComponentValue b)%f32
  || (F32.two24 <? Sp.MaxComponentValue c)%f32.

Definition rescale (a : SampledSpectrum) : SampledSpectrum :=
  (a *: F32.inv_two24)%sp.

(** The emission term added at a sampled point. *)
Definition emission (st : PathState) (intr : MediumInteraction) : SampledSpectrum :=
  ((beta st * Le intr * sigma_a intr)
     /: (c0 (sigma_maj intr) * Sp.Average (pdfUni st))%f32)%sp.

(** Lines 78-80 *)
Definition add_Le (depth : Z) (st : PathState) (intr : MediumInteraction)
  : SampledSpectrum :=
  if (depth <? maxDepth) && Sp.nonzero (Le intr)
  then (L st + emission st intr)%sp
  else L st.

(** Lines 83-85 *)
Definition probabilities (intr : MediumInteraction) : list Float :=
  let pAbsorb := (c0 (sigma_a intr) / c0 (sigma_maj intr))%f32 in
  let pScatter := (c0 (sigma_s intr) / c0 (sigma_maj intr))%f32 in
  let pNull := F32.max F32.zero (F32.one - pAbsorb - pScatter)%f32 in
  [pAbsorb; pScatter; pNull].

(** Lines 118-139: the three products of a null collision and the guarded
    rescale. *)
Definition null_scatter (beta pdfUni pdfNEE Tmaj : SampledSpectrum)
  (intr : MediumInteraction)
  : SampledSpectrum * SampledSpectrum * SampledSpectrum :=
  let sigma_n := sigma_n intr in
  let beta := (beta * (Tmaj * sigma_n))%sp in
  let pdfUni := (pdfUni * (Tmaj * sigma_n))%sp in
  let pdfNEE := (pdfNEE * (Tmaj * sigma_maj intr))%sp in
  if too_large beta pdfUni pdfNEE
  then (rescale beta, rescale pdfUni, rescale pdfNEE)
  else (beta, pdfUni, pdfNEE).

(** Lines 51-143: the lambda passed to [SampleTmaj]. *)
Definition medium_callback (depth : Z) (ms : MediumSampleWorkItem)
  (mediumSample : MediumSample) (st : PathState) (rng : RNG)
  : exec (bool * PathState * RNG) :=
  let seen o := visits st ++ [mkVisit mediumSample o] in
  match intr mediumSample with
  | None =>
      Ret (false,
           mkPathState (beta st * Tmaj mediumSample)%sp
             (pdfUni st * Tmaj mediumSample)%sp (pdfNEE st)
             (L st) (scattered st) (scatterQ st) (seen NoInteraction),
           rng)
  | Some intr =>
      let Tmaj := Tmaj mediumSample in
      let L := add_Le depth st intr in
      let '(um, rng) := Uniform rng in
      let mode := SampleDiscrete (probabilities intr) um in
      if mode =? 0 then
        Ret (false,
             mkPathState (Sp.const F32.zero) (pdfUni st) (pdfNEE st) L
               (scattered st) (scatterQ st) (seen Absorbed),
             rng)
      else if mode =? 1 then
        let beta := (beta st * (Tmaj * sigma_s intr))%sp in
        let pdfUni := (pdfUni st * (Tmaj * sigma_s intr))%sp in
        match CastOrNullptr_HG (phase intr) with
        | None => Fault NullDereference
        | Some hg =>
            Ret (false,
                 mkPathState beta pdfUni (pdfNEE st) L true
                   (Q.Push
                      (mkMediumScatterWorkItem (mi_p intr) (ms_lambda ms) beta
                         pdfUni (ms_rayIndex ms) hg (Vec.neg (d (ms_ray ms)))
                         (ms_etaScale ms) (medium (ms_ray ms)) (ms_pixelIndex ms))
                      (scatterQ st))
                   (seen Scattered),
                 rng)
        end
      else
        let '(beta, pdfUni, pdfNEE) :=
          null_scatter (beta st) (pdfUni st) (pdfNEE st) Tmaj intr in
        Ret (true,
             mkPathState beta pdfUni pdfNEE L (scattered st) (scatterQ st)
               (seen NullScattered),
             rng)
  end.

(** Line 40 *)
Definition medium_rng (ms : MediumSampleWorkItem) : RNG :=
  RNG_new (Hash_Float (ms_tMax ms)) (Hash_Vector3f (d (ms_ray ms))).

(** Lines 27-143: the locals after the traversal. *)
Definition traverse (fuel : nat) (depth : Z) (ms : MediumSampleWorkItem)
  (q : Queues) : exec (PathState * RNG) :=
  SampleTmaj fuel (ms_ray ms) (ms_tMax ms) (medium_rng ms) (ms_lambda ms)
    (medium_callback depth ms)
    (mkPathState (ms_beta ms) (ms_pdfUni ms) (ms_pdfNEE ms)
       (Sp.const F32.zero) false (mediumScatterQueue q) []).

(** Lines 151-157 *)
Definition add_emission (ms : MediumSampleWorkItem) (L : SampledSpectrum)
  (q : Queues) : Queues :=
  if Sp.nonzero L
  then Q.with_pixelL
         (fun a => Q.store (ms_pixelIndex ms)
                     (a (ms_pixelIndex ms) + L)%sp a) q
  else q.

(** Lines 166-225: where an item that did not scatter goes. *)
Definition route (ms : MediumSampleWorkItem) (st : PathState) (q : Queues)
  : Queues :=
  let ray := ms_ray ms in
  let lambda := ms_lambda ms in
  let q :=
    if (ms_tMax ms =? F32.Infinity)%f32
    then Q.with_escaped
           (Q.Push (mkEscapedRayWorkItem (beta st) (pdfUni st) (pdfNEE st)
                      lambda (o ray) (d ray) (ms_piPrev ms) (ms_nPrev ms)
                      (ms_nsPrev ms) (Z.b2z (ms_isSpecularBounce ms))
                      (ms_pixelIndex ms))) q
    else q in
  let material := ms_material ms in
  if negb (is_set material) then
    let intr := mkInteraction (ms_pi ms) (ms_n ms) (Some (ms_mediumInterface ms)) in
    let newRay := SpawnRay intr (d ray) in
    Q.with_mediumTransition
      (Q.Push (mkMediumTransitionWorkItem newRay lambda (beta st) (pdfUni st)
                 (pdfNEE st) (ms_piPrev ms) (ms_nPrev ms) (ms_nsPrev ms)
                 (ms_isSpecularBounce ms) (ms_anyNonSpecularBounces ms)
                 (ms_etaScale ms) (ms_pixelIndex ms))) q
  else
    let q :=
      if is_set (ms_areaLight ms)
      then Q.with_hitAreaLight
             (Q.Push (mkHitAreaLightWorkItem (ms_areaLight ms) lambda (beta st)
                        (pdfUni st) (pdfNEE st) (Vec.of_fi (ms_pi ms)) (ms_n ms)
                        (ms_uv ms) (Vec.neg (d ray)) (ms_piPrev ms) (d ray)
                        (time ray) (ms_nPrev ms) (ms_nsPrev ms)
                        (Z.b2z (ms_isSpecularBounce ms)) (ms_pixelIndex ms))) q
      else q in
    let displacement := GetDisplacement material in
    let item :=
      mkMaterialEvalWorkItem material lambda (beta st) (pdfUni st) (ms_pi ms)
        (ms_n ms) (ms_ns ms) (ms_dpdus ms) (ms_dpdvs ms) (ms_dndus ms)
        (ms_dndvs ms) (Vec.neg (d ray)) (ms_uv ms) (time ray)
        (ms_anyNonSpecularBounces ms) (ms_etaScale ms) (ms_mediumInterface ms)
        (ms_rayIndex ms) (ms_pixelIndex ms) in
    if CanEvaluateTextures material
       && (negb (is_set displacement) || BasicCanEvaluate displacement)
    then Q.with_basicEval (Q.Push item) q
    else Q.with_universalEval (Q.Push item) q.

(** Lines 26-226: the first lambda, on one medium-sample item. *)
Definition sample_medium_item (fuel : nat) (depth : Z)
  (ms : MediumSampleWorkItem) (q : Queues) : exec Queues :=
  '(st, _) <- traverse fuel depth ms q ;;
  let q := Q.with_mediumScatter (fun _ => scatterQ st) q in
  let q := add_emission ms (L st) q in
  if scattered st then Ret q else Ret (route ms st q).

(** *** media.cpp: the medium-scatter kernel *)

(** [PushIndirect]: the arguments in the order of the call. *)
Definition PushIndirect (ray : Ray) (piPrev : Point3fi) (nPrev nsPrev : Normal3f)
  (beta pdfUni pdfNEE : SampledSpectrum) (lambda : SampledWavelengths)
  (etaScale : Float) (isSpecularBounce anyNonSpecularBounces : bool)
  (pixelIndex : Z) (l : list RayWorkItem) : list RayWorkItem :=
  Q.Push (mkRayWorkItem ray piPrev nPrev nsPrev beta pdfUni pdfNEE lambda
            etaScale isSpecularBounce anyNonSpecularBounces pixelIndex) l.

(** Lines 237-277: next-event estimation at the scattering point. *)
Definition sample_direct (ms : MediumScatterWorkItem) (raySamples : RaySamples)
  (sampledLight : SampledLight) (q : Queues) : Queues :=
  let time := F32.zero in
  let wo := sc_wo ms in
  let ctx := mkLightSampleContext (Vec.to_fi (sc_p ms)) Vec.zero3 Vec.zero3 in
  let light := sl_light sampledLight in
  if is_set light then
    match Light_SampleLi light ctx (direct_u (direct raySamples)) (sc_lambda ms) with
    | Some ls =>
        if Sp.nonzero (ls_L ls) then
          let wi := ls_wi ls in
          let beta := (sc_beta ms *: HG_p (sc_phase ms) wo wi)%sp in
          let lightPDF := (ls_pdf ls * sl_pdf sampledLight)%f32 in
          let phasePDF :=
            if IsDeltaLight (Light_Type light) then F32.zero
            else HG_PDF (sc_phase ms) wo wi in
          let pdfUni := (sc_pdfUni ms *: phasePDF)%sp in
          let pdfNEE := (sc_pdfUni ms *: lightPDF)%sp in
          let Ld := (beta * ls_L ls)%sp in
          let ray := mkRay (sc_p ms) (Vec.sub (ls_pLight ls) (sc_p ms)) time
                       (sc_medium ms) in
          Q.with_shadow
            (Q.Push (mkShadowRayWorkItem ray (F32.one - ShadowEpsilon)%f32
                       (sc_lambda ms) Ld pdfUni pdfNEE (sc_pixelIndex ms))) q
        else q
    | None => q
    end
  else q.

(** The outcome of the roulette of lines 289-300: the path is dropped, or
    it goes on with these two densities. *)
Definition russian_roulette (depth : Z) (beta pdfUni pdfNEE : SampledSpectrum)
  (etaScale rr : Float) : option (SampledSpectrum * SampledSpectrum) :=
  let rrBeta := (beta *: etaScale /: Sp.Average pdfUni)%sp in
  if (Sp.MaxComponentValue rrBeta <? F32.one)%f32 && (1 <? depth) then
    let q := F32.max F32.zero (F32.one - Sp.MaxComponentValue rrBeta)%f32 in
    if (rr <? q)%f32 then None
    else Some ((pdfUni *: (F32.one - q)%f32)%sp, (pdfNEE *: (F32.one - q)%f32)%sp)
  else Some (pdfUni, pdfNEE).

(** Lines 279-312: the continuation ray. *)
Definition sample_indirect (depth : Z) (ms : MediumScatterWorkItem)
  (raySamples : RaySamples) (q : Queues) : Queues :=
  let time := F32.zero in
  let wo := sc_wo ms in
  match HG_Sample_p (sc_phase ms) wo (indirect_u (indirect raySamples)) with
  | None => q
  | Some phaseSample =>
      let beta := (sc_beta ms *: ps_p phaseSample)%sp in
      let pdfUni := (sc_pdfUni ms *: ps_pdf phaseSample)%sp in
      let pdfNEE := sc_pdfUni ms in
      match russian_roulette depth beta pdfUni pdfNEE (sc_etaScale ms)
              (indirect_rr (indirect raySamples)) with
      | None => q
      | Some (pdfUni, pdfNEE) =>
          let ray := mkRay (sc_p ms) (ps_wi phaseSample) time (sc_medium ms) in
          let isSpecularBounce := false in
          let anyNonSpecularBounces := true in
          Q.with_rayQueue (depth + 1)
            (PushIndirect ray (Vec.to_fi (sc_p ms)) Vec.zero3 Vec.zero3 beta
               pdfUni pdfNEE (sc_lambda ms) (sc_etaScale ms) isSpecularBounce
               anyNonSpecularBounces (sc_pixelIndex ms)) q
      end
  end.

(** Lines 232-313: the second lambda, on one medium-scatter item. *)
Definition scatter_medium_item (depth : Z) (ms : MediumScatterWorkItem)
  (q : Queues) : exec Queues :=
  let raySamples := raySamples (rayQueues q depth) (sc_rayIndex ms) in
  let ctx := mkLightSampleContext (Vec.to_fi (sc_p ms)) Vec.zero3 Vec.zero3 in
  match lightSampler_Sample ctx (direct_uc (direct raySamples)) with
  | None => Fault EmptyOptional
  | Some sampledLight =>
      let q := sample_direct ms raySamples sampledLight q in
      Ret (sample_indirect depth ms raySamples q)
  end.

(** [ForAllQueued]: the lambda on every item of the queue as it stood when
    the kernel was launched.  The source runs the items in parallel and a
    push takes the next free slot of its queue; here the items are handled
    one after the other in queue order, which is one of the schedules the
    source allows.  What is stated of the contents of a queue after a
    kernel is therefore stated up to the order of its items. *)
Definition ForAllQueued {A : Type} (f : A -> Queues -> exec Queues)
  (items : list A) (q : Queues) : exec Queues :=
  fold_left (fun acc w => q <- acc ;; f w q) items (Ret q).

Definition SampleMediumInteraction (fuel : nat) (depth : Z) (q : Queues)
  : exec Queues :=
  q <- ForAllQueued (sample_medium_item fuel depth) (mediumSampleQueue q) q ;;
  ForAllQueued (scatter_medium_item depth) (mediumScatterQueue q) q.

(** Lines 316-332 *)
Definition HandleMediumTransitions (depth : Z) (q : Queues) : exec Queues :=
  ForAllQueued
    (fun mt q =>
       Ret (Q.with_rayQueue (depth + 1)
              (PushIndirect (mt_ray mt) (mt_piPrev mt) (mt_nPrev mt)
                 (mt_nsPrev mt) (mt_beta mt) (mt_pdfUni mt) (mt_pdfNEE mt)
                 (mt_lambda mt) (mt_etaScale mt) (mt_isSpecularBounce mt)
                 (mt_anyNonSpecularBounces mt) (mt_pixelIndex mt)) q))
    (mediumTransitionQueue q) q.

(** *** optix.cu: closest hit *)

Record ClosestHitContext : Type := mkClosestHitContext {
  rayMedium : MediumHandle;
  shadowRay : bool;
  piHit : Point3fi;
  nHit : Normal3f;
  ctx_material : MaterialHandle;
  ctx_mediumInterface : MediumInterface
}.

(** The constructor sets the two inputs; the out fields are written by the
    closest-hit program before anything reads them. *)
Definition ClosestHitContext_new (rayMedium : MediumHandle) (shadowRay : bool)
  : ClosestHitContext :=
  mkClosestHitContext rayMedium shadowRay (Vec.to_fi Vec.zero3) Vec.zero3
    nullptr (MediumInterface_of nullptr).

Definition ctx_SpawnRayTo (ctx : ClosestHitContext) (p : Point3f) : Ray :=
  SpawnRayTo (mkInteraction (piHit ctx) (nHit ctx) (Some (ctx_mediumInterface ctx))) p.

Definition si_Interaction (intr : SurfaceInteraction) : Interaction :=
  mkInteraction (si_pi intr) (si_n intr) (si_mediumInterface intr).

(** [queue[index]] under the launch-index guard [index >= queue->Size()]:
    [None] past the size.  The index is the launch index as the source
    holds it, an [int] that is not negative; below zero the guard of the
    source lets the read through, and nothing is stated there of a program
    that uses [slot] as its guard. *)
Definition slot {A : Type} (l : list A) (index : Z) : option A :=
  if index <? 0 then None else nth_error l (Z.to_nat index).

(** Lines 163-242: where the hit of a path ray goes. *)
Definition enqueue_hit (intr : SurfaceInteraction) (rayIndex : Z)
  (r : RayWorkItem) (tHit : Float) (ctx : ClosestHitContext) (q : Queues)
  : Queues :=
  let rayMedium := rayMedium ctx in
  let mediumInterface := ctx_mediumInterface ctx in
  if is_set rayMedium then
    Q.with_mediumSample
      (Q.Push (mkMediumSampleWorkItem (r_ray r) tHit (r_lambda r) (r_beta r)
                 (r_pdfUni r) (r_pdfNEE r) rayIndex (r_pixelIndex r)
                 (r_piPrev r) (r_nPrev r) (r_nsPrev r) (r_isSpecularBounce r)
                 (r_anyNonSpecularBounces r) (r_etaScale r) (si_areaLight intr)
                 (si_pi intr) (si_n intr) (Vec.neg (d (r_ray r))) (si_uv intr)
                 (si_material intr) (sh_n (si_shading intr))
                 (dpdu (si_shading intr)) (dpdv (si_shading intr))
                 (dndu (si_shading intr)) (dndv (si_shading intr))
                 mediumInterface)) q
  else
    let material := si_material intr in
    if negb (is_set material) then
      let newRay := SpawnRay (si_Interaction intr) (d (r_ray r)) in
      Q.with_mediumTransition
        (Q.Push (mkMediumTransitionWorkItem newRay (r_lambda r) (r_beta r)
                   (r_pdfUni r) (r_pdfNEE r) (r_piPrev r) (r_nPrev r)
                   (r_nsPrev r) (r_isSpecularBounce r)
                   (r_anyNonSpecularBounces r) (r_etaScale r) (r_pixelIndex r))) q
    else
      let q :=
        if is_set (si_areaLight intr) then
          let ray := r_ray r in
          Q.with_hitAreaLight
            (Q.Push (mkHitAreaLightWorkItem (si_areaLight intr) (r_lambda r)
                       (r_beta r) (r_pdfUni r) (r_pdfNEE r) (Vec.of_fi (si_pi intr))
                       (si_n intr) (si_uv intr) (si_wo intr) (r_piPrev r) (d ray)
                       (time ray) (r_nPrev r) (r_nsPrev r)
                       (Z.b2z (r_isSpecularBounce r)) (r_pixelIndex r))) q
        else q in
      let displacement := GetDisplacement material in
      let item :=
        mkMaterialEvalWorkItem material (r_lambda r) (r_beta r) (r_pdfUni r)
          (si_pi intr) (si_n intr) (sh_n (si_shading intr))
          (dpdu (si_shading intr)) (dpdv (si_shading intr))
          (dndu (si_shading intr)) (dndv (si_shading intr)) (si_wo intr)
          (si_uv intr) (si_time intr) (r_anyNonSpecularBounces r) (r_etaScale r)
          mediumInterface rayIndex (r_pixelIndex r) in
      if CanEvaluateTextures material
         && (negb (is_set displacement) || BasicCanEvaluate displacement)
      then Q.with_basicEval (Q.Push item) q
      else Q.with_universalEval (Q.Push item) q.

(** Lines 148-156: the out fields of the context, written through the
    payload pointer. *)
Definition hit_context (ctx : ClosestHitContext) (intr : SurfaceInteraction)
  : ClosestHitContext :=
  let rayMedium := rayMedium ctx in
  let mediumInterface :=
    match si_mediumInterface intr with
    | Some mi => mi
    | None => MediumInterface_of rayMedium
    end in
  mkClosestHitContext rayMedium (shadowRay ctx) (si_pi intr) (si_n intr)
    (si_material intr) mediumInterface.

(** Lines 144-243.  [rayQueue] is [params.rayQueue], [rayIndex] the launch
    index and [tHit] is [optixGetRayTmax()]. *)
Definition ProcessClosestIntersection (intr : SurfaceInteraction)
  (rayQueue : list RayWorkItem) (rayIndex : Z) (tHit : Float)
  (ctx : ClosestHitContext) (q : Queues) : exec (ClosestHitContext * Queues) :=
  let ctx := hit_context ctx intr in
  if shadowRay ctx then Ret (ctx, q)
  else
    match slot rayQueue rayIndex with
    | None => Fault OutOfRange
    | Some r => Ret (ctx, enqueue_hit intr rayIndex r tHit ctx q)
    end.

(** Lines 101-138.  [rayQueue] is the queue of the current depth and
    [rayIndex] the value of the [int] variable, taken as not negative.  The
    traversal and the closest-hit program that runs inside [Trace] are the
    collaborator [optixTrace], which hands back the interaction that
    program has built; [findClosest_launch] below runs the closest-hit
    programs themselves and converts the launch index. *)
Definition __raygen__findClosest (rayQueue : list RayWorkItem) (rayIndex : Z)
  (q : Queues) : exec Queues :=
  match slot rayQueue rayIndex with
  | None => Ret q
  | Some r =>
      let ray := r_ray r in
      let tMax := F32.big_tMax in
      let ctx := ClosestHitContext_new (medium ray) false in
      match optixTrace LaunchFindClosest ray F32.zero tMax with
      | Some (intr, tHit) =>
          '(_, q) <- ProcessClosestIntersection intr rayQueue rayIndex tHit ctx q ;;
          Ret q
      | None =>
          Ret
          (if is_set (medium ray) then
            let st := stale_MediumSample (Z.of_nat (length (mediumSampleQueue q))) in
            Q.with_mediumSample
              (Q.Push (mkMediumSampleWorkItem (r_ray r) F32.Infinity (r_lambda r)
                         (r_beta r) (r_pdfUni r) (r_pdfNEE r) rayIndex
                         (r_pixelIndex r) (r_piPrev r) (r_nPrev r) (r_nsPrev r)
                         (r_isSpecularBounce r) (r_anyNonSpecularBounces r)
                         (r_etaScale r) (ms_areaLight st) (ms_pi st) (ms_n st)
                         (ms_wo st) (ms_uv st) (ms_material st) (ms_ns st)
                         (ms_dpdus st) (ms_dpdvs st) (ms_dndus st) (ms_dndvs st)
                         (ms_mediumInterface st))) q
          else
            Q.with_escaped
              (Q.Push (mkEscapedRayWorkItem (r_beta r) (r_pdfUni r) (r_pdfNEE r)
                         (r_lambda r) (o ray) (d ray) (r_piPrev r) (r_nPrev r)
                         (r_nsPrev r) (Z.b2z (r_isSpecularBounce r))
                         (r_pixelIndex r))) q)
      end
  end.

(** *** optix.cu: shadow rays *)

(** Lines 329-347: binary visibility. *)
Definition __raygen__shadow (index : Z) (q : Queues) : Queues :=
  match slot (shadowRayQueue q) index with
  | None => q
  | Some sr =>
      let Ld :=
        match optixTrace LaunchShadow (sr_ray sr) F32.shadow_tMin (sr_tMax sr) with
        | None => (sr_Ld sr /: Sp.Average (sr_pdfUni sr + sr_pdfNEE sr))%sp
        | Some _ => Sp.const F32.zero
        end in
      Q.with_shadow (Q.set_Ld (Z.to_nat index) Ld) q
  end.

(** The locals of [__raygen__shadow_Tr] that change while it runs. *)
Record TrState : Type := mkTrState {
  tr_ray : Ray;
  tr_Ld : SampledSpectrum;
  tr_pdfUni : SampledSpectrum;
  tr_pdfNEE : SampledSpectrum
}.

(** Lines 400-426: the ratio-tracking lambda. *)
Definition shadow_callback (mediumSample : MediumSample) (st : TrState)
  (rng : RNG) : exec (bool * TrState * RNG) :=
  match intr mediumSample with
  | None => Ret (false, st, rng)
  | Some intr =>
      let Tmaj := Tmaj mediumSample in
      let sigma_n := sigma_n intr in
      let Ld := (tr_Ld st * (Tmaj * sigma_n))%sp in
      let pdfNEE := (tr_pdfNEE st * (Tmaj * sigma_maj intr))%sp in
      let pdfUni := (tr_pdfUni st * (Tmaj * sigma_n))%sp in
      if negb (Sp.nonzero Ld) then
        Ret (false, mkTrState (tr_ray st) Ld pdfUni pdfNEE, rng)
      else if too_large Ld pdfNEE pdfUni then
        Ret (true,
             mkTrState (tr_ray st) (rescale Ld) (rescale pdfUni) (rescale pdfNEE),
             rng)
      else Ret (true, mkTrState (tr_ray st) Ld pdfUni pdfNEE, rng)
  end.

(** Line 371 *)
Definition shadow_rng (sr : ShadowRayWorkItem) : RNG :=
  RNG_new (Hash_Point3f (o (sr_ray sr))) (Hash_Vector3f (d (sr_ray sr))).

(** Why the [while (true)] loop was left. *)
Inductive exit : Type :=
| HitOpaque        (* line 391 *)
| Done             (* line 431 *)
| ZeroDirection.   (* line 436 *)

(** Lines 374-436: one turn of the loop; [inl] leaves it, [inr] goes round
    again. *)
Definition shadow_Tr_turn (fuel : nat) (rayQueue : list RayWorkItem) (index : Z)
  (tMax : Float) (pLight : Point3f) (lambda : SampledWavelengths)
  (q : Queues) (st : TrState) (rng : RNG)
  : exec ((exit * TrState + TrState) * RNG) :=
  let ray := tr_ray st in
  let ctx := ClosestHitContext_new (medium ray) true in
  hit <- match optixTrace LaunchShadowTr ray F32.shadow_tMin tMax with
         | None => Ret (true, ctx)
         | Some (intr, tHit) =>
             '(ctx, _) <- ProcessClosestIntersection intr rayQueue index tHit ctx q ;;
             Ret (false, ctx)
         end ;;
  let '(missed, ctx) := hit in
  if negb missed && is_set (ctx_material ctx) then
    Ret (inl (HitOpaque,
              mkTrState ray (Sp.const F32.zero) (tr_pdfUni st) (tr_pdfNEE st)),
         rng)
  else
    '(st, rng) <-
      (if is_set (medium ray) then
         let tEnd :=
           if missed then tMax
           else (Distance (o ray) (Vec.of_fi (piHit ctx)) / Length (d ray))%f32 in
         SampleTmaj fuel ray tEnd rng lambda shadow_callback st
       else Ret (st, rng)) ;;
    if missed || negb (Sp.nonzero (tr_Ld st)) then Ret (inl (Done, st), rng)
    else
      let ray := ctx_SpawnRayTo ctx pLight in
      let st := mkTrState ray (tr_Ld st) (tr_pdfUni st) (tr_pdfNEE st) in
      if Vec.eqb (d ray) Vec.zero3 then Ret (inl (ZeroDirection, st), rng)
      else Ret (inr st, rng).

(** Lines 373-437: the loop. *)
Fixpoint shadow_Tr_loop (fuel turns : nat) (rayQueue : list RayWorkItem)
  (index : Z) (tMax : Float) (pLight : Point3f) (lambda : SampledWavelengths)
  (q : Queues) (st : TrState) (rng : RNG) : exec (exit * TrState) :=
  match turns with
  | O => OutOfFuel
  | S turns' =>
      '(r, rng) <- shadow_Tr_turn fuel rayQueue index tMax pLight lambda q st rng ;;
      match r with
      | inl out => Ret out
      | inr st => shadow_Tr_loop fuel turns' rayQueue index tMax pLight lambda q st rng
      end
  end.

(** Lines 359-437: the locals at the start, and the loop on them. *)
Definition shadow_Tr_item (fuel turns : nat) (rayQueue : list RayWorkItem)
  (index : Z) (q : Queues) (sr : ShadowRayWorkItem) : exec (exit * TrState) :=
  let lambda := sr_lambda sr in
  let ray := sr_ray sr in
  let tMax := sr_tMax sr in
  let pLight := Ray_at ray tMax in
  shadow_Tr_loop fuel turns rayQueue index tMax pLight lambda q
    (mkTrState ray (sr_Ld sr) (sr_pdfUni sr) (sr_pdfNEE sr)) (shadow_rng sr).

(** Line 439: the value stored for the item. *)
Definition final_Ld (st : TrState) : SampledSpectrum :=
  (tr_Ld st /: Sp.Average (tr_pdfUni st + tr_pdfNEE st))%sp.

(** Lines 353-444.  [fuel] bounds each majorant traversal and [turns] the
    loop. *)
Definition __raygen__shadow_Tr (fuel turns : nat) (rayQueue : list RayWorkItem)
  (index : Z) (q : Queues) : exec Queues :=
  match slot (shadowRayQueue q) index with
  | None => Ret q
  | Some sr =>
      '(_, st) <- shadow_Tr_item fuel turns rayQueue index q sr ;;
      Ret (Q.with_shadow (Q.set_Ld (Z.to_nat index) (final_Ld st)) q)
  end.

End Kernels.

Arguments SampleTmaj_loop {E S} fuel ts rng callback s.

(** ** Predicates on binary32 values used by the statements *)

(** The value with its exponent lowered by 24: the exact product by
    [2^-24] when nothing underflows. *)
Definition scale24 (a : Float) : Float :=
  match a with
  | S754_finite s m e => S754_finite s m (e - 24)
  | _ => a
  end.

Definition not_inf (a : Float) : bool :=
  match a with S754_infinity _ => false | _ => true end.

(** Zero, or finite with an exponent of at least [-96] (a magnitude of at
    least [2^-73] for a normal number): far enough from the subnormal range
    for a division by [2^24] to lose nothing. *)
Definition fits (a : Float) : bool :=
  match a with
  | S754_zero _ => true
  | S754_finite _ _ e => -96 <=? e
  | _ => false
  end.


Definition positive_value (a : Float) : bool := F32.ltb F32.zero a.

Definition Sp_all (P : Float -> bool) (s : SampledSpectrum) : bool :=
  P (c0 s) && P (c1 s) && P (c2 s) && P (c3 s).

(** [beta / pdfUni.Average()] *)
Definition quotient (beta pdfUni : SampledSpectrum) : SampledSpectrum :=
  (beta /: Sp.Average pdfUni)%sp.

(** The rescale of [beta] and [pdfUni] stays clear of underflow and the
    average of [pdfUni] of overflow: every component is a valid binary32
    number that [fits], and so are the running sums of the average and the
    average itself. *)
Definition rescale_exact (beta pdfUni : SampledSpectrum) : bool :=
  let ok a := F32.valid a && fits a in
  let s1 := F32.add (c0 pdfUni) (c1 pdfUni) in
  let s2 := F32.add s1 (c2 pdfUni) in
  let s3 := F32.add s2 (c3 pdfUni) in
  Sp_all ok beta && Sp_all ok pdfUni
  && fits s1 && fits s2 && fits s3 && fits (F32.div s3 F32.four).

(** The outcome of the last sample the callback was handed. *)
Definition ended (st : PathState) : option Outcome :=
  match rev (visits st) with
  | [] => None
  | v :: _ => Some (v_outcome v)
  end.



(** The first [n] numbers a generator hands out. *)
Fixpoint draws {E : Externals} (n : nat) (rng : RNG) : list Float :=
  match n with
  | O => []
  | S k => fst (Uniform rng) :: draws k (snd (Uniform rng))
  end.

(** Two path states that agree on everything the traversal computes; the
    scatter queues they push into may differ. *)
Definition same_spectra (a b : PathState) : Prop :=
  beta a = beta b /\ pdfUni a = pdfUni b /\ pdfNEE a = pdfNEE b
  /\ L a = L b /\ scattered a = scattered b /\ visits a = visits b.

(** Two runs end the same way, with results related by [R]. *)
Definition exec_rel {A B : Type} (R : A -> B -> Prop) (a : exec A) (b : exec B)
  : Prop :=
  match a, b with
  | Ret u, Ret v => R u v
  | Fault f, Fault f' => f = f'
  | OutOfFuel, OutOfFuel => True
  | _, _ => False
  end.

(** The same number: identical, or equal as binary32 values compare (the
    two zeros). *)
Definition same_value (a b : Float) : Prop := a = b \/ F32.eqb a b = true.

Definition Sp_same (s t : SampledSpectrum) : Prop :=
  same_value (c0 s) (c0 t) /\ same_value (c1 s) (c1 t)
  /\ same_value (c2 s) (c2 t) /\ same_value (c3 s) (c3 t).

(** ** Measures used by the statements about routing *)

(** The escaped-ray queue as a list: nothing when it is not configured. *)
Definition escaped_items (q : Queues) : list EscapedRayWorkItem :=
  match escapedRayQueue q with
  | Some l => l
  | None => []
  end.

(** How many items sit in the queues a traced ray is routed to. *)
Definition routed (q : Queues) : nat :=
  (length (mediumSampleQueue q) + length (escaped_items q)
   + length (mediumTransitionQueue q) + length (basicEvalMaterialQueue q)
   + length (universalEvalMaterialQueue q))%nat.

(** The items of a medium-sample queue whose ray met nothing. *)
Definition unbounded (items : list MediumSampleWorkItem)
  : list MediumSampleWorkItem :=
  filter (fun ms => (ms_tMax ms =? F32.Infinity)%f32) items.

(** The ray that [PushIndirect] makes of a medium-transition item. *)
Definition ray_of_transition (mt : MediumTransitionWorkItem) : RayWorkItem :=
  mkRayWorkItem (mt_ray mt) (mt_piPrev mt) (mt_nPrev mt) (mt_nsPrev mt)
    (mt_beta mt) (mt_pdfUni mt) (mt_pdfNEE mt) (mt_lambda mt) (mt_etaScale mt)
    (mt_isSpecularBounce mt) (mt_anyNonSpecularBounces mt) (mt_pixelIndex mt).

(** Lines 316-332 with the items handled in the order [order].  The
    source runs the items of the queue in parallel and each push takes the
    next free slot of the ray queue, so the items may reach it in any
    order; [HandleMediumTransitions] is the one that follows the queue. *)
Definition HandleMediumTransitions_in (depth : Z)
  (order : list MediumTransitionWorkItem) (q : Queues) : exec Queues :=
  ForAllQueued
    (fun mt q =>
       Ret (Q.with_rayQueue (depth + 1)
              (PushIndirect (mt_ray mt) (mt_piPrev mt) (mt_nPrev mt)
                 (mt_nsPrev mt) (mt_beta mt) (mt_pdfUni mt) (mt_pdfNEE mt)
                 (mt_lambda mt) (mt_etaScale mt) (mt_isSpecularBounce mt)
                 (mt_anyNonSpecularBounces mt) (mt_pixelIndex mt)) q))
    order q.

(** A number other than zero: finite and not zero, or infinite. *)
Definition nonzero_number (a : Float) : bool :=
  match a with
  | S754_finite _ _ _ | S754_infinity _ => true
  | _ => false
  end.

(** ** The traversal as the specification words it

    Section 4.2 of the specification describes a traversal by what each
    sampled point does to the running values.  [visit_step] follows those
    words, outcome by outcome, with no loop, no generator and no queue; the
    statements compare the locals of the kernel with what it gives on the
    samples the callback was handed. *)







(** ** The turns of the transmittance loop *)

Section Turns.

Context {E : Externals}.



End Turns.

(** ** A test scene

    One instance of the collaborators, small enough to evaluate the
    kernels on concrete work items. *)

Module Scene.

Definition half : Float := S754_finite false 8388608 (-24).
Definition quarter : Float := S754_finite false 8388608 (-25).
Definition three_quarters : Float := S754_finite false 12582912 (-24).
Definition two : Float := S754_finite false 8388608 (-22).
Definition three : Float := S754_finite false 12582912 (-22).
(** [2^-130], a subnormal number *)
Definition tiny : Float := S754_finite false 524288 (-149).
(** The binary32 nearest to [1 / (4 pi)]. *)
Definition inv4pi : Float := S754_finite false 10680707 (-27).

Definition ones : SampledSpectrum := Sp.const F32.one.
Definition zeros : SampledSpectrum := Sp.const F32.zero.
Definition halves : SampledSpectrum := Sp.const half.

Definition hash_float (a : Float) : Z :=
  match a with
  | S754_zero _ => 0
  | S754_infinity _ => 1
  | S754_nan => 2
  | S754_finite s m e => Z.b2z s + 2 * Zpos m + 7 * e
  end.

Definition hash_tuple (v : Tuple3) : Z :=
  hash_float (x v) + 3 * hash_float (y v) + 5 * hash_float (z v).

(** A generator that cycles through four values. *)
Definition uniform (rng : Z) : Float * Z :=
  (match rng mod 4 with
   | 0 => three_quarters
   | 1 => quarter
   | 2 => half
   | _ => F32.zero
   end, rng + 1).

(** Modelled from the spec: [SampleDiscrete] is declared in a header that
    is not among the sources.  The spec has the event drawn by a uniform
    random number against the probabilities: the index returned is the
    first whose running sum of weights exceeds [u] times their total. *)
Fixpoint walk (weights : list Float) (sum up : Float) (offset : Z) : Z :=
  match weights with
  | [] => offset
  | w :: rest =>
      if SFleb (F32.add sum w) up
      then walk rest (F32.add sum w) up (offset + 1)
      else offset
  end.

Definition sample_discrete (weights : list Float) (u : Float) : Z :=
  match weights with
  | [] => -1
  | _ =>
      let sumWeights := fold_left F32.add weights F32.zero in
      walk weights F32.zero (F32.mul u sumWeights) 0
  end.

Definition collision (a s maj : Float) (le : SampledSpectrum)
  (ph : PhaseFunctionHandle) (tmaj : Float) : MediumSample :=
  mkMediumSample
    (Some (mkMediumInteraction Vec.zero3 (Sp.const a) (Sp.const s)
             (Sp.const maj) le ph))
    (Sp.const tmaj).

Definition segment_end (tmaj : Float) : MediumSample :=
  mkMediumSample None (Sp.const tmaj).

Definition hg : PhaseFunctionHandle := PhaseHG (mkHG F32.zero).

(** Modelled from the spec: the media and their majorant sampler
    ([Medium::SampleTmaj]) are declared in headers that are not among the
    sources.  The spec has the sampler hand out candidate collision points,
    each with the coefficients of the medium there and the majorant
    transmittance up to it, and last the majorant transmittance over the
    remainder of the segment; the majorant is an upper bound of the
    extinction, so it need not be zero where the extinction is.  Each
    medium of the scene is written as the samples it hands out; those
    without a number of their own have a zero majorant: no collision and a
    transmittance of one. *)
Definition script (m : MediumHandle) : list MediumSample :=
  match m with
  | 1 => (* absorbs at the first collision *)
      [collision F32.one F32.zero F32.one zeros hg half]
  | 2 => (* neither absorbs nor scatters *)
      [collision F32.zero F32.zero F32.one zeros hg half; segment_end half]
  | 3 => (* scatters at the first collision *)
      [collision F32.zero F32.one F32.one zeros hg half]
  | 4 => (* scatters, with a phase function of another kind *)
      [collision F32.zero F32.one F32.one zeros (PhaseOther 2) half]
  | 5 => (* half absorbing, dense *)
      [collision F32.one F32.zero two zeros hg F32.one; segment_end F32.one]
  | 6 => (* half absorbing and emitting *)
      [collision F32.one F32.zero two ones hg F32.one; segment_end F32.one]
  | 7 => (* thinner towards the end *)
      [segment_end half]
  | _ => [segment_end F32.one]
  end.

Definition tmaj_next (ts : list MediumSample) (rng : Z)
  : option (MediumSample * list MediumSample * Z) :=
  match ts with
  | [] => None
  | sample :: rest => Some (sample, rest, rng)
  end.

Definition isotropic_sample (wo : Vector3f) : PhaseFunctionSample :=
  mkPhaseSample inv4pi (Vec.neg wo) inv4pi.

Definition pick_light (uc : Float) : SampledLight :=
  if F32.ltb uc half then mkSampledLight 1 half else mkSampledLight 2 half.

Definition light_point : Point3f := mkTuple3 F32.zero F32.zero F32.four.

Definition sample_li (light : LightHandle) : option LightLiSample :=
  Some (mkLightLiSample ones (mkTuple3 F32.zero F32.zero F32.one) quarter
          light_point).

Definition light_type (light : LightHandle) : LightType :=
  if light =? 2 then DeltaPosition else Area.

Definition side (mi : option MediumInterface) : MediumHandle :=
  match mi with
  | Some i => outside i
  | None => nullptr
  end.

Definition spawn_ray (i : Interaction) (w : Vector3f) : Ray :=
  mkRay (Vec.of_fi (in_pi i)) w F32.zero (side (in_mediumInterface i)).

Definition spawn_ray_to (i : Interaction) (p : Point3f) : Ray :=
  mkRay (Vec.of_fi (in_pi i)) (Vec.sub p (Vec.of_fi (in_pi i))) F32.zero
    (side (in_mediumInterface i)).

Definition ray_at (r : Ray) (t : Float) : Point3f :=
  mkTuple3 (F32.add (x (o r)) (F32.mul (x (d r)) t))
           (F32.add (y (o r)) (F32.mul (y (d r)) t))
           (F32.add (z (o r)) (F32.mul (z (d r)) t)).

Definition length (v : Vector3f) : Float :=
  SFsqrt F32.prec F32.emax
    (F32.add (F32.add (F32.mul (x v) (x v)) (F32.mul (y v) (y v)))
       (F32.mul (z v) (z v))).

Definition plain_shading : Shading :=
  mkShading Vec.zero3 Vec.zero3 Vec.zero3 Vec.zero3 Vec.zero3.

Definition surface (p : Point3f) (material : MaterialHandle)
  (areaLight : LightHandle) : SurfaceInteraction :=
  mkSurfaceInteraction (Vec.to_fi p) Vec.zero3 (mkPoint2f F32.zero F32.zero)
    Vec.zero3 F32.zero None material areaLight plain_shading.

(** The geometry: what a ray meets is decided by the first coordinate of
    its origin.  From [x = 1] it meets a wall with material 3; from
    [x = 2] an emitter with material 3; from [x = 3] an emitter with no
    material bound; from [x = 4] a boundary with no material, once, at the
    light point itself; from anywhere else nothing. *)
Definition trace (l : Launch) (r : Ray) (tMin tMax : Float)
  : option (SurfaceInteraction * Float) :=
  if F32.eqb (x (o r)) F32.one then Some (surface light_point 3 0, F32.one)
  else if F32.eqb (x (o r)) two then Some (surface light_point 3 1, F32.one)
  else if F32.eqb (x (o r)) three then Some (surface light_point 0 1, F32.one)
  else if F32.eqb (x (o r)) F32.four
  then Some (surface (mkTuple3 F32.zero F32.zero F32.four) 0 0, F32.one)
  else None.

Definition blank_MediumSample : MediumSampleWorkItem :=
  mkMediumSampleWorkItem (mkRay Vec.zero3 Vec.zero3 F32.zero nullptr) F32.zero
    zeros zeros zeros zeros 0 0 (Vec.to_fi Vec.zero3) Vec.zero3 Vec.zero3
    false false F32.zero nullptr (Vec.to_fi Vec.zero3) Vec.zero3 Vec.zero3
    (mkPoint2f F32.zero F32.zero) nullptr Vec.zero3 Vec.zero3 Vec.zero3
    Vec.zero3 Vec.zero3 (MediumInterface_of nullptr).

Definition env : Externals := {|
  Hash_Float := hash_float;
  Hash_Point3f := hash_tuple;
  Hash_Vector3f := hash_tuple;
  RNG := Z;
  RNG_new := fun a b => a + b;
  Uniform := uniform;
  SampleDiscrete := sample_discrete;
  TmajState := list MediumSample;
  SampleTmaj_begin := fun m _ _ _ => script m;
  SampleTmaj_next := tmaj_next;
  HG_p := fun _ _ _ => inv4pi;
  HG_PDF := fun _ _ _ => inv4pi;
  HG_Sample_p := fun _ wo _ => Some (isotropic_sample wo);
  lightSampler_Sample := fun _ uc => Some (pick_light uc);
  Light_SampleLi := fun light _ _ _ => sample_li light;
  Light_Type := light_type;
  GetDisplacement := fun _ => nullptr;
  CanEvaluateTextures := fun m => Z.odd m;
  BasicCanEvaluate := fun _ => true;
  SpawnRay := spawn_ray;
  SpawnRayTo := spawn_ray_to;
  Ray_at := ray_at;
  Distance := fun a b => length (Vec.sub a b);
  Length := length;
  ShadowEpsilon := S754_finite false 13743895 (-37);
  optixTrace := trace;
  stale_MediumSample := fun _ => blank_MediumSample
|}.

(** Work items of the scene. *)

Definition up : Vector3f := mkTuple3 F32.zero F32.zero F32.one.

Definition ray_in (m : MediumHandle) : Ray := mkRay Vec.zero3 up F32.zero m.

Definition ray_from (px : Float) (m : MediumHandle) : Ray :=
  mkRay (mkTuple3 px F32.zero F32.zero) up F32.zero m.

Definition ms_item (m : MediumHandle) (beta pdfUni pdfNEE : SampledSpectrum)
  (material : MaterialHandle) (areaLight : LightHandle) : MediumSampleWorkItem :=
  mkMediumSampleWorkItem (ray_in m) F32.four ones beta pdfUni pdfNEE 0 0
    (Vec.to_fi Vec.zero3) Vec.zero3 Vec.zero3 false false F32.one areaLight
    (Vec.to_fi light_point) Vec.zero3 (Vec.neg up) (mkPoint2f F32.zero F32.zero)
    material Vec.zero3 Vec.zero3 Vec.zero3 Vec.zero3 Vec.zero3
    (MediumInterface_of nullptr).

Definition samples : Z -> RaySamples :=
  fun i =>
    mkRaySamples (mkDirect (mkPoint2f half half) quarter)
      (mkIndirect half (mkPoint2f half half)
         (if i =? 0 then three_quarters else quarter)).

Definition empty : Queues :=
  mkQueues (mkRayQueue [] samples) (mkRayQueue [] samples) [] [] (Some [])
    [] [] [] [] [] (fun _ => zeros).

Definition sc_item (rayIndex : Z) : MediumScatterWorkItem :=
  mkMediumScatterWorkItem Vec.zero3 ones halves ones rayIndex (mkHG F32.zero)
    (Vec.neg up) F32.one 0 0.

Definition ray_item (px : Float) : RayWorkItem :=
  mkRayWorkItem (ray_from px nullptr) (Vec.to_fi Vec.zero3) Vec.zero3 Vec.zero3
    ones ones ones ones F32.one false false 0.

Definition transition (px : Float) : MediumTransitionWorkItem :=
  mkMediumTransitionWorkItem (ray_from px nullptr) ones ones ones ones
    (Vec.to_fi Vec.zero3) Vec.zero3 Vec.zero3 false false F32.one 0.

(** Two rays wait at a boundary between media. *)
Definition two_transitions : Queues :=
  Q.with_mediumTransition (fun _ => [transition F32.one; transition two]) empty.

Definition shadow_item (px : Float) (m : MediumHandle) : ShadowRayWorkItem :=
  mkShadowRayWorkItem (ray_from px m) three_quarters ones ones ones ones 0.

(** Path states and samples for the null-collision branch. *)

Definition null_sample : MediumSample :=
  collision F32.one F32.zero two zeros hg F32.one.

Definition null_intr : MediumInteraction :=
  mkMediumInteraction Vec.zero3 ones zeros (Sp.const two) zeros hg.

Definition st_large : PathState :=
  mkPathState ones ones (Sp.const F32.two24) zeros false [] [].

Definition st_tiny : PathState :=
  mkPathState (Sp.const tiny) (Sp.const tiny) (Sp.const F32.two24) zeros
    false [] [].

(** A throughput one unit in the last place above a density of [2^-117],
    so that their quotient is [1 + 2^-23]. *)
Definition st_odd : PathState :=
  mkPathState (Sp.const (S754_finite false 8388609 (-140)))
    (Sp.const (S754_finite false 8388608 (-140))) (Sp.const F32.two24) zeros
    false [] [].

Definition plain_item : MediumSampleWorkItem := ms_item 5 ones ones ones 0 0.

(** Samples for the scattering branch. *)

Definition scatter_intr (ph : PhaseFunctionHandle) : MediumInteraction :=
  mkMediumInteraction Vec.zero3 zeros ones ones zeros ph.

Definition scatter_sample (ph : PhaseFunctionHandle) : MediumSample :=
  mkMediumSample (Some (scatter_intr ph)) halves.

Definition st_fresh : PathState := mkPathState ones ones ones zeros false [] [].

(** Items in the emitting medium and in the absorbing one. *)

Definition emitting_item : MediumSampleWorkItem := ms_item 6 ones ones ones 0 0.

Definition absorbed_item : MediumSampleWorkItem := ms_item 1 ones ones ones 0 0.

Definition absorbed_item_on_surface : MediumSampleWorkItem :=
  ms_item 1 ones ones ones 3 0.

(** An item in the medium that neither absorbs nor scatters. *)

(** A ray that met nothing, through the medium of zero majorant. *)
Definition escaping_item : MediumSampleWorkItem :=
  mkMediumSampleWorkItem (ray_in 9) F32.Infinity ones ones ones ones 0 0
    (Vec.to_fi Vec.zero3) Vec.zero3 Vec.zero3 false false F32.one 0
    (Vec.to_fi light_point) Vec.zero3 (Vec.neg up) (mkPoint2f F32.zero F32.zero)
    0 Vec.zero3 Vec.zero3 Vec.zero3 Vec.zero3 Vec.zero3
    (MediumInterface_of nullptr).

Definition clear_item : MediumSampleWorkItem := ms_item 2 ones ones ones 0 0.

(** Two items that differ in the medium alone. *)

Definition thin_item : MediumSampleWorkItem := ms_item 7 ones ones ones 0 0.

(** Queues holding one shadow ray: one that reaches the light, one that
    meets the wall. *)

Definition lit : Queues :=
  Q.with_shadow (fun _ => [shadow_item F32.zero nullptr]) empty.

Definition walled : Queues :=
  Q.with_shadow (fun _ => [shadow_item F32.one nullptr]) empty.


End Scene.

(** ** optix.cu: the payload registers and the hit programs

    The programs that OptiX calls during a traversal read their inputs
    through the [optixGet...] functions and a record of the shader binding
    table.  Here the values those functions return at one call are the
    fields of a [ProgramState], the record is an argument, and a program
    that calls [optixIgnoreIntersection] or [optixReportIntersection]
    returns what it asked for. *)

(** *** Lines 47-63: a 64-bit address in two 32-bit registers *)

Definition uint32 (a : Z) : Z := a mod 2 ^ 32.
Definition uint64 (a : Z) : Z := a mod 2 ^ 64.
(** [int(a)] of a 32-bit unsigned number *)
Definition int32 (a : Z) : Z :=
  let u := uint32 a in if u <? 2 ^ 31 then u else u - 2 ^ 32.

Definition packPointer0 (ptr : Z) : Z :=
  let uptr := uint64 ptr in
  uint32 (Z.shiftr uptr 32).

Definition packPointer1 (ptr : Z) : Z :=
  let uptr := uint64 ptr in
  uint32 uptr.

(** [p0] and [p1] are [optixGetPayload_0()] and [optixGetPayload_1()]. *)
Definition getPayload (p0 p1 : Z) : Z :=
  let uptr := Z.lor (uint64 (Z.shiftl (uint64 p0) 32)) (uint64 p1) in
  uptr.

(** *** What a program sees *)

(** [Transform(m, mInv)], each matrix by its sixteen entries in row order. *)
Record Transform : Type := mkTransform {
  t_m : list Float;
  t_mInv : list Float
}.

Record QuadricIntersection : Type := mkQuadricIntersection {
  qi_tHit : Float;
  qi_pObj : Point3f;
  qi_phi : Float
}.

Record BilinearIntersection : Type := mkBilinearIntersection {
  bi_uv : Point2f;
  bi_t : Float
}.

(** A [ShapeHandle] by what [CastOrNullptr] makes of it. *)
Inductive ShapeHandle : Type :=
| ShapeSphere (sphere : Handle)
| ShapeCylinder (cylinder : Handle)
| ShapeDisk (disk : Handle)
| ShapeOther (tag : Z).

(** The two arrays of a [BilinearPatchMesh] that the programs index. *)
Record BilinearPatchMesh : Type := mkBilinearPatchMesh {
  mesh_p : list Point3f;
  mesh_vertexIndices : list Z
}.

Record TriangleMeshRecord : Type := mkTriangleMeshRecord {
  tri_mesh : Handle;
  tri_material : MaterialHandle;
  tri_alphaTexture : FloatTextureHandle;
  tri_areaLights : list LightHandle;
  tri_mediumInterface : option MediumInterface
}.

Record QuadricRecord : Type := mkQuadricRecord {
  quad_shape : ShapeHandle;
  quad_material : MaterialHandle;
  quad_alphaTexture : FloatTextureHandle;
  quad_areaLight : LightHandle;
  quad_mediumInterface : option MediumInterface
}.

Record BilinearMeshRecord : Type := mkBilinearMeshRecord {
  bil_mesh : BilinearPatchMesh;
  bil_material : MaterialHandle;
  bil_alphaTexture : FloatTextureHandle;
  bil_areaLights : list LightHandle;
  bil_mediumInterface : option MediumInterface
}.

(** The values of the [optixGet...] functions during one program call. *)
Record ProgramState : Type := mkProgramState {
  optixGetPrimitiveIndex : Z;
  optixGetTriangleBarycentrics : Point2f;
  optixGetWorldRayDirection : Vector3f;
  optixGetObjectRayOrigin : Point3f;
  optixGetObjectRayDirection : Vector3f;
  optixGetRayTime : Float;
  optixGetRayTmax : Float;
  optixGetTransformListSize : Z;
  (** the twelve entries each call writes *)
  optixGetObjectToWorldTransformMatrix : list Float;
  optixGetWorldToObjectTransformMatrix : list Float;
  optixGetAttribute_0 : Z;
  optixGetAttribute_1 : Z;
  optixGetAttribute_2 : Z;
  optixGetAttribute_3 : Z
}.

(** The arguments of [optixReportIntersection]. *)
Record Report : Type := mkReport {
  rep_tHit : Float;
  rep_hitKind : Z;
  rep_attributes : list Z
}.

(** A [SubsurfaceInteraction] is made from a [SurfaceInteraction] by a
    constructor of another file; it stands here as the interaction it was
    made from. *)
Record SubsurfaceInteraction : Type := SubsurfaceInteraction_of {
  ssi_source : SurfaceInteraction
}.

(** The fields of a [SubsurfaceScatterWorkItem] that the random-hit
    program reads and writes. *)
Record SubsurfaceScatterWorkItem : Type := mkSubsurfaceScatterWorkItem {
  ss_p0 : Point3f;
  ss_p1 : Point3f;
  ss_material : MaterialHandle;
  ss_weight : Float;
  ss_ssi : SubsurfaceInteraction
}.

(** A candidate hit of the random-hit traversal: the record and the state
    its any-hit program is called with. *)
Inductive Candidate : Type :=
| OnTriangle (rec : TriangleMeshRecord) (st : ProgramState)
| OnBilinearPatch (rec : BilinearMeshRecord) (st : ProgramState)
| OnQuadric (rec : QuadricRecord) (st : ProgramState).

(** An [assert] stops the program; everything else goes on. *)
Inductive checked (A : Type) : Type :=
| Passed (a : A)
| AssertionFailed.

Arguments Passed {A} a.
Arguments AssertionFailed {A}.

(** The shapes, textures and the reservoir sampler are defined in other
    files; the programs use them through these operations. *)
Class Shapes : Type := {
  Triangle_InteractionFromIntersection :
    Handle -> Z -> Float * Float * Float -> Float -> Vector3f -> Transform ->
    option SurfaceInteraction;
  Sphere_BasicIntersect : Handle -> Ray -> Float -> option QuadricIntersection;
  Cylinder_BasicIntersect : Handle -> Ray -> Float -> option QuadricIntersection;
  Disk_BasicIntersect : Handle -> Ray -> Float -> option QuadricIntersection;
  Sphere_InteractionFromIntersection :
    Handle -> QuadricIntersection -> Vector3f -> Float -> SurfaceInteraction;
  Cylinder_InteractionFromIntersection :
    Handle -> QuadricIntersection -> Vector3f -> Float -> SurfaceInteraction;
  Disk_InteractionFromIntersection :
    Handle -> QuadricIntersection -> Vector3f -> Float -> SurfaceInteraction;
  BilinearPatch_Intersect :
    Ray -> Float -> Point3f -> Point3f -> Point3f -> Point3f ->
    option BilinearIntersection;
  BilinearPatch_InteractionFromIntersection :
    BilinearPatchMesh -> Z -> Point2f -> Float -> Vector3f -> SurfaceInteraction;
  (** [BasicTextureEvaluator()(texture, intr)] *)
  BasicTextureEvaluator_eval : FloatTextureHandle -> SurfaceInteraction -> Float;
  IsTransparent : MaterialHandle -> bool;
  IsMediumTransition : MediumInterface -> bool;
  FloatToBits : Float -> Z;
  BitsToFloat : Z -> Float;
  (** what a declaration without an initialiser holds *)
  uninitialized_Float : Float;
  uninitialized_SurfaceInteraction : SurfaceInteraction;
  (** [Hash(p0, p1)] *)
  Hash_Point3f_Point3f : Point3f -> Point3f -> Z;
  WeightedReservoirSampler : Type;
  WRS_new : WeightedReservoirSampler;
  WRS_Seed : Z -> WeightedReservoirSampler -> WeightedReservoirSampler;
  (** [wrs.Add(func, weight)]: [func] is called only if its sample is
      taken *)
  WRS_Add :
    (unit -> checked (exec SubsurfaceInteraction)) -> Float ->
    WeightedReservoirSampler -> checked (exec WeightedReservoirSampler);
  WRS_HasSample : WeightedReservoirSampler -> bool;
  WRS_WeightSum : WeightedReservoirSampler -> Float;
  WRS_GetSample : WeightedReservoirSampler -> SubsurfaceInteraction;
  (** the candidates between [tMin] and [tMax], in the order in which the
      traversal calls their any-hit programs *)
  randomHit_candidates : Ray -> Float -> Float -> list Candidate
}.

Section HitPrograms.

Context {E : Externals} {G : Shapes}.

(** [intr.mediumInterface = ...], [intr.material = ...] and
    [intr.areaLight = ...] *)
Definition set_mediumInterface (mi : option MediumInterface)
  (intr : SurfaceInteraction) : SurfaceInteraction :=
  mkSurfaceInteraction (si_pi intr) (si_n intr) (si_uv intr) (si_wo intr)
    (si_time intr) mi (si_material intr) (si_areaLight intr) (si_shading intr).

Definition set_material (m : MaterialHandle) (intr : SurfaceInteraction)
  : SurfaceInteraction :=
  mkSurfaceInteraction (si_pi intr) (si_n intr) (si_uv intr) (si_wo intr)
    (si_time intr) (si_mediumInterface intr) m (si_areaLight intr)
    (si_shading intr).

Definition set_areaLight (l : LightHandle) (intr : SurfaceInteraction)
  : SurfaceInteraction :=
  mkSurfaceInteraction (si_pi intr) (si_n intr) (si_uv intr) (si_wo intr)
    (si_time intr) (si_mediumInterface intr) (si_material intr) l
    (si_shading intr).

(** [if (rec.mediumInterface && rec.mediumInterface->IsMediumTransition())
    intr.mediumInterface = rec.mediumInterface;], as in all three
    closest-hit programs. *)
Definition take_mediumInterface (mi : option MediumInterface)
  (intr : SurfaceInteraction) : SurfaceInteraction :=
  match mi with
  | Some i => if IsMediumTransition i then set_mediumInterface mi intr else intr
  | None => intr
  end.

(** *** Triangles *)

(** Lines 247-278 *)
Definition getTriangleIntersection (rec : TriangleMeshRecord)
  (st : ProgramState) : checked (option SurfaceInteraction) :=
  let b1 := p2_x (optixGetTriangleBarycentrics st) in
  let b2 := p2_y (optixGetTriangleBarycentrics st) in
  let b0 := (F32.one - b1 - b2)%f32 in
  let rd := optixGetWorldRayDirection st in
  let wo := Vec.neg rd in
  if negb (optixGetTransformListSize st =? 1) then AssertionFailed
  else
    let last_row := [F32.zero; F32.zero; F32.zero; F32.one] in
    let worldFromObjM := optixGetObjectToWorldTransformMatrix st ++ last_row in
    let objFromWorldM := optixGetWorldToObjectTransformMatrix st ++ last_row in
    let worldFromInstance := mkTransform worldFromObjM objFromWorldM in
    Passed
      (Triangle_InteractionFromIntersection (tri_mesh rec)
         (optixGetPrimitiveIndex st) (b0, b1, b2) (optixGetRayTime st) wo
         worldFromInstance).

(** Lines 280-291 *)
Definition alphaKilled (rec : TriangleMeshRecord) (st : ProgramState)
  : checked bool :=
  if negb (is_set (tri_alphaTexture rec)) then Passed false
  else
    match getTriangleIntersection rec st with
    | AssertionFailed => AssertionFailed
    | Passed None => Passed true
    | Passed (Some intr) =>
        let alpha := BasicTextureEvaluator_eval (tri_alphaTexture rec) intr in
        Passed (alpha =? F32.zero)%f32
    end.

(** Lines 293-307.  The optional is dereferenced without a test; the
    context is the payload, [rayQueue] and [rayIndex] are those of the
    launch. *)
Definition __closesthit__triangle (rec : TriangleMeshRecord)
  (st : ProgramState) (rayQueue : list RayWorkItem) (rayIndex : Z)
  (ctx : ClosestHitContext) (q : Queues)
  : checked (exec (ClosestHitContext * Queues)) :=
  match getTriangleIntersection rec st with
  | AssertionFailed => AssertionFailed
  | Passed None => Passed (Fault EmptyOptional)
  | Passed (Some intr) =>
      let intr := take_mediumInterface (tri_mediumInterface rec) intr in
      let intr := set_material (tri_material rec) intr in
      match tri_areaLights rec with
      | [] =>
          Passed (ProcessClosestIntersection intr rayQueue rayIndex
                    (optixGetRayTmax st) ctx q)
      | _ =>
          match slot (tri_areaLights rec) (optixGetPrimitiveIndex st) with
          | None => Passed (Fault OutOfRange)
          | Some l =>
              Passed (ProcessClosestIntersection (set_areaLight l intr)
                        rayQueue rayIndex (optixGetRayTmax st) ctx q)
          end
      end
  end.

(** Lines 309-314.  The result of an any-hit program is whether it called
    [optixIgnoreIntersection]. *)
Definition __anyhit__triangle (rec : TriangleMeshRecord) (st : ProgramState)
  : checked bool :=
  alphaKilled rec st.

(** Lines 316-324.  [optixIgnoreIntersection] ends the program, so the
    alpha test runs only for a candidate the first test kept. *)
Definition __anyhit__shadowTriangle (rec : TriangleMeshRecord)
  (st : ProgramState) : checked bool :=
  if is_set (tri_material rec) && IsTransparent (tri_material rec)
  then Passed true
  else alphaKilled rec st.

(** *** Quadrics *)

(** Lines 453-472 *)
Definition getQuadricIntersection (rec : QuadricRecord) (st : ProgramState)
  (si : QuadricIntersection) : checked SurfaceInteraction :=
  let rd := optixGetWorldRayDirection st in
  let wo := Vec.neg rd in
  let time := optixGetRayTime st in
  match quad_shape rec with
  | ShapeSphere sphere =>
      Passed (Sphere_InteractionFromIntersection sphere si wo time)
  | ShapeCylinder cylinder =>
      Passed (Cylinder_InteractionFromIntersection cylinder si wo time)
  | ShapeDisk disk =>
      Passed (Disk_InteractionFromIntersection disk si wo time)
  | ShapeOther _ => AssertionFailed
  end.

(** Lines 476-480: the intersection rebuilt from the attributes; its
    [tHit] is not set. *)
Definition quadric_attributes (st : ProgramState) : QuadricIntersection :=
  mkQuadricIntersection uninitialized_Float
    (mkTuple3 (BitsToFloat (optixGetAttribute_0 st))
       (BitsToFloat (optixGetAttribute_1 st))
       (BitsToFloat (optixGetAttribute_2 st)))
    (BitsToFloat (optixGetAttribute_3 st)).

(** Lines 474-490 *)
Definition __closesthit__quadric (rec : QuadricRecord) (st : ProgramState)
  (rayQueue : list RayWorkItem) (rayIndex : Z) (ctx : ClosestHitContext)
  (q : Queues) : checked (exec (ClosestHitContext * Queues)) :=
  let qi := quadric_attributes st in
  match getQuadricIntersection rec st qi with
  | AssertionFailed => AssertionFailed
  | Passed intr =>
      let intr := take_mediumInterface (quad_mediumInterface rec) intr in
      let intr := set_material (quad_material rec) intr in
      let intr :=
        if is_set (quad_areaLight rec)
        then set_areaLight (quad_areaLight rec) intr else intr in
      Passed (ProcessClosestIntersection intr rayQueue rayIndex
                (optixGetRayTmax st) ctx q)
  end.

(** Lines 492-497 *)
Definition __anyhit__shadowQuadric (rec : QuadricRecord) : bool :=
  is_set (quad_material rec) && IsTransparent (quad_material rec).

(** Lines 499-531.  [Ray(o, d)] has time zero and no medium.  The result
    is the report, if the program made one. *)
Definition __intersection__quadric (rec : QuadricRecord) (st : ProgramState)
  : checked (option Report) :=
  let org := optixGetObjectRayOrigin st in
  let dir := optixGetObjectRayDirection st in
  let tMax := optixGetRayTmax st in
  let ray := mkRay org dir F32.zero nullptr in
  let isect :=
    match quad_shape rec with
    | ShapeSphere sphere => Sphere_BasicIntersect sphere ray tMax
    | ShapeCylinder cylinder => Cylinder_BasicIntersect cylinder ray tMax
    | ShapeDisk disk => Disk_BasicIntersect disk ray tMax
    | ShapeOther _ => None
    end in
  match isect with
  | None => Passed None
  | Some isect =>
      let report :=
        mkReport (qi_tHit isect) 0
          [FloatToBits (x (qi_pObj isect)); FloatToBits (y (qi_pObj isect));
           FloatToBits (z (qi_pObj isect)); FloatToBits (qi_phi isect)] in
      if is_set (quad_alphaTexture rec) then
        match getQuadricIntersection rec st isect with
        | AssertionFailed => AssertionFailed
        | Passed intr =>
            let alpha := BasicTextureEvaluator_eval (quad_alphaTexture rec) intr in
            if (alpha =? F32.zero)%f32 then Passed None
            else Passed (Some report)
        end
      else Passed (Some report)
  end.

(** *** Bilinear patches *)

(** Lines 536-545 *)
Definition getBilinearPatchIntersection (rec : BilinearMeshRecord)
  (st : ProgramState) (uv : Point2f) : SurfaceInteraction :=
  let rd := optixGetWorldRayDirection st in
  let wo := Vec.neg rd in
  BilinearPatch_InteractionFromIntersection (bil_mesh rec)
    (optixGetPrimitiveIndex st) uv (optixGetRayTime st) wo.

(** Lines 550: the parameters rebuilt from the attributes. *)
Definition patch_attributes (st : ProgramState) : Point2f :=
  mkPoint2f (BitsToFloat (optixGetAttribute_0 st))
    (BitsToFloat (optixGetAttribute_1 st)).

(** Lines 547-560 *)
Definition __closesthit__bilinearPatch (rec : BilinearMeshRecord)
  (st : ProgramState) (rayQueue : list RayWorkItem) (rayIndex : Z)
  (ctx : ClosestHitContext) (q : Queues) : exec (ClosestHitContext * Queues) :=
  let uv := patch_attributes st in
  let intr := getBilinearPatchIntersection rec st uv in
  let intr := take_mediumInterface (bil_mediumInterface rec) intr in
  let intr := set_material (bil_material rec) intr in
  match bil_areaLights rec with
  | [] =>
      ProcessClosestIntersection intr rayQueue rayIndex (optixGetRayTmax st)
        ctx q
  | _ =>
      match slot (bil_areaLights rec) (optixGetPrimitiveIndex st) with
      | None => Fault OutOfRange
      | Some l =>
          ProcessClosestIntersection (set_areaLight l intr) rayQueue rayIndex
            (optixGetRayTmax st) ctx q
      end
  end.

(** Lines 562-567 *)
Definition __anyhit__shadowBilinearPatch (rec : BilinearMeshRecord) : bool :=
  is_set (bil_material rec) && IsTransparent (bil_material rec).

(** [rec.mesh->p[rec.mesh->vertexIndices[i]]] *)
Definition vertex (mesh : BilinearPatchMesh) (i : Z) : exec Point3f :=
  match slot (mesh_vertexIndices mesh) i with
  | None => Fault OutOfRange
  | Some v =>
      match slot (mesh_p mesh) v with
      | None => Fault OutOfRange
      | Some p => Ret p
      end
  end.

(** Lines 569-599 *)
Definition __intersection__bilinearPatch (rec : BilinearMeshRecord)
  (st : ProgramState) : exec (option Report) :=
  let org := optixGetObjectRayOrigin st in
  let dir := optixGetObjectRayDirection st in
  let tMax := optixGetRayTmax st in
  let ray := mkRay org dir F32.zero nullptr in
  let vertexIndex := int32 (4 * optixGetPrimitiveIndex st) in
  p00 <- vertex (bil_mesh rec) vertexIndex ;;
  p10 <- vertex (bil_mesh rec) (vertexIndex + 1) ;;
  p01 <- vertex (bil_mesh rec) (vertexIndex + 2) ;;
  p11 <- vertex (bil_mesh rec) (vertexIndex + 3) ;;
  match BilinearPatch_Intersect ray tMax p00 p10 p01 p11 with
  | None => Ret None
  | Some isect =>
      let report :=
        mkReport (bi_t isect) 0
          [FloatToBits (p2_x (bi_uv isect)); FloatToBits (p2_y (bi_uv isect))] in
      if is_set (bil_alphaTexture rec) then
        let intr := getBilinearPatchIntersection rec st (bi_uv isect) in
        let alpha := BasicTextureEvaluator_eval (bil_alphaTexture rec) intr in
        if (alpha =? F32.zero)%f32 then Ret None else Ret (Some report)
      else Ret (Some report)
  end.

(** *** Random hits, for subsurface scattering *)

(** Lines 604-607 *)
Record RandomHitPayload : Type := mkRandomHitPayload {
  wrs : WeightedReservoirSampler;
  material : MaterialHandle
}.

(** [p->wrs.Add(func, 1.f)] when the materials are the same; the
    candidate is ignored either way. *)
Definition add_candidate (rec_material : MaterialHandle)
  (func : unit -> checked (exec SubsurfaceInteraction)) (p : RandomHitPayload)
  : checked (exec RandomHitPayload) :=
  if rec_material =? material p then
    match WRS_Add func F32.one (wrs p) with
    | Passed (Ret w) => Passed (Ret (mkRandomHitPayload w (material p)))
    | Passed (Fault f) => Passed (Fault f)
    | Passed OutOfFuel => Passed OutOfFuel
    | AssertionFailed => AssertionFailed
    end
  else Passed (Ret p).

(** Lines 643-655 *)
Definition __anyhit__randomHitTriangle (rec : TriangleMeshRecord)
  (st : ProgramState) (p : RandomHitPayload) : checked (exec RandomHitPayload) :=
  add_candidate (tri_material rec)
    (fun _ =>
       match getTriangleIntersection rec st with
       | AssertionFailed => AssertionFailed
       | Passed None => Passed (Fault EmptyOptional)
       | Passed (Some intr) => Passed (Ret (SubsurfaceInteraction_of intr))
       end) p.

(** Lines 657-675 *)
Definition __anyhit__randomHitBilinearPatch (rec : BilinearMeshRecord)
  (st : ProgramState) (p : RandomHitPayload) : checked (exec RandomHitPayload) :=
  add_candidate (bil_material rec)
    (fun _ =>
       let uv := patch_attributes st in
       Passed (Ret (SubsurfaceInteraction_of
                      (getBilinearPatchIntersection rec st uv)))) p.

(** Lines 677-700 *)
Definition __anyhit__randomHitQuadric (rec : QuadricRecord)
  (st : ProgramState) (p : RandomHitPayload) : checked (exec RandomHitPayload) :=
  add_candidate (quad_material rec)
    (fun _ =>
       let qi := quadric_attributes st in
       match getQuadricIntersection rec st qi with
       | AssertionFailed => AssertionFailed
       | Passed intr => Passed (Ret (SubsurfaceInteraction_of intr))
       end) p.

(** The any-hit program of a candidate. *)
Definition anyhit_randomHit (c : Candidate) (p : RandomHitPayload)
  : checked (exec RandomHitPayload) :=
  match c with
  | OnTriangle rec st => __anyhit__randomHitTriangle rec st p
  | OnBilinearPatch rec st => __anyhit__randomHitBilinearPatch rec st p
  | OnQuadric rec st => __anyhit__randomHitQuadric rec st p
  end.

(** Line 625: the traversal.  Every any-hit program ignores its candidate,
    so no hit is ever accepted and every candidate is visited. *)
Fixpoint randomHit_Trace (cs : list Candidate) (p : RandomHitPayload)
  : checked (exec RandomHitPayload) :=
  match cs with
  | [] => Passed (Ret p)
  | c :: rest =>
      match anyhit_randomHit c p with
      | Passed (Ret p) => randomHit_Trace rest p
      | other => other
      end
  end.

(** [queue->weight[index] = w] and [queue->ssi[index] = s] *)
Fixpoint set_weight (index : nat) (w : Float)
  (l : list SubsurfaceScatterWorkItem) : list SubsurfaceScatterWorkItem :=
  match l, index with
  | [], _ => []
  | s :: t, O =>
      mkSubsurfaceScatterWorkItem (ss_p0 s) (ss_p1 s) (ss_material s) w
        (ss_ssi s) :: t
  | s :: t, S k => s :: set_weight k w t
  end.

Fixpoint set_ssi (index : nat) (i : SubsurfaceInteraction)
  (l : list SubsurfaceScatterWorkItem) : list SubsurfaceScatterWorkItem :=
  match l, index with
  | [], _ => []
  | s :: t, O =>
      mkSubsurfaceScatterWorkItem (ss_p0 s) (ss_p1 s) (ss_material s)
        (ss_weight s) i :: t
  | s :: t, S k => s :: set_ssi k i t
  end.

(** Lines 609-641 *)
Definition __raygen__randomHit (index : Z)
  (subsurfaceScatterQueue : list SubsurfaceScatterWorkItem)
  : checked (exec (list SubsurfaceScatterWorkItem)) :=
  match slot subsurfaceScatterQueue index with
  | None => Passed (Ret subsurfaceScatterQueue)
  | Some s =>
      let ray := mkRay (ss_p0 s) (Vec.sub (ss_p1 s) (ss_p0 s)) F32.zero nullptr in
      let tMax := F32.one in
      let payload :=
        mkRandomHitPayload
          (WRS_Seed (Hash_Point3f_Point3f (ss_p0 s) (ss_p1 s)) WRS_new)
          (ss_material s) in
      match randomHit_Trace (randomHit_candidates ray F32.zero tMax) payload with
      | Passed (Ret payload) =>
          if WRS_HasSample (wrs payload)
             && (F32.zero <? WRS_WeightSum (wrs payload))%f32
          then
            Passed
              (Ret (set_ssi (Z.to_nat index) (WRS_GetSample (wrs payload))
                      (set_weight (Z.to_nat index) (WRS_WeightSum (wrs payload))
                         subsurfaceScatterQueue)))
          else
            Passed (Ret (set_weight (Z.to_nat index) F32.zero
                           subsurfaceScatterQueue))
      | Passed (Fault f) => Passed (Fault f)
      | Passed OutOfFuel => Passed OutOfFuel
      | AssertionFailed => AssertionFailed
      end
  end.

End HitPrograms.

(** ** optix.cu: the closest-hit launch as a whole

    [Trace] at line 117 runs the traversal and, inside it, the closest-hit
    program of the primitive that is hit, with the payload registers
    pointing at the context; on a miss the miss program sets [missed].
    What the traversal finds is not in the source: [closest] gives the
    accepted hit nearest to the origin, as the record of its primitive and
    the state its closest-hit program is called in. *)

Definition Closest : Type := Ray -> Float -> Float -> option Candidate.

(** [a[i]] for the list of area lights of a mesh, read only when the list
    is not empty: whether the read is within the list. *)
Definition light_in_range (areaLights : list LightHandle) (i : Z) : bool :=
  match areaLights with
  | [] => true
  | _ => match slot areaLights i with Some _ => true | None => false end
  end.

(** Whether the closest-hit program of a candidate gets as far as
    [ProcessClosestIntersection]: a triangle needs an intersection and a
    quadric one of the three shapes; a mesh with area lights needs one at
    the index of the primitive. *)
Definition reaches_dispatch {G : Shapes} (c : Candidate) : bool :=
  match c with
  | OnTriangle rec st =>
      match getTriangleIntersection rec st with
      | Passed (Some _) =>
          light_in_range (tri_areaLights rec) (optixGetPrimitiveIndex st)
      | _ => false
      end
  | OnBilinearPatch rec st =>
      light_in_range (bil_areaLights rec) (optixGetPrimitiveIndex st)
  | OnQuadric rec st =>
      match quad_shape rec with
      | ShapeOther _ => false
      | _ => true
      end
  end.

Section Launch.

Context {E : Externals} {G : Shapes}.
Variable closest : Closest.

(** The closest-hit program of a candidate. *)
Definition closesthit (c : Candidate) (rayQueue : list RayWorkItem)
  (rayIndex : Z) (ctx : ClosestHitContext) (q : Queues)
  : checked (exec (ClosestHitContext * Queues)) :=
  match c with
  | OnTriangle rec st => __closesthit__triangle rec st rayQueue rayIndex ctx q
  | OnBilinearPatch rec st =>
      Passed (__closesthit__bilinearPatch rec st rayQueue rayIndex ctx q)
  | OnQuadric rec st => __closesthit__quadric rec st rayQueue rayIndex ctx q
  end.

(** Lines 101-138 with the programs that run inside [Trace].
    [launchIndex] is [optixGetLaunchIndex().x], an unsigned 32-bit number,
    which the program converts to [int]; a negative [rayIndex] passes the
    guard and the read is out of range. *)
Definition findClosest_launch (rayQueue : list RayWorkItem) (launchIndex : Z)
  (q : Queues) : checked (exec Queues) :=
  let rayIndex := int32 launchIndex in
  if Z.of_nat (length rayQueue) <=? rayIndex then Passed (Ret q)
  else
    match slot rayQueue rayIndex with
    | None => Passed (Fault OutOfRange)
    | Some r =>
        let ray := r_ray r in
        let tMax := F32.big_tMax in
        let ctx := ClosestHitContext_new (medium ray) false in
        match closest ray F32.zero tMax with
        | Some c =>
            match closesthit c rayQueue rayIndex ctx q with
            | Passed (Ret (_, q)) => Passed (Ret q)
            | Passed (Fault f) => Passed (Fault f)
            | Passed OutOfFuel => Passed OutOfFuel
            | AssertionFailed => AssertionFailed
            end
        | None =>
            Passed
              (Ret
                 (if is_set (medium ray) then
                    let st :=
                      stale_MediumSample
                        (Z.of_nat (length (mediumSampleQueue q))) in
                    Q.with_mediumSample
                      (Q.Push
                         (mkMediumSampleWorkItem (r_ray r) F32.Infinity
                            (r_lambda r) (r_beta r) (r_pdfUni r) (r_pdfNEE r)
                            rayIndex (r_pixelIndex r) (r_piPrev r) (r_nPrev r)
                            (r_nsPrev r) (r_isSpecularBounce r)
                            (r_anyNonSpecularBounces r) (r_etaScale r)
                            (ms_areaLight st) (ms_pi st) (ms_n st) (ms_wo st)
                            (ms_uv st) (ms_material st) (ms_ns st)
                            (ms_dpdus st) (ms_dpdvs st) (ms_dndus st)
                            (ms_dndvs st) (ms_mediumInterface st))) q
                  else
                    Q.with_escaped
                      (Q.Push
                         (mkEscapedRayWorkItem (r_beta r) (r_pdfUni r)
                            (r_pdfNEE r) (r_lambda r) (o ray) (d ray)
                            (r_piPrev r) (r_nPrev r) (r_nsPrev r)
                            (Z.b2z (r_isSpecularBounce r)) (r_pixelIndex r)))
                      q))
        end
    end.

End Launch.

(** Whether the any-hit program of a candidate finds the material [m] in
    its record. *)
Definition same_material (m : MaterialHandle) (c : Candidate) : bool :=
  match c with
  | OnTriangle rec _ => tri_material rec =? m
  | OnBilinearPatch rec _ => bil_material rec =? m
  | OnQuadric rec _ => quad_material rec =? m
  end.

(** ** Test shapes

    One instance of the shapes, for evaluating the hit programs. *)

Module Gallery.

Definition wall : SurfaceInteraction := Scene.surface Scene.light_point 0 0.

(** A sampler that keeps the first sample it is offered. *)
Definition keep_first (func : unit -> checked (exec SubsurfaceInteraction))
  (weight : Float) (w : Float * option SubsurfaceInteraction)
  : checked (exec (Float * option SubsurfaceInteraction)) :=
  match snd w with
  | Some _ => Passed (Ret (F32.add (fst w) weight, snd w))
  | None =>
      match func tt with
      | Passed (Ret s) => Passed (Ret (F32.add (fst w) weight, Some s))
      | Passed (Fault f) => Passed (Fault f)
      | Passed OutOfFuel => Passed OutOfFuel
      | AssertionFailed => AssertionFailed
      end
  end.

Definition state (prim : Z) : ProgramState :=
  mkProgramState prim (mkPoint2f Scene.quarter Scene.quarter) Scene.up
    Vec.zero3 Scene.up F32.zero F32.one 1 [] [] 0 0 0 0.

(** Triangles of one mesh with material 3: with no alpha texture, with a
    texture that is zero everywhere, with one that is one everywhere. *)
Definition triangles (alphaTexture : FloatTextureHandle)
  (areaLights : list LightHandle) : TriangleMeshRecord :=
  mkTriangleMeshRecord 1 3 alphaTexture areaLights None.

Definition quadric (shape : ShapeHandle) (alphaTexture : FloatTextureHandle)
  : QuadricRecord :=
  mkQuadricRecord shape 3 alphaTexture 0 None.

Definition patches (n : nat) : BilinearMeshRecord :=
  mkBilinearMeshRecord
    (mkBilinearPatchMesh [Vec.zero3; Scene.up; Scene.light_point; Scene.up]
       (concat (repeat [0; 1; 2; 3] n)))
    3 0 [] None.

(** Primitive 7 of every mesh is degenerate; texture 1 is zero everywhere
    and every other texture is one; material 9 is transparent.  A segment
    from the origin meets a triangle of material 3, a patch of material 4
    and a sphere of material 3. *)
Definition shapes : Shapes := {|
  Triangle_InteractionFromIntersection :=
    fun _ prim _ _ _ _ => if prim =? 7 then None else Some wall;
  Sphere_BasicIntersect :=
    fun _ ray _ => Some (mkQuadricIntersection F32.one (o ray) F32.zero);
  Cylinder_BasicIntersect := fun _ _ _ => None;
  Disk_BasicIntersect :=
    fun _ ray _ => Some (mkQuadricIntersection Scene.half (o ray) F32.zero);
  Sphere_InteractionFromIntersection := fun _ _ _ _ => wall;
  Cylinder_InteractionFromIntersection := fun _ _ _ _ => wall;
  Disk_InteractionFromIntersection := fun _ _ _ _ => wall;
  BilinearPatch_Intersect :=
    fun _ _ _ _ _ _ =>
      Some (mkBilinearIntersection (mkPoint2f Scene.half Scene.half) F32.one);
  BilinearPatch_InteractionFromIntersection := fun _ _ _ _ _ => wall;
  BasicTextureEvaluator_eval :=
    fun texture _ => if texture =? 1 then F32.zero else F32.one;
  IsTransparent := fun m => m =? 9;
  IsMediumTransition := fun mi => negb (inside mi =? outside mi);
  FloatToBits := Scene.hash_float;
  BitsToFloat := fun _ => F32.zero;
  uninitialized_Float := F32.zero;
  uninitialized_SurfaceInteraction := wall;
  Hash_Point3f_Point3f := fun a b => Scene.hash_tuple a + Scene.hash_tuple b;
  WeightedReservoirSampler := Float * option SubsurfaceInteraction;
  WRS_new := (F32.zero, None);
  WRS_Seed := fun _ w => w;
  WRS_Add := keep_first;
  WRS_HasSample := fun w => F32.ltb F32.zero (fst w);
  WRS_WeightSum := fst;
  WRS_GetSample :=
    fun w => match snd w with
             | Some s => s
             | None => SubsurfaceInteraction_of wall
             end;
  randomHit_candidates :=
    fun ray _ _ =>
      if Vec.eqb (o ray) Vec.zero3 then
        [OnTriangle (triangles 0 []) (state 0);
         OnBilinearPatch (mkBilinearMeshRecord (bil_mesh (patches 1)) 4 0 [] None)
           (state 0);
         OnQuadric (quadric (ShapeSphere 1) 0) (state 0)]
      else []
|}.

(** What the traversal of the closest-hit launch finds: a ray from the
    origin meets triangle 0 of a mesh whose area light is 5, a ray from two
    along the first axis meets the degenerate triangle, a ray from four
    meets triangle 3 of the mesh, which has one area light only, and every
    other ray misses. *)
Definition nearest : Closest :=
  fun ray _ _ =>
    if Vec.eqb (o ray) Vec.zero3
    then Some (OnTriangle (triangles 0 [5]) (state 0))
    else if Vec.eqb (o ray) (mkTuple3 Scene.two F32.zero F32.zero)
    then Some (OnTriangle (triangles 0 []) (state 7))
    else if Vec.eqb (o ray) (mkTuple3 F32.four F32.zero F32.zero)
    then Some (OnTriangle (triangles 0 [5]) (state 3))
    else None.

(** A subsurface segment from the origin and one from the light point,
    both of material 3. *)
Definition segments : list SubsurfaceScatterWorkItem :=
  [mkSubsurfaceScatterWorkItem Vec.zero3 Scene.up 3 Scene.half
     (SubsurfaceInteraction_of (Scene.surface Vec.zero3 0 0));
   mkSubsurfaceScatterWorkItem Scene.light_point Scene.up 3 Scene.half
     (SubsurfaceInteraction_of (Scene.surface Vec.zero3 0 0))].

End Gallery.

(** ** Facts of binary32 arithmetic *)

Module FloatFacts.
Import F32.

(** Multiplication of two binary32 values does not depend on the order of
    the operands. *)
Lemma mul_comm (a b : Float) : F32.mul a b = F32.mul b a.
Proof.
  destruct a as [sa|sa| |sa ma ea], b as [sb|sb| |sb mb eb]; cbn;
    rewrite ?(xorb_comm sa sb), ?(Pos.mul_comm ma mb), ?(Z.add_comm ea eb);
    reflexivity.
Qed.





Lemma shr_shift (mrs : shr_record) (e n n' : Z) :
  (0 < n -> n' = n) -> (n <= 0 -> n' <= 0) ->
  shr mrs (e - 24) n' = (fst (shr mrs e n), snd (shr mrs e n) - 24).
Proof.
  intros Hp Hn. destruct n as [|p|p], n' as [|p'|p']; cbn [shr fst snd];
    try reflexivity; try (exfalso; lia).
  - assert (H : Zpos p' = Zpos p) by (apply Hp; lia). inversion H; subst.
    f_equal. lia.
Qed.

Lemma shr_exp_le (mrs : shr_record) (e n : Z) : e <= snd (shr mrs e n).
Proof. destruct n; cbn; lia. Qed.

Lemma shr_fexp_shift (m e : Z) (l : location) :
  emin prec emax + 24 <= e ->
  shr_fexp prec emax m (e - 24) l
  = (fst (shr_fexp prec emax m e l), snd (shr_fexp prec emax m e l) - 24).
Proof.
  intros He. unfold shr_fexp. apply shr_shift; unfold fexp, emin, prec, emax in *; lia.
Qed.

Lemma shr_fexp_exp_le (m e : Z) (l : location) :
  e <= snd (shr_fexp prec emax m e l).
Proof. unfold shr_fexp. apply shr_exp_le. Qed.

Lemma round_aux_shift (s : bool) (m e : Z) (l : location) :
  emin prec emax + 24 <= e ->
  not_inf (binary_round_aux prec emax s m e l) = true ->
  binary_round_aux prec emax s m (e - 24) l
  = scale24 (binary_round_aux prec emax s m e l).
Proof.
  intros He. unfold binary_round_aux.
  rewrite (shr_fexp_shift m e l He).
  pose proof (shr_fexp_exp_le m e l) as Hle.
  destruct (shr_fexp prec emax m e l) as [mrs' e']. cbn [fst snd] in *.
  rewrite shr_fexp_shift by lia.
  destruct (shr_fexp prec emax _ e' loc_Exact) as [mrs'' e'']. cbn [fst snd].
  destruct (shr_m mrs'') as [|p|p]; try reflexivity.
  destruct (e'' <=? emax - prec) eqn:Hb; [|discriminate].
  intros _. assert (Hb' : (e'' - 24 <=? emax - prec) = true) by lia.
  rewrite Hb'. reflexivity.
Qed.


Lemma round_shift (s : bool) (m : positive) (e : Z) :
  -96 <= e ->
  not_inf (binary_round prec emax s m e) = true ->
  binary_round prec emax s m (e - 24) = scale24 (binary_round prec emax s m e).
Proof.
  intros He. unfold binary_round, shl_align.
  assert (Hd : 0 < Zpos (digits2_pos m)) by lia.
  replace (fexp prec emax (Zpos (digits2_pos m) + (e - 24)) - (e - 24))
    with (fexp prec emax (Zpos (digits2_pos m) + e) - e)
    by (unfold fexp, emin, prec, emax; lia).
  destruct (fexp prec emax (Zpos (digits2_pos m) + e) - e) as [|k|k] eqn:Hk.
  - apply round_aux_shift. unfold emin, prec, emax; lia.
  - apply round_aux_shift. unfold emin, prec, emax; lia.
  - replace (fexp prec emax (Zpos (digits2_pos m) + (e - 24)))
      with (fexp prec emax (Zpos (digits2_pos m) + e) - 24)
      by (unfold fexp, emin, prec, emax in *; lia).
    apply round_aux_shift. unfold fexp, emin, prec, emax in *; lia.
Qed.

Lemma normalize_shift (m e : Z) :
  -96 <= e ->
  not_inf (binary_normalize prec emax m e false) = true ->
  binary_normalize prec emax m (e - 24) false
  = scale24 (binary_normalize prec emax m e false).
Proof.
  intros He. destruct m; cbn [binary_normalize]; try reflexivity;
    apply round_shift; assumption.
Qed.

Lemma shl_align_shift (m : positive) (e e' : Z) :
  fst (shl_align m (e - 24) (e' - 24)) = fst (shl_align m e e').
Proof.
  unfold shl_align. replace (e' - 24 - (e - 24)) with (e' - e) by lia.
  destruct (e' - e); reflexivity.
Qed.

Lemma add_shift (a b : Float) :
  fits a = true -> fits b = true ->
  not_inf (add a b) = true ->
  add (scale24 a) (scale24 b) = scale24 (add a b).
Proof.
  destruct a as [sa|sa| |sa ma ea], b as [sb|sb| |sb mb eb];
    cbn [fits scale24]; try discriminate; intros Ha Hb.
  - destruct sa, sb; reflexivity.
  - reflexivity.
  - reflexivity.
  - unfold add, SFadd. rewrite Z.sub_min_distr_r, !shl_align_shift.
    apply normalize_shift. lia.
Qed.

Lemma div_four_shift (a : Float) :
  fits a = true ->
  not_inf (div a four) = true ->
  div (scale24 a) four = scale24 (div a four).
Proof.
  destruct a as [sa|sa| |sa ma ea]; cbn [fits scale24]; try discriminate;
    intros Ha; [reflexivity|].
  unfold div, four, SFdiv, SFdiv_core_binary.
  assert (Hd : 0 < Zdigits2 (Zpos ma)) by (cbn; lia).
  set (d1 := Zdigits2 (Zpos ma)) in *.
  set (d2 := Zdigits2 8388608).
  assert (Hd2 : d2 = 24) by reflexivity.
  replace (Z.min (fexp prec emax (d1 + (ea - 24) - (d2 + -21))) (ea - 24 - -21))
    with (Z.min (fexp prec emax (d1 + ea - (d2 + -21))) (ea - -21) - 24)
    by (unfold fexp, emin, prec, emax; lia).
  set (e0 := Z.min (fexp prec emax (d1 + ea - (d2 + -21))) (ea - -21)).
  replace (ea - 24 - -21 - (e0 - 24)) with (ea - -21 - e0) by lia.
  destruct (Z.div_eucl _ 8388608) as [q r].
  apply round_aux_shift. unfold e0, fexp, emin, prec, emax; lia.
Qed.

Lemma div_scaled (a b : Float) :
  not_inf a = true -> not_inf b = true ->
  div (scale24 a) (scale24 b) = div a b.
Proof.
  destruct a as [sa|sa| |sa ma ea], b as [sb|sb| |sb mb eb];
    cbn [not_inf scale24]; try discriminate; intros _ _; try reflexivity.
  unfold div, SFdiv, SFdiv_core_binary.
  replace (Zdigits2 (Zpos ma) + (ea - 24) - (Zdigits2 (Zpos mb) + (eb - 24)))
    with (Zdigits2 (Zpos ma) + ea - (Zdigits2 (Zpos mb) + eb)) by lia.
  replace (ea - 24 - (eb - 24)) with (ea - eb) by lia.
  reflexivity.
Qed.

Lemma valid_normal (m : positive) (e : Z) :
  bounded prec emax m e = true -> -96 <= e ->
  digits2_pos m = 24%positive /\ e <= 104.
Proof.
  unfold bounded, canonical_mantissa, fexp, emin, prec, emax. intros H He.
  apply andb_prop in H. destruct H as [H1 H2].
  split; [|lia]. apply Z.eqb_eq in H1. lia.
Qed.

Lemma digits2_shift23 (m : positive) :
  digits2_pos (m * 8388608) = (digits2_pos m + 23)%positive.
Proof. rewrite Pos.mul_comm. cbn. lia. Qed.

Lemma mul_inv_two24 (a : Float) :
  valid a = true -> fits a = true ->
  mul a inv_two24 = scale24 a.
Proof.
  destruct a as [sa|sa| |sa ma ea]; cbn [fits scale24 valid valid_binary];
    try discriminate; intros Hv Ha; [destruct sa; reflexivity|].
  apply Z.leb_le in Ha. destruct (valid_normal _ _ Hv Ha) as [Hd He].
  change inv_two24 with (S754_finite false 8388608 (-47)).
  unfold mul, SFmul, binary_round_aux, shr_fexp.
  rewrite xorb_false_r.
  cbn [Zdigits2 shr_record_of_loc]. rewrite digits2_shift23, Hd.
  replace (fexp prec emax (Zpos (24 + 23) + (ea + -47)) - (ea + -47)) with 23
    by (unfold fexp, emin, prec, emax; lia).
  rewrite Pos.mul_comm. cbn [shr Pos.mul iter_pos shr_1 orb shr_m loc_of_shr_record
    round_nearest_even fst snd Zdigits2].
  rewrite Hd.
  replace (fexp prec emax (24 + (ea + -47 + 23)) - (ea + -47 + 23)) with 0
    by (unfold fexp, emin, prec, emax; lia).
  cbn [shr shr_m].
  replace (ea + -47 + 23 <=? emax - prec) with true
    by (symmetry; unfold prec, emax; lia).
  f_equal. lia.
Qed.



Lemma shr_1_digits (mrs : shr_record) :
  0 < shr_m mrs ->
  Zdigits2 (shr_m (shr_1 mrs)) = Zdigits2 (shr_m mrs) - 1
  /\ 0 <= shr_m (shr_1 mrs).
Proof.
  destruct mrs as [m r s]. cbn [shr_m]. intros Hm.
  destruct m as [|[p|p|]|p]; try lia;
    cbn [shr_1 shr_m Zdigits2 digits2_pos]; rewrite ?Pos2Z.inj_succ; split; lia.
Qed.

Lemma digits_pos_iff (m : Z) : 0 <= m -> (0 < Zdigits2 m <-> 0 < m).
Proof. destruct m; cbn; lia. Qed.

Lemma iter_shr_1_digits (n : positive) : forall mrs : shr_record,
  0 <= shr_m mrs -> Zpos n <= Zdigits2 (shr_m mrs) ->
  Zdigits2 (shr_m (iter_pos shr_1 n mrs)) = Zdigits2 (shr_m mrs) - Zpos n
  /\ 0 <= shr_m (iter_pos shr_1 n mrs).
Proof.
  induction n as [n IH|n IH|]; intros mrs H0 Hn; cbn [iter_pos].
  - assert (Hpos : 0 < shr_m mrs) by (apply digits_pos_iff; lia).
    destruct (shr_1_digits mrs Hpos) as [E1 P1].
    destruct (IH (shr_1 mrs) P1) as [E2 P2]; [lia|].
    destruct (IH (iter_pos shr_1 n (shr_1 mrs)) P2) as [E3 P3]; [lia|].
    split; [lia|exact P3].
  - destruct (IH mrs H0) as [E2 P2]; [lia|].
    destruct (IH (iter_pos shr_1 n mrs) P2) as [E3 P3]; [lia|].
    split; [lia|exact P3].
  - assert (Hpos : 0 < shr_m mrs) by (apply digits_pos_iff; lia).
    apply shr_1_digits; assumption.
Qed.

Lemma shr_record_of_loc_m (m : Z) (l : location) :
  shr_m (shr_record_of_loc m l) = m.
Proof. destruct l as [|[]]; reflexivity. Qed.

Lemma shr_fexp_pos (m e : Z) (l : location) :
  0 < m -> emin prec emax <= e ->
  0 < shr_m (fst (shr_fexp prec emax m e l)).
Proof.
  intros Hm He. unfold shr_fexp, shr.
  assert (Hd : 0 < Zdigits2 m) by (apply digits_pos_iff; lia).
  destruct (fexp prec emax (Zdigits2 m + e) - e) as [|n|n] eqn:Hn;
    cbn [fst]; rewrite ?shr_record_of_loc_m; try assumption.
  destruct (iter_shr_1_digits n (shr_record_of_loc m l)) as [E P];
    rewrite ?shr_record_of_loc_m; try lia.
  { unfold fexp, emin, prec, emax in *. lia. }
  rewrite shr_record_of_loc_m in E.
  apply digits_pos_iff; [exact P|].
  unfold fexp, emin, prec, emax in *. lia.
Qed.

Lemma round_nearest_even_le (m : Z) (l : location) :
  m <= round_nearest_even m l.
Proof. destruct l as [|[]]; cbn; try lia. destruct (Z.even m); lia. Qed.

Lemma round_aux_positive (m e : Z) (l : location) :
  0 < m -> emin prec emax <= e ->
  positive_value (binary_round_aux prec emax false m e l) = true.
Proof.
  intros Hm He. unfold binary_round_aux.
  pose proof (shr_fexp_pos m e l Hm He) as H1.
  pose proof (shr_fexp_exp_le m e l) as Hle.
  destruct (shr_fexp prec emax m e l) as [mrs' e']. cbn [fst snd] in *.
  pose proof (round_nearest_even_le (shr_m mrs') (loc_of_shr_record mrs')) as Hr.
  set (m1 := round_nearest_even (shr_m mrs') (loc_of_shr_record mrs')) in *.
  assert (H2 : 0 < shr_m (fst (shr_fexp prec emax m1 e' loc_Exact)))
    by (apply shr_fexp_pos; lia).
  destruct (shr_fexp prec emax m1 e' loc_Exact) as [mrs'' e'']. cbn [fst] in H2.
  destruct (shr_m mrs''); try lia.
  destruct (e'' <=? emax - prec); reflexivity.
Qed.

Lemma normalize_positive (m e : Z) :
  0 < m -> emin prec emax <= e ->
  positive_value (binary_normalize prec emax m e false) = true.
Proof.
  intros Hm He. destruct m as [|p|p]; try lia.
  cbn [binary_normalize]. unfold binary_round, shl_align.
  destruct (fexp prec emax (Zpos (digits2_pos p) + e) - e) eqn:Hk;
    apply round_aux_positive; try lia.
  unfold fexp, emin, prec, emax in *. lia.
Qed.

Lemma digits2_bound (m : positive) : Zpos m < 2 ^ Zpos (digits2_pos m).
Proof.
  induction m as [m IH|m IH|]; cbn [digits2_pos];
    rewrite ?Pos2Z.inj_succ, ?Z.pow_succ_r by lia; lia.
Qed.

Lemma iter_xO_double (k x : positive) : (2 * x <= Pos.iter xO x k)%positive.
Proof.
  induction k as [|k IH] using Pos.peano_ind.
  - cbn. lia.
  - rewrite Pos.iter_succ. lia.
Qed.

Lemma valid_exponent (m : positive) (e : Z) :
  bounded prec emax m e = true ->
  emin prec emax <= e /\ Zpos (digits2_pos m) <= 24.
Proof.
  unfold bounded, canonical_mantissa, fexp, emin, prec, emax. intros H.
  apply andb_prop in H. destruct H as [H1 _]. apply Z.eqb_eq in H1. lia.
Qed.

(** Below one, the difference from one is positive: the clamp at zero of
    the roulette probability never bites. *)



(** Below one, the difference from one is positive: the clamp at zero of
    the roulette probability never bites. *)
Lemma one_minus_positive (a : Float) :
  valid a = true -> ltb a one = true ->
  positive_value (sub one a) = true.
Proof.
  destruct a as [sa|[]| |sa ma ea]; cbn [valid valid_binary];
    try discriminate; try reflexivity.
  intros Hv Hlt. destruct (valid_exponent ma ea Hv) as [Hmin Hdig].
  unfold sub, one, SFsub.
  apply normalize_positive; [|unfold emin, prec, emax in *; lia].
  destruct sa.
  - cbn [cond_Zopp]. lia.
  - cbn [cond_Zopp].
    unfold ltb, SFltb, one, SFcompare in Hlt.
    destruct (ea ?= -23) eqn:Hc; try discriminate.
    + apply Z.compare_eq in Hc. subst ea.
      rewrite Z.min_id. unfold shl_align.
      replace (-23 - -23) with 0 by reflexivity. cbn [fst].
      destruct (Pos.compare_cont Eq ma 8388608) eqn:Hm; try discriminate.
      change (Pos.compare_cont Eq ma 8388608) with (Pos.compare ma 8388608) in Hm.
      rewrite Pos.compare_lt_iff in Hm. lia.
    + rewrite Z.compare_lt_iff in Hc.
      rewrite Z.min_r by lia. unfold shl_align.
      replace (ea - ea) with 0 by lia. cbn [fst].
      destruct (ea - -23) as [|k|k] eqn:Hk; try lia. cbn [fst].
      pose proof (iter_xO_double k 8388608) as Hd.
      pose proof (digits2_bound ma) as Hb.
      assert (2 ^ Zpos (digits2_pos ma) <= 2 ^ 24)
        by (apply Z.pow_le_mono_r; lia).
      lia.
Qed.

Lemma max_zero_positive (a : Float) :
  positive_value a = true -> F32.max zero a = a.
Proof. unfold positive_value, F32.max. intros ->. reflexivity. Qed.



End FloatFacts.


(** ** The rescale keeps the quotient when nothing underflows *)

Lemma fits_not_inf (a : Float) : fits a = true -> not_inf a = true.
Proof. destruct a; cbn; congruence. Qed.

Lemma inv_two24_value : F32.inv_two24 = S754_finite false 8388608 (-47).
Proof. reflexivity. Qed.

Lemma rescale_quotient (b u : SampledSpectrum) :
  rescale_exact b u = true ->
  quotient (rescale b) (rescale u) = quotient b u.
Proof.
  destruct b as [b0 b1 b2 b3], u as [u0 u1 u2 u3].
  unfold rescale_exact, Sp_all. cbn [c0 c1 c2 c3].
  intros H.
  repeat match type of H with
         | (_ && _) = true => apply andb_prop in H; destruct H as [H ?]
         end.
  repeat match goal with
         | H : (_ && _) = true |- _ => apply andb_prop in H; destruct H
         end.
  unfold quotient, rescale, Sp.scale, Sp.divf, Sp.Average, Sp.map.
  cbn [c0 c1 c2 c3].
  rewrite !FloatFacts.mul_inv_two24 by assumption.
  rewrite (FloatFacts.add_shift u0 u1) by auto using fits_not_inf.
  rewrite (FloatFacts.add_shift _ u2) by auto using fits_not_inf.
  rewrite (FloatFacts.add_shift _ u3) by auto using fits_not_inf.
  rewrite FloatFacts.div_four_shift by auto using fits_not_inf.
  rewrite !FloatFacts.div_scaled by auto using fits_not_inf.
  reflexivity.
Qed.

(** ** The medium-sample kernel *)

Section MediumSampleFacts.

Context {E : Externals}.
Variable maxDepth : Z.

(** What a traversal establishes: an invariant kept by every call that
    asks for more, and a conclusion reached by the call that stops it or
    by the medium when it returns on its own. *)
Lemma SampleTmaj_loop_rule {S : Type}
  (callback : MediumSample -> S -> RNG -> exec (bool * S * RNG))
  (Inv Post : S -> Prop) :
  (forall sample s rng s' rng',
      Inv s -> callback sample s rng = Ret (true, s', rng') -> Inv s') ->
  (forall sample s rng s' rng',
      Inv s -> callback sample s rng = Ret (false, s', rng') -> Post s') ->
  (forall s, Inv s -> Post s) ->
  forall fuel ts rng s s' rng',
    Inv s -> SampleTmaj_loop fuel ts rng callback s = Ret (s', rng') -> Post s'.
Proof.
  intros Hmore Hstop Hend. induction fuel as [|fuel IH]; intros ts rng s s' rng' Hs.
  - discriminate.
  - cbn [SampleTmaj_loop].
    destruct (SampleTmaj_next ts rng) as [[[sample ts'] rng1]|].
    + destruct (callback sample s rng1) as [[[[] s1] rng2]| |] eqn:Hc;
        cbn [bind]; try discriminate.
      * apply IH. eapply Hmore; eassumption.
      * intros H. inversion H; subst. eapply Hstop; eassumption.
    + intros H. inversion H; subst. auto.
Qed.

(** Fuel is only fuel: a traversal that ends with some fuel ends the same
    way with more. *)
Lemma SampleTmaj_loop_more_fuel {S : Type}
  (callback : MediumSample -> S -> RNG -> exec (bool * S * RNG)) :
  forall (fuel fuel' : nat) ts rng s r,
    (fuel <= fuel')%nat ->
    SampleTmaj_loop fuel ts rng callback s = Ret r ->
    SampleTmaj_loop fuel' ts rng callback s = Ret r.
Proof.
  induction fuel as [|fuel IH]; intros fuel' ts rng s r Hle; [discriminate|].
  destruct fuel' as [|fuel']; [inversion Hle|].
  cbn [SampleTmaj_loop].
  destruct (SampleTmaj_next ts rng) as [[[sample ts'] rng1]|]; [|auto].
  destruct (callback sample s rng1) as [[[[] s1] rng2]| |]; cbn [bind];
    try discriminate; auto.
  apply IH. apply le_S_n. exact Hle.
Qed.

(** The callback at a collision, by the index that [SampleDiscrete]
    returns. *)
Lemma callback_collision (depth : Z) (ms : MediumSampleWorkItem)
  (sample : MediumSample) (i : MediumInteraction) (st : PathState) (rng : RNG) :
  intr sample = Some i ->
  medium_callback maxDepth depth ms sample st rng
  = let um := fst (Uniform rng) in
    let rng' := snd (Uniform rng) in
    let L := add_Le maxDepth depth st i in
    let seen o := visits st ++ [mkVisit sample o] in
    let mode := SampleDiscrete (probabilities i) um in
    if mode =? 0 then
      Ret (false,
           mkPathState (Sp.const F32.zero) (pdfUni st) (pdfNEE st) L
             (scattered st) (scatterQ st) (seen Absorbed), rng')
    else if mode =? 1 then
      match CastOrNullptr_HG (phase i) with
      | None => Fault NullDereference
      | Some hg =>
          let beta := (beta st * (Tmaj sample * sigma_s i))%sp in
          let pdfUni := (pdfUni st * (Tmaj sample * sigma_s i))%sp in
          Ret (false,
               mkPathState beta pdfUni (pdfNEE st) L true
                 (Q.Push
                    (mkMediumScatterWorkItem (mi_p i) (ms_lambda ms) beta pdfUni
                       (ms_rayIndex ms) hg (Vec.neg (d (ms_ray ms)))
                       (ms_etaScale ms) (medium (ms_ray ms)) (ms_pixelIndex ms))
                    (scatterQ st))
                 (seen Scattered), rng')
      end
    else
      let r := null_scatter (beta st) (pdfUni st) (pdfNEE st) (Tmaj sample) i in
      Ret (true,
           mkPathState (fst (fst r)) (snd (fst r)) (snd r) L (scattered st)
             (scatterQ st) (seen NullScattered), rng').
Proof.
  intros Hi. unfold medium_callback. rewrite Hi.
  destruct (Uniform rng) as [um rng']. cbn [fst snd].
  destruct (_ =? 0); [reflexivity|].
  destruct (_ =? 1); [reflexivity|].
  destruct (null_scatter _ _ _ _ _) as [[b u] n]. reflexivity.
Qed.

(** X20.  At a null collision the callback multiplies [beta] and [pdfUni] by
    [Tmaj * sigma_n] and [pdfNEE] by [Tmaj * sigma_maj] and returns [true],
    so the sampling goes on.  When the largest component of one of the
    three products exceeds [2^24] all three are multiplied by [1 / 2^24],
    which is the binary32 number [2^-24], in that same call.  A condition
    under which the quotient [beta / pdfUni.Average()] is the same after
    the rescale as before it: every component of the two products, every
    running sum of the average and the average itself is zero or finite
    with an exponent of at least [-96]. *)
Theorem null_collision_rescale (depth : Z) (ms : MediumSampleWorkItem)
  (sample : MediumSample) (i : MediumInteraction) (st : PathState) (rng : RNG) :
  intr sample = Some i ->
  SampleDiscrete (probabilities i) (fst (Uniform rng)) <> 0 ->
  SampleDiscrete (probabilities i) (fst (Uniform rng)) <> 1 ->
  let b := (beta st * (Tmaj sample * sigma_n i))%sp in
  let u := (pdfUni st * (Tmaj sample * sigma_n i))%sp in
  let n := (pdfNEE st * (Tmaj sample * sigma_maj i))%sp in
  F32.inv_two24 = S754_finite false 8388608 (-47)
  /\ exists st',
      medium_callback maxDepth depth ms sample st rng
      = Ret (true, st', snd (Uniform rng))
      /\ (too_large b u n = false ->
          beta st' = b /\ pdfUni st' = u /\ pdfNEE st' = n)
      /\ (too_large b u n = true ->
          beta st' = (b *: F32.inv_two24)%sp
          /\ pdfUni st' = (u *: F32.inv_two24)%sp
          /\ pdfNEE st' = (n *: F32.inv_two24)%sp)
      /\ (rescale_exact b u = true ->
          quotient (beta st') (pdfUni st') = quotient b u).
Proof.
  intros Hi H0 H1 b u n. split; [reflexivity|].
  rewrite (callback_collision depth ms sample i st rng Hi). cbv zeta.
  apply Z.eqb_neq in H0. apply Z.eqb_neq in H1. rewrite H0, H1.
  eexists. split; [reflexivity|]. cbn [beta pdfUni pdfNEE].
  unfold null_scatter. fold b u n.
  destruct (too_large b u n); cbn [fst snd]; repeat split;
    try discriminate; try reflexivity.
  - intros Hx. apply rescale_quotient. exact Hx.
Qed.

End MediumSampleFacts.

Lemma null_collision_rescale_witness :
  intr Scene.null_sample = Some Scene.null_intr
  /\ too_large
       (beta Scene.st_large * (Tmaj Scene.null_sample * sigma_n Scene.null_intr))%sp
       (pdfUni Scene.st_large * (Tmaj Scene.null_sample * sigma_n Scene.null_intr))%sp
       (pdfNEE Scene.st_large * (Tmaj Scene.null_sample * sigma_maj Scene.null_intr))%sp
     = true
  /\ exists st',
      medium_callback (E := Scene.env) 5 1 Scene.plain_item Scene.null_sample
        Scene.st_large 0
      = Ret (true, st', 1)
      /\ quotient (beta st') (pdfUni st')
         = quotient Scene.ones Scene.ones.
Proof.
  split; [reflexivity|]. split; [vm_compute; reflexivity|].
  destruct (null_collision_rescale (E := Scene.env) 5 1 Scene.plain_item
              Scene.null_sample Scene.null_intr Scene.st_large 0 eq_refl)
    as [_ [st' [Hc [_ [_ Hq]]]]].
  - vm_compute. discriminate.
  - vm_compute. discriminate.
  - exists st'. split; [exact Hc|]. apply Hq. vm_compute. reflexivity.
Defined.

(** C1 fails on the code, against the comment of lines 133-135 ("no
    precision is lost in the rescaling since we're dividing by a power of
    2").  The rescale is applied when [pdfNEE] alone exceeds [2^24]; the
    product with [2^-24] then rounds a small [beta] or [pdfUni] in the
    subnormal range.  With [beta] one unit in the last place above
    [pdfUni = 2^-117] the quotient [beta / pdfUni.Average()] is
    [1 + 2^-23] before the rescale and [1] after it; with both at
    [2^-130] the rescale flushes them to zero and the quotient, which was
    one, is no longer a number.  In both calls the callback has multiplied
    the three values as C1 says, rescaled them in the same call and
    returned [true]. *)
Lemma null_collision_rescale_inexact :
  let lost (st : PathState) (before after : SampledSpectrum) :=
    let b := (beta st * (Tmaj Scene.null_sample * sigma_n Scene.null_intr))%sp in
    let u := (pdfUni st
              * (Tmaj Scene.null_sample * sigma_n Scene.null_intr))%sp in
    let n := (pdfNEE st
              * (Tmaj Scene.null_sample * sigma_maj Scene.null_intr))%sp in
    exists st',
      medium_callback (E := Scene.env) 5 1 Scene.plain_item Scene.null_sample
        st 0
      = Ret (true, st', 1)
      /\ too_large b u n = true
      /\ beta st' = (b *: F32.inv_two24)%sp
      /\ pdfUni st' = (u *: F32.inv_two24)%sp
      /\ pdfNEE st' = (n *: F32.inv_two24)%sp
      /\ quotient b u = before
      /\ quotient (beta st') (pdfUni st') = after
      /\ quotient (beta st') (pdfUni st') <> quotient b u in
  lost Scene.st_odd (Sp.const (S754_finite false 8388609 (-23))) Scene.ones
  /\ lost Scene.st_tiny Scene.ones (Sp.const S754_nan).
Proof.
  cbv zeta. split.
  - eexists. split; [vm_compute; reflexivity|].
    split; [vm_compute; reflexivity|].
    split; [vm_compute; reflexivity|].
    split; [vm_compute; reflexivity|].
    split; [vm_compute; reflexivity|].
    split; [vm_compute; reflexivity|].
    split; [vm_compute; reflexivity|].
    vm_compute. discriminate.
  - eexists. split; [vm_compute; reflexivity|].
    split; [vm_compute; reflexivity|].
    split; [vm_compute; reflexivity|].
    split; [vm_compute; reflexivity|].
    split; [vm_compute; reflexivity|].
    split; [vm_compute; reflexivity|].
    split; [vm_compute; reflexivity|].
    vm_compute. discriminate.
Qed.

Section ScatterCast.

Context {E : Externals}.
Variable maxDepth : Z.

(** C9.  When [SampleDiscrete] picks scattering, the phase handle of the
    interaction is cast to the Henyey-Greenstein type and the result is
    dereferenced unchecked.  If the handle holds a Henyey-Greenstein
    function the call completes and the scatter item it pushes carries that
    function; for a handle of any other kind, null included, the cast is
    null and the dereference is the fault. *)
Theorem scatter_phase_cast (depth : Z) (ms : MediumSampleWorkItem)
  (sample : MediumSample) (i : MediumInteraction) (st : PathState) (rng : RNG) :
  intr sample = Some i ->
  SampleDiscrete (probabilities i) (fst (Uniform rng)) = 1 ->
  (forall hg, phase i = PhaseHG hg ->
     exists st' w,
       medium_callback maxDepth depth ms sample st rng
       = Ret (false, st', snd (Uniform rng))
       /\ scattered st' = true
       /\ scatterQ st' = scatterQ st ++ [w]
       /\ sc_phase w = hg)
  /\ ((forall hg, phase i <> PhaseHG hg) ->
      medium_callback maxDepth depth ms sample st rng = Fault NullDereference).
Proof.
  intros Hi Hmode.
  rewrite (callback_collision maxDepth depth ms sample i st rng Hi). cbv zeta.
  rewrite Hmode. cbn [Z.eqb Pos.eqb]. split.
  - intros hg Hp. rewrite Hp. cbn [CastOrNullptr_HG].
    eexists. eexists. split; [reflexivity|]. cbn [scattered scatterQ].
    split; [reflexivity|]. split; reflexivity.
  - intros Hn. destruct (phase i) as [|hg|tag]; cbn [CastOrNullptr_HG];
      try reflexivity. exfalso. exact (Hn hg eq_refl).
Qed.

End ScatterCast.

Lemma scatter_phase_cast_witness :
  (exists st' w,
      medium_callback (E := Scene.env) 5 1 Scene.plain_item
        (Scene.scatter_sample Scene.hg) Scene.st_fresh 1
      = Ret (false, st', 2)
      /\ scattered st' = true
      /\ scatterQ st' = [w]
      /\ sc_phase w = mkHG F32.zero)
  /\ medium_callback (E := Scene.env) 5 1 Scene.plain_item
       (Scene.scatter_sample (PhaseOther 2)) Scene.st_fresh 1
     = Fault NullDereference
  /\ medium_callback (E := Scene.env) 5 1 Scene.plain_item
       (Scene.scatter_sample PhaseNull) Scene.st_fresh 1
     = Fault NullDereference.
Proof.
  split; [|split].
  - refine (proj1 (scatter_phase_cast (E := Scene.env) 5 1 Scene.plain_item
                     (Scene.scatter_sample Scene.hg) (Scene.scatter_intr Scene.hg)
                     Scene.st_fresh 1 eq_refl _) (mkHG F32.zero) eq_refl).
    vm_compute. reflexivity.
  - refine (proj2 (scatter_phase_cast (E := Scene.env) 5 1 Scene.plain_item
                     (Scene.scatter_sample (PhaseOther 2))
                     (Scene.scatter_intr (PhaseOther 2))
                     Scene.st_fresh 1 eq_refl _) _).
    + vm_compute. reflexivity.
    + intros hg. discriminate.
  - refine (proj2 (scatter_phase_cast (E := Scene.env) 5 1 Scene.plain_item
                     (Scene.scatter_sample PhaseNull)
                     (Scene.scatter_intr PhaseNull)
                     Scene.st_fresh 1 eq_refl _) _).
    + vm_compute. reflexivity.
    + intros hg. discriminate.
Defined.

Section Routing.

Context {E : Externals}.
Variable maxDepth : Z.

Lemma ended_snoc (l : list Visit) (v : Visit) b u n l0 s sq :
  ended (mkPathState b u n l0 s sq (l ++ [v])) = Some (v_outcome v).
Proof. unfold ended. cbn [visits]. rewrite rev_unit. reflexivity. Qed.

(** Routing touches neither the pixels nor the medium queues. *)
Lemma route_frame (ms : MediumSampleWorkItem) (st : PathState) (q : Queues) :
  pixelSampleState_L (route ms st q) = pixelSampleState_L q
  /\ mediumScatterQueue (route ms st q) = mediumScatterQueue q
  /\ mediumSampleQueue (route ms st q) = mediumSampleQueue q
  /\ shadowRayQueue (route ms st q) = shadowRayQueue q
  /\ rayQueues0 (route ms st q) = rayQueues0 q
  /\ rayQueues1 (route ms st q) = rayQueues1 q.
Proof.
  unfold route.
  destruct (ms_tMax ms =? F32.Infinity)%f32, (is_set (ms_material ms)),
    (is_set (ms_areaLight ms)),
    (CanEvaluateTextures (ms_material ms)
     && (negb (is_set (GetDisplacement (ms_material ms)))
         || BasicCanEvaluate (GetDisplacement (ms_material ms))));
    cbn; repeat split; reflexivity.
Qed.







End Routing.


Section Absorption.

Context {E : Externals}.
Variable maxDepth : Z.

Lemma callback_no_interaction (depth : Z) (ms : MediumSampleWorkItem)
  (sample : MediumSample) (st : PathState) (rng : RNG) :
  intr sample = None ->
  medium_callback maxDepth depth ms sample st rng
  = Ret (false,
         mkPathState (beta st * Tmaj sample)%sp (pdfUni st * Tmaj sample)%sp
           (pdfNEE st) (L st) (scattered st) (scatterQ st)
           (visits st ++ [mkVisit sample NoInteraction]),
         rng).
Proof. intros Hi. unfold medium_callback. rewrite Hi. reflexivity. Qed.

(** A traversal that stops on an absorption leaves the throughput at zero
    and the scatter queue as it found it. *)
Lemma traverse_absorbed (fuel : nat) (depth : Z) (ms : MediumSampleWorkItem)
  (q : Queues) (st : PathState) (rng : RNG) :
  traverse maxDepth fuel depth ms q = Ret (st, rng) ->
  ended st = Some Absorbed ->
  beta st = Sp.const F32.zero
  /\ scattered st = false
  /\ scatterQ st = mediumScatterQueue q.
Proof.
  unfold traverse, SampleTmaj.
  apply (SampleTmaj_loop_rule (medium_callback maxDepth depth ms)
           (fun s => scattered s = false
                     /\ scatterQ s = mediumScatterQueue q
                     /\ ended s <> Some Absorbed)
           (fun s => ended s = Some Absorbed ->
                     beta s = Sp.const F32.zero
                     /\ scattered s = false
                     /\ scatterQ s = mediumScatterQueue q)).
  - intros sample s r s' r' [Hs [Hq He]].
    destruct (intr sample) as [i|] eqn:Hi.
    + rewrite (callback_collision maxDepth depth ms sample i s r Hi). cbv zeta.
      destruct (_ =? 0); [discriminate|].
      destruct (_ =? 1); [destruct (CastOrNullptr_HG _); discriminate|].
      intros H. inversion H; subst. cbn [scattered scatterQ].
      rewrite ended_snoc. repeat split; try assumption. discriminate.
    + rewrite (callback_no_interaction depth ms sample s r Hi). discriminate.
  - intros sample s r s' r' [Hs [Hq He]].
    destruct (intr sample) as [i|] eqn:Hi.
    + rewrite (callback_collision maxDepth depth ms sample i s r Hi). cbv zeta.
      destruct (_ =? 0).
      * intros H. inversion H; subst. cbn [beta scattered scatterQ]. auto.
      * destruct (_ =? 1); [destruct (CastOrNullptr_HG _)|];
          intros H; inversion H; subst; rewrite ended_snoc; discriminate.
    + rewrite (callback_no_interaction depth ms sample s r Hi).
      intros H. inversion H; subst. rewrite ended_snoc. discriminate.
  - intros s [Hs [Hq He]] Ha. contradiction.
  - cbn. repeat split. discriminate.
Qed.

(** C3 (amended).  An item whose traversal ends in absorption has its
    throughput set to the zero spectrum and puts nothing into the
    medium-scatter queue, and the ray, medium-sample and shadow queues are
    left alone; but it is not dropped.  Like every item that did not
    scatter it is routed on with that zero throughput: into the
    medium-transition queue when no material is bound, into one of the two
    material-evaluation queues otherwise. *)
Theorem absorbed_item_routed (fuel : nat) (depth : Z)
  (ms : MediumSampleWorkItem) (q : Queues) (st : PathState) (rng : RNG) :
  traverse maxDepth fuel depth ms q = Ret (st, rng) ->
  ended st = Some Absorbed ->
  beta st = Sp.const F32.zero
  /\ exists q',
      sample_medium_item maxDepth fuel depth ms q = Ret q'
      /\ mediumScatterQueue q' = mediumScatterQueue q
      /\ mediumSampleQueue q' = mediumSampleQueue q
      /\ shadowRayQueue q' = shadowRayQueue q
      /\ rayQueues0 q' = rayQueues0 q /\ rayQueues1 q' = rayQueues1 q
      /\ (is_set (ms_material ms) = false ->
          exists w, mediumTransitionQueue q' = mediumTransitionQueue q ++ [w]
                    /\ mt_beta w = Sp.const F32.zero)
      /\ (is_set (ms_material ms) = true ->
          exists w, (basicEvalMaterialQueue q' = basicEvalMaterialQueue q ++ [w]
                     \/ universalEvalMaterialQueue q'
                        = universalEvalMaterialQueue q ++ [w])
                    /\ me_beta w = Sp.const F32.zero).
Proof.
  intros Ht Ha. destruct (traverse_absorbed fuel depth ms q st rng Ht Ha)
    as [Hb [Hs Hq]].
  split; [exact Hb|].
  unfold sample_medium_item. rewrite Ht. cbn [bind]. rewrite Hs.
  eexists. split; [reflexivity|].
  set (q1 := add_emission ms (L st) (Q.with_mediumScatter (fun _ => scatterQ st) q)).
  destruct (route_frame ms st q1) as [_ [F1 [F2 [F3 [F4 F5]]]]].
  rewrite F1, F2, F3, F4, F5.
  assert (G : mediumScatterQueue q1 = mediumScatterQueue q
              /\ mediumSampleQueue q1 = mediumSampleQueue q
              /\ shadowRayQueue q1 = shadowRayQueue q
              /\ rayQueues0 q1 = rayQueues0 q /\ rayQueues1 q1 = rayQueues1 q
              /\ mediumTransitionQueue q1 = mediumTransitionQueue q
              /\ basicEvalMaterialQueue q1 = basicEvalMaterialQueue q
              /\ universalEvalMaterialQueue q1 = universalEvalMaterialQueue q).
  { unfold q1, add_emission. destruct (Sp.nonzero (L st)); cbn;
      rewrite ?Hq; repeat split; reflexivity. }
  destruct G as [G1 [G2 [G3 [G4 [G5 [G6 [G7 G8]]]]]]].
  repeat (split; [assumption|]).
  split.
  - intros Hm. unfold route. rewrite Hm. cbn [negb].
    eexists. split.
    + destruct (ms_tMax ms =? F32.Infinity)%f32; cbn; rewrite G6; reflexivity.
    + cbn. exact Hb.
  - intros Hm. unfold route. rewrite Hm. cbn [negb].
    eexists. split.
    + destruct (CanEvaluateTextures (ms_material ms)
                && (negb (is_set (GetDisplacement (ms_material ms)))
                    || BasicCanEvaluate (GetDisplacement (ms_material ms))));
        [left|right];
        destruct (ms_tMax ms =? F32.Infinity)%f32, (is_set (ms_areaLight ms));
        cbn; rewrite ?G7, ?G8; reflexivity.
    + cbn. exact Hb.
Qed.

End Absorption.

Lemma absorbed_item_routed_witness :
  exists q' w w',
    sample_medium_item (E := Scene.env) 5 4 1 Scene.absorbed_item Scene.empty
    = Ret q'
    /\ mediumScatterQueue q' = []
    /\ mediumTransitionQueue q' = [w] /\ mt_beta w = Scene.zeros
    /\ sample_medium_item (E := Scene.env) 5 4 1 Scene.absorbed_item_on_surface
         Scene.empty
       = Ret (Q.with_basicEval (fun _ => [w']) Scene.empty)
    /\ me_beta w' = Scene.zeros.
Proof.
  destruct (traverse (E := Scene.env) 5 4 1 Scene.absorbed_item Scene.empty)
    as [[st rng]| |] eqn:Ht; [|vm_compute in Ht; discriminate ..].
  assert (Ha : ended st = Some Absorbed)
    by (vm_compute in Ht; injection Ht as <- _; reflexivity).
  destruct (absorbed_item_routed (E := Scene.env) 5 4 1 Scene.absorbed_item
              Scene.empty st rng Ht Ha)
    as [_ [q' [Hq [Hs [_ [_ [_ [_ [Hn _]]]]]]]]].
  destruct (Hn eq_refl) as [w [Hw Hb]].
  exists q', w. eexists.
  split; [exact Hq|]. split; [exact Hs|]. split; [exact Hw|].
  split; [exact Hb|]. split; vm_compute; reflexivity.
Defined.

(** C3 as stated fails: the item absorbed in medium 1, with no material
    bound, is pushed into the medium-transition queue, which was empty,
    carrying the zero throughput. *)
Lemma absorbed_item_is_enqueued :
  exists st rng q' w,
    traverse (E := Scene.env) 5 4 1 Scene.absorbed_item Scene.empty
    = Ret (st, rng)
    /\ ended st = Some Absorbed
    /\ beta st = Scene.zeros
    /\ sample_medium_item (E := Scene.env) 5 4 1 Scene.absorbed_item Scene.empty
       = Ret q'
    /\ mediumTransitionQueue Scene.empty = []
    /\ mediumTransitionQueue q' = [w]
    /\ mt_beta w = Scene.zeros
    /\ mt_pixelIndex w = ms_pixelIndex Scene.absorbed_item.
Proof.
  do 4 eexists.
  split; [vm_compute; reflexivity|].
  split; [reflexivity|]. split; [reflexivity|].
  split; [vm_compute; reflexivity|].
  split; [reflexivity|]. split; [reflexivity|]. split; reflexivity.
Qed.

Section ClearMedium.

Context {E : Externals}.
Variable maxDepth : Z.







End ClearMedium.



Section Determinism.

Context {E : Externals}.
Variable maxDepth : Z.

Lemma SampleTmaj_loop_rel {S1 S2 : Type}
  (cb1 : MediumSample -> S1 -> RNG -> exec (bool * S1 * RNG))
  (cb2 : MediumSample -> S2 -> RNG -> exec (bool * S2 * RNG))
  (R : S1 -> S2 -> Prop) :
  (forall sample s1 s2 rng,
      R s1 s2 ->
      exec_rel (fun a b => fst (fst a) = fst (fst b)
                           /\ R (snd (fst a)) (snd (fst b))
                           /\ snd a = snd b)
        (cb1 sample s1 rng) (cb2 sample s2 rng)) ->
  forall fuel ts rng s1 s2,
    R s1 s2 ->
    exec_rel (fun a b => R (fst a) (fst b) /\ snd a = snd b)
      (SampleTmaj_loop fuel ts rng cb1 s1) (SampleTmaj_loop fuel ts rng cb2 s2).
Proof.
  intros Hcb. induction fuel as [|fuel IH]; intros ts rng s1 s2 HR.
  - exact I.
  - cbn [SampleTmaj_loop].
    destruct (SampleTmaj_next ts rng) as [[[sample ts'] rng1]|].
    + specialize (Hcb sample s1 s2 rng1 HR).
      destruct (cb1 sample s1 rng1) as [[[c1 t1] r1]|f1|],
        (cb2 sample s2 rng1) as [[[c2 t2] r2]|f2|];
        cbn [exec_rel bind fst snd] in *; try contradiction; try assumption.
      destruct Hcb as [Hc [Ht Hr]]. subst c2 r2.
      destruct c1.
      * apply IH. exact Ht.
      * cbn. auto.
    + cbn. auto.
Qed.

(** The callback reads the item only to fill the scatter item it pushes. *)
Lemma medium_callback_rel (depth : Z) (ms1 ms2 : MediumSampleWorkItem)
  (sample : MediumSample) (s1 s2 : PathState) (rng : RNG) :
  same_spectra s1 s2 ->
  exec_rel (fun a b => fst (fst a) = fst (fst b)
                       /\ same_spectra (snd (fst a)) (snd (fst b))
                       /\ snd a = snd b)
    (medium_callback maxDepth depth ms1 sample s1 rng)
    (medium_callback maxDepth depth ms2 sample s2 rng).
Proof.
  destruct s1 as [b1 u1 n1 l1 c1 q1 v1], s2 as [b2 u2 n2 l2 c2 q2 v2].
  unfold same_spectra. cbn [beta pdfUni pdfNEE L scattered visits].
  intros [-> [-> [-> [-> [-> ->]]]]].
  unfold medium_callback, add_Le, emission.
  cbn [beta pdfUni pdfNEE L scattered visits scatterQ].
  destruct (intr sample) as [i|].
  - destruct (Uniform rng) as [um rng'].
    destruct (_ =? 0); [cbn; repeat split; reflexivity|].
    destruct (_ =? 1).
    + destruct (CastOrNullptr_HG (phase i)); cbn; repeat split; reflexivity.
    + destruct (null_scatter _ _ _ _ _) as [[b u] n].
      cbn. repeat split; reflexivity.
  - cbn. repeat split; reflexivity.
Qed.

(** A shadow query never reads the ray queue, the launch index or the
    queues. *)
Lemma shadow_Tr_turn_indep (fuel : nat) (rq1 rq2 : list RayWorkItem)
  (i1 i2 : Z) (tMax : Float) (pLight : Point3f) (lambda : SampledWavelengths)
  (q1 q2 : Queues) (st : TrState) (rng : RNG) :
  shadow_Tr_turn fuel rq1 i1 tMax pLight lambda q1 st rng
  = shadow_Tr_turn fuel rq2 i2 tMax pLight lambda q2 st rng.
Proof.
  unfold shadow_Tr_turn, ProcessClosestIntersection, hit_context,
    ClosestHitContext_new.
  cbn [shadowRay rayMedium].
  destruct (optixTrace _ _ _ _) as [[intr tHit]|]; reflexivity.
Qed.

Lemma shadow_Tr_loop_indep (fuel turns : nat) (rq1 rq2 : list RayWorkItem)
  (i1 i2 : Z) (tMax : Float) (pLight : Point3f) (lambda : SampledWavelengths)
  (q1 q2 : Queues) :
  forall (st : TrState) (rng : RNG),
    shadow_Tr_loop fuel turns rq1 i1 tMax pLight lambda q1 st rng
    = shadow_Tr_loop fuel turns rq2 i2 tMax pLight lambda q2 st rng.
Proof.
  induction turns as [|turns IH]; intros st rng; [reflexivity|].
  cbn [shadow_Tr_loop].
  rewrite (shadow_Tr_turn_indep fuel rq1 rq2 i1 i2 tMax pLight lambda q1 q2).
  destruct (shadow_Tr_turn _ _ _ _ _ _ _ _ _) as [[[out|st'] rng']| |];
    cbn [bind]; try reflexivity.
  apply IH.
Qed.

(** C10 (amended).  Both traversals seed their generator from the work
    item alone: the free-flight sampler from [Hash(tMax)] and [Hash(ray.d)],
    the transmittance resolver from [Hash(ray.o)] and [Hash(ray.d)].  Two
    items that agree on those fields therefore draw the same random
    numbers.  That alone does not make their spectral updates equal; these
    are equal when the items also agree on the other fields the traversal
    reads: the ray with its medium, the segment end, the wavelengths and
    the three spectra on entry.  Nothing else of the item, and nothing of
    the queues, has any influence. *)
Theorem traversal_determined_by_item :
  (forall ms1 ms2 : MediumSampleWorkItem,
      ms_tMax ms1 = ms_tMax ms2 -> d (ms_ray ms1) = d (ms_ray ms2) ->
      medium_rng ms1 = medium_rng ms2
      /\ forall n, draws n (medium_rng ms1) = draws n (medium_rng ms2))
  /\ (forall sr1 sr2 : ShadowRayWorkItem,
      o (sr_ray sr1) = o (sr_ray sr2) -> d (sr_ray sr1) = d (sr_ray sr2) ->
      shadow_rng sr1 = shadow_rng sr2
      /\ forall n, draws n (shadow_rng sr1) = draws n (shadow_rng sr2))
  /\ (forall fuel depth (ms1 ms2 : MediumSampleWorkItem) (q1 q2 : Queues),
      ms_ray ms1 = ms_ray ms2 -> ms_tMax ms1 = ms_tMax ms2 ->
      ms_lambda ms1 = ms_lambda ms2 -> ms_beta ms1 = ms_beta ms2 ->
      ms_pdfUni ms1 = ms_pdfUni ms2 -> ms_pdfNEE ms1 = ms_pdfNEE ms2 ->
      exec_rel (fun a b => same_spectra (fst a) (fst b) /\ snd a = snd b)
        (traverse maxDepth fuel depth ms1 q1)
        (traverse maxDepth fuel depth ms2 q2))
  /\ (forall fuel turns rq1 rq2 i1 i2 q1 q2 (sr1 sr2 : ShadowRayWorkItem),
      sr_ray sr1 = sr_ray sr2 -> sr_tMax sr1 = sr_tMax sr2 ->
      sr_lambda sr1 = sr_lambda sr2 -> sr_Ld sr1 = sr_Ld sr2 ->
      sr_pdfUni sr1 = sr_pdfUni sr2 -> sr_pdfNEE sr1 = sr_pdfNEE sr2 ->
      shadow_Tr_item fuel turns rq1 i1 q1 sr1
      = shadow_Tr_item fuel turns rq2 i2 q2 sr2).
Proof.
  split; [|split; [|split]].
  - intros ms1 ms2 Ht Hd.
    assert (H : medium_rng ms1 = medium_rng ms2)
      by (unfold medium_rng; rewrite Ht, Hd; reflexivity).
    split; [exact H|]. intros n. rewrite H. reflexivity.
  - intros sr1 sr2 Ho Hd.
    assert (H : shadow_rng sr1 = shadow_rng sr2)
      by (unfold shadow_rng; rewrite Ho, Hd; reflexivity).
    split; [exact H|]. intros n. rewrite H. reflexivity.
  - intros fuel depth ms1 ms2 q1 q2 Hr Ht Hl Hb Hu Hn.
    unfold traverse, SampleTmaj, medium_rng. rewrite Hr, Ht, Hl, Hb, Hu, Hn.
    apply SampleTmaj_loop_rel.
    + intros sample s1 s2 rng HR. apply medium_callback_rel. exact HR.
    + unfold same_spectra. cbn. repeat split; reflexivity.
  - intros fuel turns rq1 rq2 i1 i2 q1 q2 sr1 sr2 Hr Ht Hl Hd Hu Hn.
    unfold shadow_Tr_item, shadow_rng. rewrite Hr, Ht, Hl, Hd, Hu, Hn.
    apply shadow_Tr_loop_indep.
Qed.

End Determinism.

Lemma traversal_determined_by_item_witness :
  (medium_rng (E := Scene.env) Scene.thin_item
   = medium_rng (E := Scene.env) Scene.clear_item
   /\ draws (E := Scene.env) 3 (medium_rng (E := Scene.env) Scene.thin_item)
      = draws (E := Scene.env) 3 (medium_rng (E := Scene.env) Scene.clear_item))
  /\ exec_rel (fun a b => same_spectra (fst a) (fst b) /\ snd a = snd b)
       (traverse (E := Scene.env) 5 4 1 Scene.clear_item Scene.empty)
       (traverse (E := Scene.env) 5 4 1
          (Scene.ms_item 2 Scene.ones Scene.ones Scene.ones 3 1)
          (Q.with_mediumScatter (fun _ => [Scene.sc_item 0]) Scene.empty)).
Proof.
  split.
  - destruct (proj1 (traversal_determined_by_item (E := Scene.env) 5)
                Scene.thin_item Scene.clear_item eq_refl eq_refl) as [H1 H2].
    split; [exact H1|exact (H2 3%nat)].
  - exact (proj1 (proj2 (proj2 (traversal_determined_by_item (E := Scene.env) 5)))
             4%nat 1 Scene.clear_item
             (Scene.ms_item 2 Scene.ones Scene.ones Scene.ones 3 1)
             Scene.empty
             (Q.with_mediumScatter (fun _ => [Scene.sc_item 0]) Scene.empty)
             eq_refl eq_refl eq_refl eq_refl eq_refl eq_refl).
Defined.

(** C10 as stated fails: two items with the same [tMax] and the same
    [ray.d], hence the same generator, one in medium 7 and one in medium 2,
    leave the sampler with different throughputs. *)
Lemma same_seed_different_updates :
  ms_tMax Scene.thin_item = ms_tMax Scene.clear_item
  /\ d (ms_ray Scene.thin_item) = d (ms_ray Scene.clear_item)
  /\ medium_rng (E := Scene.env) Scene.thin_item
     = medium_rng (E := Scene.env) Scene.clear_item
  /\ exists st1 st2 rng1 rng2,
      traverse (E := Scene.env) 5 4 1 Scene.thin_item Scene.empty
      = Ret (st1, rng1)
      /\ traverse (E := Scene.env) 5 4 1 Scene.clear_item Scene.empty
         = Ret (st2, rng2)
      /\ beta st1 = Sp.const Scene.half
      /\ beta st2 = Sp.const Scene.quarter
      /\ beta st1 <> beta st2.
Proof.
  split; [reflexivity|]. split; [reflexivity|]. split; [reflexivity|].
  do 4 eexists.
  split; [vm_compute; reflexivity|]. split; [vm_compute; reflexivity|].
  split; [reflexivity|]. split; [reflexivity|]. discriminate.
Qed.

(** ** The medium-scatter kernel *)

Section ScatterKernel.

Context {E : Externals}.

Lemma with_rayQueue_items (i : Z) (f : list RayWorkItem -> list RayWorkItem)
  (q : Queues) :
  rq_items (rayQueues (Q.with_rayQueue i f q) i) = f (rq_items (rayQueues q i)).
Proof.
  unfold rayQueues, Q.with_rayQueue.
  destruct (Z.land i 1 =? 0); reflexivity.
Qed.

Lemma sample_indirect_shadow (depth : Z) (ms : MediumScatterWorkItem)
  (rs : RaySamples) (q : Queues) :
  shadowRayQueue (sample_indirect depth ms rs q) = shadowRayQueue q.
Proof.
  unfold sample_indirect.
  destruct (HG_Sample_p _ _ _) as [ps|]; [|reflexivity].
  destruct (russian_roulette _ _ _ _ _ _) as [[u n]|]; [|reflexivity].
  unfold Q.with_rayQueue. destruct (Z.land (depth + 1) 1 =? 0); reflexivity.
Qed.

(** C7.  For a scatter item whose sampled light returns a usable sample,
    one shadow-ray item is pushed.  Its [pdfNEE] is the item's [pdfUni]
    times the product of the light-selection density and the light's
    density; its [pdfUni] is the item's [pdfUni] times the phase density,
    which is taken as zero for a delta light; its [tMax] is
    [1 - ShadowEpsilon], on a ray whose direction is the vector from the
    scattering point to the light sample. *)
Theorem direct_lighting_shadow_item (depth : Z) (ms : MediumScatterWorkItem)
  (q : Queues) (sampledLight : SampledLight) (ls : LightLiSample) :
  let rs := raySamples (rayQueues q depth) (sc_rayIndex ms) in
  let ctx := mkLightSampleContext (Vec.to_fi (sc_p ms)) Vec.zero3 Vec.zero3 in
  let light := sl_light sampledLight in
  let wo := sc_wo ms in
  let wi := ls_wi ls in
  let phasePdf :=
    if IsDeltaLight (Light_Type light) then F32.zero
    else HG_PDF (sc_phase ms) wo wi in
  lightSampler_Sample ctx (direct_uc (direct rs)) = Some sampledLight ->
  is_set light = true ->
  Light_SampleLi light ctx (direct_u (direct rs)) (sc_lambda ms) = Some ls ->
  Sp.nonzero (ls_L ls) = true ->
  exists q' w,
    scatter_medium_item depth ms q = Ret q'
    /\ shadowRayQueue q' = shadowRayQueue q ++ [w]
    /\ sr_pdfNEE w = (sc_pdfUni ms *: (sl_pdf sampledLight * ls_pdf ls)%f32)%sp
    /\ sr_pdfUni w = (sc_pdfUni ms *: phasePdf)%sp
    /\ sr_tMax w = (F32.one - ShadowEpsilon)%f32
    /\ sr_Ld w = (sc_beta ms *: HG_p (sc_phase ms) wo wi * ls_L ls)%sp
    /\ o (sr_ray w) = sc_p ms
    /\ d (sr_ray w) = Vec.sub (ls_pLight ls) (sc_p ms)
    /\ medium (sr_ray w) = sc_medium ms
    /\ sr_lambda w = sc_lambda ms
    /\ sr_pixelIndex w = sc_pixelIndex ms.
Proof.
  intros rs ctx light wo wi phasePdf Hsel Hlight Hli HL.
  unfold scatter_medium_item. fold rs ctx. rewrite Hsel.
  eexists. eexists. split; [reflexivity|].
  rewrite sample_indirect_shadow.
  unfold sample_direct. fold ctx light. rewrite Hlight, Hli, HL.
  cbn [shadowRayQueue Q.with_shadow Q.Push].
  split; [reflexivity|]. cbn.
  rewrite (FloatFacts.mul_comm (sl_pdf sampledLight) (ls_pdf ls)).
  repeat split; reflexivity.
Qed.

Lemma sample_direct_rayQueues (ms : MediumScatterWorkItem) (rs : RaySamples)
  (sl : SampledLight) (q : Queues) (i : Z) :
  rayQueues (sample_direct ms rs sl q) i = rayQueues q i.
Proof.
  unfold sample_direct.
  destruct (is_set (sl_light sl)); [|reflexivity].
  destruct (Light_SampleLi _ _ _ _) as [ls|]; [|reflexivity].
  destruct (Sp.nonzero (ls_L ls)); reflexivity.
Qed.

(** C6.  The handler of a scatter item, after its direct-lighting step,
    takes the continuation step with the samples of the item's ray in the
    ray queue of the current depth.  There the roulette is played exactly
    when [depth > 1] and the largest component of
    [beta * etaScale / pdfUni.Average()] is below one.  Its probability is
    then one minus that largest component (the clamp at zero of the source
    never applies, the component being a binary32 number below one); the
    path is dropped when the ray's roulette sample is below it: no ray
    queue changes and the handler leaves the queues as the direct-lighting
    step left them; a surviving path has [pdfUni] and [pdfNEE] multiplied
    by one minus the probability.  A path that goes on, with or without
    roulette, is pushed into the ray queue of [depth + 1] with the
    specular-bounce flag cleared and the non-specular flag set. *)
Theorem indirect_russian_roulette (depth : Z) (ms : MediumScatterWorkItem)
  (q : Queues) (sampledLight : SampledLight)
  (phaseSample : PhaseFunctionSample) :
  let rs := raySamples (rayQueues q depth) (sc_rayIndex ms) in
  let ctx := mkLightSampleContext (Vec.to_fi (sc_p ms)) Vec.zero3 Vec.zero3 in
  let beta := (sc_beta ms *: ps_p phaseSample)%sp in
  let pdfUni := (sc_pdfUni ms *: ps_pdf phaseSample)%sp in
  let pdfNEE := sc_pdfUni ms in
  let m := Sp.MaxComponentValue (beta *: sc_etaScale ms /: Sp.Average pdfUni)%sp in
  let rr := indirect_rr (indirect rs) in
  let p := (F32.one - m)%f32 in
  let pushed q' u n :=
    exists w,
      rq_items (rayQueues q' (depth + 1))
      = rq_items (rayQueues q (depth + 1)) ++ [w]
      /\ r_beta w = beta /\ r_pdfUni w = u /\ r_pdfNEE w = n
      /\ r_isSpecularBounce w = false /\ r_anyNonSpecularBounces w = true
      /\ o (r_ray w) = sc_p ms /\ d (r_ray w) = ps_wi phaseSample
      /\ medium (r_ray w) = sc_medium ms
      /\ r_etaScale w = sc_etaScale ms /\ r_pixelIndex w = sc_pixelIndex ms in
  lightSampler_Sample ctx (direct_uc (direct rs)) = Some sampledLight ->
  HG_Sample_p (sc_phase ms) (sc_wo ms) (indirect_u (indirect rs))
  = Some phaseSample ->
  F32.valid m = true ->
  exists q',
    scatter_medium_item depth ms q = Ret q'
    /\ ((1 <? depth) && (m <? F32.one)%f32 = false -> pushed q' pdfUni pdfNEE)
    /\ ((1 <? depth) && (m <? F32.one)%f32 = true ->
        ((rr <? p)%f32 = true ->
         q' = sample_direct ms rs sampledLight q
         /\ forall i, rayQueues q' i = rayQueues q i)
        /\ ((rr <? p)%f32 = false ->
            pushed q' (pdfUni *: (F32.one - p)%f32)%sp
                      (pdfNEE *: (F32.one - p)%f32)%sp)).
Proof.
  intros rs ctx beta pdfUni pdfNEE m rr p pushed Hl Hs Hv.
  set (q1 := sample_direct ms rs sampledLight q).
  exists (sample_indirect depth ms rs q1).
  split; [unfold scatter_medium_item; fold rs ctx; rewrite Hl; reflexivity|].
  set (q' := sample_indirect depth ms rs q1).
  assert (Hq : q' = match russian_roulette depth beta pdfUni pdfNEE
                            (sc_etaScale ms) rr with
                    | None => q1
                    | Some (u, n) =>
                        Q.with_rayQueue (depth + 1)
                          (PushIndirect
                             (mkRay (sc_p ms) (ps_wi phaseSample) F32.zero
                                (sc_medium ms))
                             (Vec.to_fi (sc_p ms)) Vec.zero3 Vec.zero3 beta u n
                             (sc_lambda ms) (sc_etaScale ms) false true
                             (sc_pixelIndex ms)) q1
                    end).
  { unfold q', sample_indirect. rewrite Hs. reflexivity. }
  assert (Hpush : forall u n,
             q' = Q.with_rayQueue (depth + 1)
                    (PushIndirect
                       (mkRay (sc_p ms) (ps_wi phaseSample) F32.zero
                          (sc_medium ms))
                       (Vec.to_fi (sc_p ms)) Vec.zero3 Vec.zero3 beta u n
                       (sc_lambda ms) (sc_etaScale ms) false true
                       (sc_pixelIndex ms)) q1 ->
             pushed q' u n).
  { intros u n H. unfold pushed. rewrite H, with_rayQueue_items.
    unfold q1 at 1. rewrite sample_direct_rayQueues.
    eexists. split; [reflexivity|]. cbn. repeat split; reflexivity. }
  unfold russian_roulette in Hq. fold m in Hq.
  rewrite (andb_comm (m <? F32.one)%f32 (1 <? depth)) in Hq.
  split.
  - intros Hc. rewrite Hc in Hq. apply Hpush. exact Hq.
  - intros Hc. rewrite Hc in Hq.
    apply andb_prop in Hc. destruct Hc as [_ Hm].
    rewrite (FloatFacts.max_zero_positive (F32.one - m)%f32) in Hq
      by (apply FloatFacts.one_minus_positive; assumption).
    fold p in Hq. split.
    + intros Hr. rewrite Hr in Hq. split; [exact Hq|].
      intros i. rewrite Hq. apply sample_direct_rayQueues.
    + intros Hr. rewrite Hr in Hq. apply Hpush. exact Hq.
Qed.

End ScatterKernel.

Lemma direct_lighting_shadow_item_witness :
  exists q' w,
    scatter_medium_item (E := Scene.env) 2 (Scene.sc_item 0) Scene.empty = Ret q'
    /\ shadowRayQueue q' = [w]
    /\ sr_pdfNEE w = Sp.const (S754_finite false 8388608 (-26))
    /\ sr_pdfUni w = Sp.const Scene.inv4pi
    /\ sr_tMax w = (F32.one - S754_finite false 13743895 (-37))%f32.
Proof.
  destruct (direct_lighting_shadow_item (E := Scene.env) 2 (Scene.sc_item 0)
              Scene.empty (Scene.pick_light Scene.quarter)
              (mkLightLiSample Scene.ones (mkTuple3 F32.zero F32.zero F32.one)
                 Scene.quarter Scene.light_point)
              eq_refl eq_refl eq_refl eq_refl)
    as [q' [w [Hq [Hs [Hn [Hu [Ht _]]]]]]].
  exists q', w. split; [exact Hq|]. split; [exact Hs|].
  split; [rewrite Hn; vm_compute; reflexivity|].
  split; [rewrite Hu; vm_compute; reflexivity|]. exact Ht.
Defined.

(** At depth 2 the item of ray 1, whose roulette sample is a quarter, is
    dropped: only its shadow ray is queued; the item of ray 0, whose sample
    is three quarters, goes on into the ray queue of depth 3. *)
Lemma indirect_russian_roulette_witness :
  (exists q',
      scatter_medium_item (E := Scene.env) 2 (Scene.sc_item 1) Scene.empty
      = Ret q'
      /\ rq_items (rayQueues q' 3) = [] /\ rq_items (rayQueues q' 2) = []
      /\ length (shadowRayQueue q') = 1%nat)
  /\ exists q' w,
      scatter_medium_item (E := Scene.env) 2 (Scene.sc_item 0) Scene.empty
      = Ret q'
      /\ rq_items (rayQueues q' 3) = [w]
      /\ r_pdfNEE w = Scene.halves
      /\ r_isSpecularBounce w = false
      /\ r_anyNonSpecularBounces w = true.
Proof.
  split.
  - destruct (indirect_russian_roulette (E := Scene.env) 2 (Scene.sc_item 1)
                Scene.empty (Scene.pick_light Scene.quarter)
                (Scene.isotropic_sample (Vec.neg Scene.up))
                eq_refl eq_refl eq_refl) as [q' [Hq [_ Hr]]].
    destruct (Hr eq_refl) as [Hdrop _].
    destruct Hdrop as [Hd Hrq]; [vm_compute; reflexivity|].
    exists q'. split; [exact Hq|].
    rewrite !Hrq. split; [reflexivity|]. split; [reflexivity|].
    rewrite Hd. vm_compute. reflexivity.
  - destruct (indirect_russian_roulette (E := Scene.env) 2 (Scene.sc_item 0)
                Scene.empty (Scene.pick_light Scene.quarter)
                (Scene.isotropic_sample (Vec.neg Scene.up))
                eq_refl eq_refl eq_refl) as [q' [Hq [_ Hr]]].
    destruct (Hr eq_refl) as [_ Hgo].
    destruct Hgo as [w [Hw [_ [_ [Hn [Hs [Ha _]]]]]]];
      [vm_compute; reflexivity|].
    exists q', w. split; [exact Hq|]. split; [exact Hw|].
    split; [|split; assumption].
    rewrite Hn. vm_compute. reflexivity.
Defined.

(** ** The closest-hit dispatcher *)

Section ClosestHit.

Context {E : Externals}.

(** C4 (amended).  For a hit on a path ray that is in no medium, on a
    primitive that is an emitter: when a material is bound the dispatcher
    pushes one item into the hit-area-light queue, with the emitter and the
    ray's throughput and densities; when no material is bound it pushes
    nothing there, the hit being a bare medium boundary, and the ray goes
    into the medium-transition queue alone. *)
Theorem emitter_hit_dispatch (intr : SurfaceInteraction)
  (rayQueue : list RayWorkItem) (rayIndex : Z) (tHit : Float)
  (ctx : ClosestHitContext) (q : Queues) (r : RayWorkItem) :
  shadowRay ctx = false ->
  is_set (rayMedium ctx) = false ->
  slot rayQueue rayIndex = Some r ->
  is_set (si_areaLight intr) = true ->
  exists ctx' q',
    ProcessClosestIntersection intr rayQueue rayIndex tHit ctx q = Ret (ctx', q')
    /\ (is_set (si_material intr) = true ->
        exists w,
          hitAreaLightQueue q' = hitAreaLightQueue q ++ [w]
          /\ hl_areaLight w = si_areaLight intr
          /\ hl_beta w = r_beta r /\ hl_pdfUni w = r_pdfUni r
          /\ hl_pdfNEE w = r_pdfNEE r /\ hl_lambda w = r_lambda r
          /\ hl_pixelIndex w = r_pixelIndex r)
    /\ (is_set (si_material intr) = false ->
        hitAreaLightQueue q' = hitAreaLightQueue q
        /\ exists w,
            mediumTransitionQueue q' = mediumTransitionQueue q ++ [w]
            /\ mt_beta w = r_beta r
            /\ mt_pixelIndex w = r_pixelIndex r).
Proof.
  intros Hs Hm Hr Ha.
  unfold ProcessClosestIntersection, hit_context. cbn [shadowRay]. rewrite Hs, Hr.
  eexists. eexists. split; [reflexivity|].
  unfold enqueue_hit. cbn [rayMedium ctx_mediumInterface]. rewrite Hm. split.
  - intros Hmat. rewrite Hmat, Ha. cbn [negb].
    eexists. split.
    + destruct (CanEvaluateTextures _ && _); reflexivity.
    + cbn. repeat split; reflexivity.
  - intros Hmat. rewrite Hmat. cbn [negb]. split; [reflexivity|].
    eexists. split; [reflexivity|]. cbn. split; reflexivity.
Qed.

End ClosestHit.

Lemma emitter_hit_dispatch_witness :
  (exists ctx' q' w,
      ProcessClosestIntersection (E := Scene.env)
        (Scene.surface Scene.light_point 3 1) [Scene.ray_item Scene.two] 0
        F32.one (ClosestHitContext_new nullptr false) Scene.empty
      = Ret (ctx', q')
      /\ hitAreaLightQueue q' = [w] /\ hl_areaLight w = 1)
  /\ (exists ctx' q',
      ProcessClosestIntersection (E := Scene.env)
        (Scene.surface Scene.light_point 0 1) [Scene.ray_item Scene.three] 0
        F32.one (ClosestHitContext_new nullptr false) Scene.empty
      = Ret (ctx', q')
      /\ hitAreaLightQueue q' = []).
Proof.
  split.
  - destruct (emitter_hit_dispatch (E := Scene.env)
                (Scene.surface Scene.light_point 3 1) [Scene.ray_item Scene.two]
                0 F32.one (ClosestHitContext_new nullptr false) Scene.empty
                (Scene.ray_item Scene.two) eq_refl eq_refl eq_refl eq_refl)
      as [ctx' [q' [Hq [Hm _]]]].
    destruct (Hm eq_refl) as [w [Hw [Hl _]]].
    exists ctx', q', w. auto.
  - destruct (emitter_hit_dispatch (E := Scene.env)
                (Scene.surface Scene.light_point 0 1) [Scene.ray_item Scene.three]
                0 F32.one (ClosestHitContext_new nullptr false) Scene.empty
                (Scene.ray_item Scene.three) eq_refl eq_refl eq_refl eq_refl)
      as [ctx' [q' [Hq [_ Hn]]]].
    destruct (Hn eq_refl) as [Hh _].
    exists ctx', q'. auto.
Defined.

(** C4 as stated fails: the ray from [x = 3], in no medium, hits an emitter
    that has no material bound; the closest-hit launch leaves the
    hit-area-light queue empty and pushes the ray into the
    medium-transition queue. *)
Lemma emitter_without_material_not_pushed :
  exists intr tHit q' w,
    optixTrace (Externals := Scene.env) LaunchFindClosest
      (r_ray (Scene.ray_item Scene.three)) F32.zero F32.big_tMax
    = Some (intr, tHit)
    /\ is_set (si_areaLight intr) = true
    /\ is_set (si_material intr) = false
    /\ is_set (medium (r_ray (Scene.ray_item Scene.three))) = false
    /\ __raygen__findClosest (E := Scene.env) [Scene.ray_item Scene.three] 0
         Scene.empty
       = Ret q'
    /\ hitAreaLightQueue q' = []
    /\ mediumTransitionQueue q' = [w].
Proof.
  do 4 eexists. split; [reflexivity|].
  split; [reflexivity|]. split; [reflexivity|]. split; [reflexivity|].
  split; [vm_compute; reflexivity|]. split; reflexivity.
Qed.

(** ** Shadow rays through media *)

Section ShadowTr.

Context {E : Externals}.







End ShadowTr.


(** ** Further properties of the kernels *)

Ltac queue_fields :=
  cbn [rayQueues0 rayQueues1 mediumSampleQueue mediumScatterQueue
       escapedRayQueue mediumTransitionQueue hitAreaLightQueue
       basicEvalMaterialQueue universalEvalMaterialQueue shadowRayQueue
       pixelSampleState_L Q.with_mediumSample Q.with_mediumScatter
       Q.with_escaped Q.with_mediumTransition Q.with_hitAreaLight
       Q.with_basicEval Q.with_universalEval Q.with_shadow Q.with_pixelL
       option_map].

Ltac count_items :=
  unfold routed, escaped_items; queue_fields; unfold Q.Push;
  rewrite ?length_app; cbn [length]; lia.

Lemma slot_past_end {A : Type} (l : list A) (index : Z) :
  Z.of_nat (length l) <= index -> slot l index = None.
Proof.
  intros H. unfold slot. destruct (index <? 0) eqn:Hn; [reflexivity|].
  apply nth_error_None. lia.
Qed.

Lemma slot_in_range {A : Type} (l : list A) (index : Z) (a : A) :
  slot l index = Some a -> 0 <= index < Z.of_nat (length l).
Proof.
  unfold slot. destruct (index <? 0) eqn:Hn; [discriminate|].
  intros H. assert (Hs : nth_error l (Z.to_nat index) <> None) by congruence.
  apply nth_error_Some in Hs. lia.
Qed.

Lemma int32_small (a : Z) : 0 <= a < 2 ^ 31 -> int32 a = a.
Proof.
  intros Ha. unfold int32, uint32.
  assert (H31 : 2 ^ 31 = 2147483648) by reflexivity.
  assert (H32 : 2 ^ 32 = 4294967296) by reflexivity.
  cbv zeta. rewrite Z.mod_small by lia.
  destruct (Z.ltb_spec a (2 ^ 31)); [reflexivity|lia].
Qed.

(** A launch index of [2^31] or more is a negative [int]. *)
Lemma int32_wraps (a : Z) : 2 ^ 31 <= a < 2 ^ 32 -> int32 a = a - 2 ^ 32.
Proof.
  intros Ha. unfold int32, uint32.
  assert (H31 : 2 ^ 31 = 2147483648) by reflexivity.
  assert (H32 : 2 ^ 32 = 4294967296) by reflexivity.
  cbv zeta. rewrite Z.mod_small by lia.
  destruct (Z.ltb_spec a (2 ^ 31)); [lia|reflexivity].
Qed.

Section Dispatch.

Context {E : Externals} {G : Shapes}.

(** What [ProcessClosestIntersection] does for a path ray, whatever
    interaction the closest-hit program has built: one item more in the
    queues a ray is routed to. *)
Lemma dispatch_routes_once (intr : SurfaceInteraction)
  (rayQueue : list RayWorkItem) (rayIndex : Z) (tHit : Float) (q : Queues)
  (r : RayWorkItem) :
  slot rayQueue rayIndex = Some r ->
  exists ctx' q',
    ProcessClosestIntersection intr rayQueue rayIndex tHit
      (ClosestHitContext_new (medium (r_ray r)) false) q
    = Ret (ctx', q')
    /\ routed q' = S (routed q)
    /\ escapedRayQueue q' = escapedRayQueue q
    /\ (hitAreaLightQueue q' = hitAreaLightQueue q
        \/ exists w,
            hitAreaLightQueue q' = hitAreaLightQueue q ++ [w]
            /\ (length (basicEvalMaterialQueue q')
                + length (universalEvalMaterialQueue q')
                = S (length (basicEvalMaterialQueue q)
                     + length (universalEvalMaterialQueue q)))%nat)
    /\ rayQueues0 q' = rayQueues0 q /\ rayQueues1 q' = rayQueues1 q
    /\ mediumScatterQueue q' = mediumScatterQueue q
    /\ shadowRayQueue q' = shadowRayQueue q
    /\ pixelSampleState_L q' = pixelSampleState_L q.
Proof.
  intros Hr.
  unfold ProcessClosestIntersection, hit_context, ClosestHitContext_new.
  cbn [shadowRay rayMedium]. rewrite Hr.
  eexists. eexists. split; [reflexivity|].
  unfold enqueue_hit. cbn [rayMedium ctx_mediumInterface].
  destruct (is_set (medium (r_ray r))).
  - split; [count_items|]. split; [reflexivity|].
    split; [left; reflexivity|]. queue_fields; repeat split; reflexivity.
  - destruct (is_set (si_material intr)); cbn [negb].
    + destruct (CanEvaluateTextures _ && _), (is_set (si_areaLight intr));
        (split; [count_items|]); (split; [reflexivity|]);
        (split; [first [left; reflexivity
                       |right; eexists; split; [reflexivity|];
                        count_items]|]);
        queue_fields; repeat split; reflexivity.
    + split; [count_items|]. split; [reflexivity|].
      split; [left; reflexivity|]. queue_fields; repeat split; reflexivity.
Qed.

(** X1.  A traced ray is routed exactly once, when its closest-hit program
    gets as far as the dispatcher.  Take a launch index inside the ray
    queue.  On a miss the launch returns with one item more in exactly one
    of the medium-sample and escaped-ray queues; the one exception is a
    miss outside any medium when no escaped-ray queue is configured, which
    changes nothing.  On a hit whose closest-hit program reaches
    [ProcessClosestIntersection] the launch returns with one item more in
    exactly one of the medium-sample, medium-transition and the two
    material-evaluation queues.  On any other hit the launch does not
    return: it stops at the assertion of lines 259 or 469, at the empty
    optional of line 298 or at the read past the area lights of lines 304
    and 557.  Where the launch returns the hit-area-light queue grows only
    together with a material-evaluation queue, and the ray queues, the
    scatter and shadow queues and the pixels are left alone. *)
Theorem findClosest_routes_once (closest : Closest)
  (rayQueue : list RayWorkItem) (launchIndex : Z) (q : Queues)
  (r : RayWorkItem) :
  let result := findClosest_launch closest rayQueue launchIndex q in
  let framed (q' : Queues) :=
    (hitAreaLightQueue q' = hitAreaLightQueue q
     \/ exists w,
         hitAreaLightQueue q' = hitAreaLightQueue q ++ [w]
         /\ (length (basicEvalMaterialQueue q')
             + length (universalEvalMaterialQueue q')
             = S (length (basicEvalMaterialQueue q)
                  + length (universalEvalMaterialQueue q)))%nat)
    /\ rayQueues0 q' = rayQueues0 q /\ rayQueues1 q' = rayQueues1 q
    /\ mediumScatterQueue q' = mediumScatterQueue q
    /\ shadowRayQueue q' = shadowRayQueue q
    /\ pixelSampleState_L q' = pixelSampleState_L q in
  0 <= launchIndex < 2 ^ 31 ->
  slot rayQueue launchIndex = Some r ->
  match closest (r_ray r) F32.zero F32.big_tMax with
  | None =>
      exists q',
        result = Passed (Ret q')
        /\ (routed q' = S (routed q)
            \/ (is_set (medium (r_ray r)) = false
                /\ escapedRayQueue q = None /\ q' = q))
        /\ mediumTransitionQueue q' = mediumTransitionQueue q
        /\ basicEvalMaterialQueue q' = basicEvalMaterialQueue q
        /\ universalEvalMaterialQueue q' = universalEvalMaterialQueue q
        /\ framed q'
  | Some c =>
      if reaches_dispatch c
      then exists q',
          result = Passed (Ret q')
          /\ routed q' = S (routed q)
          /\ escapedRayQueue q' = escapedRayQueue q
          /\ framed q'
      else result = AssertionFailed
           \/ result = Passed (Fault EmptyOptional)
           \/ result = Passed (Fault OutOfRange)
  end.
Proof.
  intros result framed Hi Hr.
  assert (Hres : result
                 = match closest (r_ray r) F32.zero F32.big_tMax with
                   | Some c =>
                       match closesthit c rayQueue launchIndex
                               (ClosestHitContext_new (medium (r_ray r)) false)
                               q with
                       | Passed (Ret (_, q')) => Passed (Ret q')
                       | Passed (Fault f) => Passed (Fault f)
                       | Passed OutOfFuel => Passed OutOfFuel
                       | AssertionFailed => AssertionFailed
                       end
                   | None => findClosest_launch (fun _ _ _ => None) rayQueue
                               launchIndex q
                   end).
  { unfold result, findClosest_launch. cbv zeta.
    rewrite (int32_small launchIndex Hi).
    pose proof (slot_in_range _ _ _ Hr) as Hlen.
    destruct (Z.leb_spec (Z.of_nat (length rayQueue)) launchIndex); [lia|].
    rewrite Hr. destruct (closest _ _ _); reflexivity. }
  destruct (closest (r_ray r) F32.zero F32.big_tMax) as [c|].
  - (* a hit: the closest-hit program of the primitive *)
    assert (Hgo : forall intr tHit,
               closesthit c rayQueue launchIndex
                 (ClosestHitContext_new (medium (r_ray r)) false) q
               = Passed (ProcessClosestIntersection intr rayQueue launchIndex
                           tHit (ClosestHitContext_new (medium (r_ray r)) false)
                           q) ->
               exists q', result = Passed (Ret q')
                          /\ routed q' = S (routed q)
                          /\ escapedRayQueue q' = escapedRayQueue q
                          /\ framed q').
    { intros intr tHit Hc. rewrite Hres, Hc.
      destruct (dispatch_routes_once intr rayQueue launchIndex tHit q r Hr)
        as [ctx' [q' [Hp Hrest]]].
      rewrite Hp. exists q'. split; [reflexivity|]. exact Hrest. }
    destruct c as [rec st|rec st|rec st];
      unfold reaches_dispatch, light_in_range; cbn [closesthit] in *.
    + unfold __closesthit__triangle in *.
      destruct (getTriangleIntersection rec st) as [[intr|]|];
        [|right; left; exact Hres|left; exact Hres].
      destruct (tri_areaLights rec) as [|l ls]; [eapply Hgo; reflexivity|].
      destruct (slot (l :: ls) (optixGetPrimitiveIndex st));
        [eapply Hgo; reflexivity|right; right; exact Hres].
    + unfold __closesthit__bilinearPatch in *. cbv zeta in *.
      destruct (bil_areaLights rec) as [|l ls]; [eapply Hgo; reflexivity|].
      destruct (slot (l :: ls) (optixGetPrimitiveIndex st));
        [eapply Hgo; reflexivity|right; right; exact Hres].
    + unfold __closesthit__quadric, getQuadricIntersection in *.
      cbv zeta in *.
      destruct (quad_shape rec);
        [eapply Hgo; reflexivity ..|left; exact Hres].
  - (* a miss *)
    unfold findClosest_launch in Hres. cbv zeta in Hres.
    rewrite (int32_small launchIndex Hi) in Hres.
    pose proof (slot_in_range _ _ _ Hr) as Hlen.
    destruct (Z.leb_spec (Z.of_nat (length rayQueue)) launchIndex); [lia|].
    rewrite Hr in Hres. rewrite Hres. eexists. split; [reflexivity|].
    unfold framed.
    destruct (is_set (medium (r_ray r))).
    + split; [left; count_items|].
      queue_fields. repeat split; try reflexivity. left; reflexivity.
    + destruct (escapedRayQueue q) as [l|] eqn:He.
      * split; [left; unfold routed, escaped_items; queue_fields; rewrite He;
                queue_fields; unfold Q.Push; rewrite ?length_app; cbn [length];
                lia|].
        queue_fields. repeat split; try reflexivity. left; reflexivity.
      * split.
        { right. repeat split; try reflexivity.
          unfold Q.with_escaped. rewrite He. destruct q; cbn in He; subst;
          reflexivity. }
        queue_fields. repeat split; try reflexivity. left; reflexivity.
Qed.

End Dispatch.

(** Four launches on a queue of one ray.  The ray from the origin meets a
    triangle with an area light and is routed once, into a
    material-evaluation queue and the hit-area-light queue; the ray that
    meets the degenerate triangle stops at the empty optional; the ray that
    meets triangle 3 of a mesh with one area light stops at the read past
    the lights; the ray that misses goes to the escaped-ray queue. *)
Lemma findClosest_routes_once_witness :
  (exists q',
      findClosest_launch (E := Scene.env) (G := Gallery.shapes) Gallery.nearest
        [Scene.ray_item F32.zero] 0 Scene.empty
      = Passed (Ret q')
      /\ routed q' = 1%nat
      /\ length (hitAreaLightQueue q') = 1%nat)
  /\ findClosest_launch (E := Scene.env) (G := Gallery.shapes) Gallery.nearest
       [Scene.ray_item Scene.two] 0 Scene.empty
     = Passed (Fault EmptyOptional)
  /\ findClosest_launch (E := Scene.env) (G := Gallery.shapes) Gallery.nearest
       [Scene.ray_item F32.four] 0 Scene.empty
     = Passed (Fault OutOfRange)
  /\ exists q',
      findClosest_launch (E := Scene.env) (G := Gallery.shapes) Gallery.nearest
        [Scene.ray_item F32.one] 0 Scene.empty
      = Passed (Ret q')
      /\ length (escaped_items q') = 1%nat
      /\ routed q' = 1%nat.
Proof.
  assert (Hi : 0 <= 0 < 2 ^ 31) by (split; [lia|reflexivity]).
  split; [|split; [|split]].
  - pose proof (findClosest_routes_once (E := Scene.env) (G := Gallery.shapes)
                  Gallery.nearest [Scene.ray_item F32.zero] 0 Scene.empty
                  (Scene.ray_item F32.zero) Hi eq_refl) as H.
    cbv zeta in H.
    change (Gallery.nearest (r_ray (Scene.ray_item F32.zero)) F32.zero
              F32.big_tMax)
      with (Some (OnTriangle (Gallery.triangles 0 [5]) (Gallery.state 0))) in H.
    change (reaches_dispatch (G := Gallery.shapes)
              (OnTriangle (Gallery.triangles 0 [5]) (Gallery.state 0)))
      with true in H.
    cbv iota in H. destruct H as [q' [Hq [Hr _]]].
    exists q'. split; [exact Hq|]. split; [exact Hr|].
    vm_compute in Hq. injection Hq as <-. reflexivity.
  - pose proof (findClosest_routes_once (E := Scene.env) (G := Gallery.shapes)
                  Gallery.nearest [Scene.ray_item Scene.two] 0 Scene.empty
                  (Scene.ray_item Scene.two) Hi eq_refl) as H.
    cbv zeta in H.
    change (Gallery.nearest (r_ray (Scene.ray_item Scene.two)) F32.zero
              F32.big_tMax)
      with (Some (OnTriangle (Gallery.triangles 0 []) (Gallery.state 7))) in H.
    change (reaches_dispatch (G := Gallery.shapes)
              (OnTriangle (Gallery.triangles 0 []) (Gallery.state 7)))
      with false in H.
    cbv iota in H. destruct H as [H|[H|H]];
      [vm_compute in H; discriminate|exact H|vm_compute in H; discriminate].
  - pose proof (findClosest_routes_once (E := Scene.env) (G := Gallery.shapes)
                  Gallery.nearest [Scene.ray_item F32.four] 0 Scene.empty
                  (Scene.ray_item F32.four) Hi eq_refl) as H.
    cbv zeta in H.
    change (Gallery.nearest (r_ray (Scene.ray_item F32.four)) F32.zero
              F32.big_tMax)
      with (Some (OnTriangle (Gallery.triangles 0 [5]) (Gallery.state 3))) in H.
    change (reaches_dispatch (G := Gallery.shapes)
              (OnTriangle (Gallery.triangles 0 [5]) (Gallery.state 3)))
      with false in H.
    cbv iota in H. destruct H as [H|[H|H]];
      [vm_compute in H; discriminate ..|exact H].
  - pose proof (findClosest_routes_once (E := Scene.env) (G := Gallery.shapes)
                  Gallery.nearest [Scene.ray_item F32.one] 0 Scene.empty
                  (Scene.ray_item F32.one) Hi eq_refl) as H.
    cbv zeta in H.
    change (Gallery.nearest (r_ray (Scene.ray_item F32.one)) F32.zero
              F32.big_tMax)
      with (@None Candidate) in H.
    cbv iota in H. destruct H as [q' [Hq [[Hr|[_ [He _]]] _]]];
      [|discriminate].
    exists q'. split; [exact Hq|]. split; [|exact Hr].
    vm_compute in Hq. injection Hq as <-. reflexivity.
Defined.

Section LaunchIndex.

Context {E : Externals} {G : Shapes}.

(** X2.  The launch index is an unsigned 32-bit number that each
    ray-generation program converts to [int].  An index below [2^31] that
    is at or past the size of the queue it indexes does nothing: each of
    the three programs returns with every queue and every pixel as it was.
    An index of [2^31] or more is a negative [int], which the guard of the
    closest-hit launch lets through: the launch reads its ray queue out of
    range. *)
Theorem launch_past_queue_end (fuel turns : nat) (closest : Closest)
  (rayQueue : list RayWorkItem) (launchIndex : Z) (q : Queues) :
  0 <= launchIndex < 2 ^ 32 ->
  (launchIndex < 2 ^ 31 ->
   Z.of_nat (length rayQueue) <= launchIndex ->
   findClosest_launch closest rayQueue launchIndex q = Passed (Ret q)
   /\ __raygen__findClosest rayQueue (int32 launchIndex) q = Ret q)
  /\ (launchIndex < 2 ^ 31 ->
      Z.of_nat (length (shadowRayQueue q)) <= launchIndex ->
      __raygen__shadow (int32 launchIndex) q = q
      /\ __raygen__shadow_Tr fuel turns rayQueue (int32 launchIndex) q = Ret q)
  /\ (2 ^ 31 <= launchIndex ->
      int32 launchIndex < 0
      /\ findClosest_launch closest rayQueue launchIndex q
         = Passed (Fault OutOfRange)).
Proof.
  intros Hi. split; [|split].
  - intros Hs H. rewrite (int32_small launchIndex) by lia.
    split.
    + unfold findClosest_launch. cbv zeta.
      rewrite (int32_small launchIndex) by lia.
      destruct (Z.leb_spec (Z.of_nat (length rayQueue)) launchIndex);
        [reflexivity|lia].
    + unfold __raygen__findClosest.
      rewrite (slot_past_end _ _ H). reflexivity.
  - intros Hs H. rewrite (int32_small launchIndex) by lia.
    unfold __raygen__shadow, __raygen__shadow_Tr.
    rewrite (slot_past_end _ _ H). split; reflexivity.
  - intros Hw.
    assert (H32 : 2 ^ 32 = 4294967296) by reflexivity.
    assert (Hneg : int32 launchIndex < 0)
      by (rewrite (int32_wraps launchIndex) by lia; lia).
    split; [exact Hneg|].
    unfold findClosest_launch. cbv zeta.
    destruct (Z.leb_spec (Z.of_nat (length rayQueue)) (int32 launchIndex));
      [lia|].
    unfold slot. destruct (Z.ltb_spec (int32 launchIndex) 0); [reflexivity|lia].
Qed.

End LaunchIndex.

(** Index 1 on queues of one item does nothing; index [2^32 - 1] is the
    [int] -1 and the closest-hit launch reads before its queue. *)
Lemma launch_past_queue_end_witness :
  (findClosest_launch (E := Scene.env) (G := Gallery.shapes) Gallery.nearest
     [Scene.ray_item Scene.two] 1 Scene.empty
   = Passed (Ret Scene.empty)
   /\ __raygen__findClosest (E := Scene.env) [Scene.ray_item Scene.two] 1
        Scene.empty
      = Ret Scene.empty)
  /\ (__raygen__shadow (E := Scene.env) 1 Scene.lit = Scene.lit
      /\ __raygen__shadow_Tr (E := Scene.env) 4 4 [] 1 Scene.lit
         = Ret Scene.lit)
  /\ (int32 4294967295 = -1
      /\ findClosest_launch (E := Scene.env) (G := Gallery.shapes)
           Gallery.nearest [Scene.ray_item Scene.two] 4294967295 Scene.empty
         = Passed (Fault OutOfRange)).
Proof.
  assert (H1 : 0 <= 1 < 2 ^ 32) by (split; [lia|reflexivity]).
  assert (H2 : 0 <= 4294967295 < 2 ^ 32) by (split; [lia|reflexivity]).
  split; [|split].
  - apply (proj1 (launch_past_queue_end (E := Scene.env) (G := Gallery.shapes)
                    4 4 Gallery.nearest [Scene.ray_item Scene.two] 1
                    Scene.empty H1)); [reflexivity|cbn; lia].
  - apply (proj1 (proj2 (launch_past_queue_end (E := Scene.env)
                           (G := Gallery.shapes) 4 4 Gallery.nearest [] 1
                           Scene.lit H1))); [reflexivity|cbn; lia].
  - split; [reflexivity|].
    apply (proj2 (proj2 (launch_past_queue_end (E := Scene.env)
                           (G := Gallery.shapes) 4 4 Gallery.nearest
                           [Scene.ray_item Scene.two] 4294967295 Scene.empty
                           H2))).
    cbv. discriminate.
Defined.

Section LaunchBounds.

Context {E : Externals}.

Lemma set_Ld_length (n : nat) (v : SampledSpectrum) (l : list ShadowRayWorkItem) :
  length (Q.set_Ld n v l) = length l.
Proof.
  revert n. induction l as [|w l IH]; intros [|n]; cbn; try reflexivity.
  rewrite IH. reflexivity.
Qed.

Lemma set_Ld_same (n : nat) (v : SampledSpectrum) (l : list ShadowRayWorkItem)
  (w : ShadowRayWorkItem) :
  nth_error l n = Some w ->
  nth_error (Q.set_Ld n v l) n
  = Some (mkShadowRayWorkItem (sr_ray w) (sr_tMax w) (sr_lambda w) v
            (sr_pdfUni w) (sr_pdfNEE w) (sr_pixelIndex w)).
Proof.
  revert n. induction l as [|a l IH]; intros [|n]; cbn; try discriminate.
  - intros H. inversion H. reflexivity.
  - apply IH.
Qed.

Lemma set_Ld_other (n m : nat) (v : SampledSpectrum)
  (l : list ShadowRayWorkItem) :
  n <> m -> nth_error (Q.set_Ld n v l) m = nth_error l m.
Proof.
  revert n m. induction l as [|a l IH]; intros [|n] [|m] H; cbn;
    try reflexivity; try congruence.
  apply IH. congruence.
Qed.

(** X3.  The binary shadow test writes one field of one slot.  For a shadow ray
    in the queue it stores [Ld / (pdfUni + pdfNEE).Average()] when the
    query misses and the zero spectrum when anything is hit; the item keeps
    its other fields, every other slot keeps its item, the queue keeps its
    size, and no other queue and no pixel is touched. *)
Theorem shadow_writes_one_slot (index : Z) (q : Queues) (sr : ShadowRayWorkItem) :
  slot (shadowRayQueue q) index = Some sr ->
  let v :=
    match optixTrace LaunchShadow (sr_ray sr) F32.shadow_tMin (sr_tMax sr) with
    | None => (sr_Ld sr /: Sp.Average (sr_pdfUni sr + sr_pdfNEE sr))%sp
    | Some _ => Sp.const F32.zero
    end in
  let q' := __raygen__shadow index q in
  slot (shadowRayQueue q') index
  = Some (mkShadowRayWorkItem (sr_ray sr) (sr_tMax sr) (sr_lambda sr) v
            (sr_pdfUni sr) (sr_pdfNEE sr) (sr_pixelIndex sr))
  /\ length (shadowRayQueue q') = length (shadowRayQueue q)
  /\ (forall j, j <> index ->
                slot (shadowRayQueue q') j = slot (shadowRayQueue q) j)
  /\ rayQueues0 q' = rayQueues0 q /\ rayQueues1 q' = rayQueues1 q
  /\ mediumSampleQueue q' = mediumSampleQueue q
  /\ mediumScatterQueue q' = mediumScatterQueue q
  /\ escapedRayQueue q' = escapedRayQueue q
  /\ mediumTransitionQueue q' = mediumTransitionQueue q
  /\ hitAreaLightQueue q' = hitAreaLightQueue q
  /\ basicEvalMaterialQueue q' = basicEvalMaterialQueue q
  /\ universalEvalMaterialQueue q' = universalEvalMaterialQueue q
  /\ pixelSampleState_L q' = pixelSampleState_L q.
Proof.
  intros Hs v q'. pose proof (slot_in_range _ _ _ Hs) as Hr.
  assert (Hq : q' = Q.with_shadow (Q.set_Ld (Z.to_nat index) v) q).
  { unfold q', __raygen__shadow. rewrite Hs. reflexivity. }
  rewrite Hq. queue_fields.
  split.
  - unfold slot in *. destruct (index <? 0); [discriminate|].
    apply set_Ld_same. exact Hs.
  - split; [apply set_Ld_length|]. split; [|repeat split; reflexivity].
    intros j Hj. unfold slot. destruct (j <? 0) eqn:Hn; [reflexivity|].
    apply set_Ld_other. lia.
Qed.

(** X4.  The two shadow kernels agree outside media.  For a shadow ray in no
    medium whose query misses in both launches, the transmittance kernel,
    given one turn, leaves exactly the queues the binary kernel leaves.
    When both queries find a hit with a material, the binary kernel stores
    the zero spectrum and the transmittance kernel stores zero divided by
    [(pdfUni + pdfNEE).Average()], which is the same number whenever that
    average is a number other than zero. *)
Theorem shadow_kernels_agree (fuel turns : nat) (rayQueue : list RayWorkItem)
  (index : Z) (q : Queues) (sr : ShadowRayWorkItem) :
  slot (shadowRayQueue q) index = Some sr ->
  is_set (medium (sr_ray sr)) = false ->
  let hitTr :=
    optixTrace LaunchShadowTr (sr_ray sr) F32.shadow_tMin (sr_tMax sr) in
  let hit :=
    optixTrace LaunchShadow (sr_ray sr) F32.shadow_tMin (sr_tMax sr) in
  let avg := Sp.Average (sr_pdfUni sr + sr_pdfNEE sr)%sp in
  (hitTr = None -> hit = None ->
   __raygen__shadow_Tr fuel (S turns) rayQueue index q
   = Ret (__raygen__shadow index q))
  /\ (forall i t, hitTr = Some (i, t) -> is_set (si_material i) = true ->
      hit <> None ->
      __raygen__shadow index q
      = Q.with_shadow (Q.set_Ld (Z.to_nat index) (Sp.const F32.zero)) q
      /\ __raygen__shadow_Tr fuel (S turns) rayQueue index q
         = Ret (Q.with_shadow
                  (Q.set_Ld (Z.to_nat index) (Sp.const F32.zero /: avg)%sp) q)
      /\ (nonzero_number avg = true ->
          Sp_same (Sp.const F32.zero) (Sp.const F32.zero /: avg)%sp)).
Proof.
  intros Hs Hm hitTr hit avg. split.
  - intros HTr Hh. unfold __raygen__shadow_Tr, __raygen__shadow. rewrite Hs.
    fold hit. rewrite Hh.
    unfold shadow_Tr_item. cbn [shadow_Tr_loop]. unfold shadow_Tr_turn.
    cbn [tr_ray]. fold hitTr. rewrite HTr, Hm. reflexivity.
  - intros i t HTr Hmat Hh. split; [|split].
    + unfold __raygen__shadow. rewrite Hs. fold hit.
      destruct hit; [reflexivity|congruence].
    + unfold __raygen__shadow_Tr. rewrite Hs.
      unfold shadow_Tr_item. cbn [shadow_Tr_loop]. unfold shadow_Tr_turn.
      cbn [tr_ray]. fold hitTr. rewrite HTr.
      unfold ProcessClosestIntersection, hit_context, ClosestHitContext_new.
      cbn [shadowRay bind ctx_material negb andb]. rewrite Hmat.
      reflexivity.
    + intros Hn. destruct avg as [s|s| |s m e]; try discriminate;
        repeat split; right; reflexivity.
Qed.

End LaunchBounds.

Lemma shadow_writes_one_slot_witness :
  slot (shadowRayQueue (__raygen__shadow (E := Scene.env) 0 Scene.walled)) 0
  = Some (mkShadowRayWorkItem (Scene.ray_from F32.one nullptr)
            Scene.three_quarters Scene.ones Scene.zeros Scene.ones Scene.ones 0)
  /\ length (shadowRayQueue (__raygen__shadow (E := Scene.env) 0 Scene.walled))
     = 1%nat.
Proof.
  destruct (shadow_writes_one_slot (E := Scene.env) 0 Scene.walled
              (Scene.shadow_item F32.one nullptr) eq_refl) as [H1 [H2 _]].
  split; [exact H1|exact H2].
Defined.

Lemma shadow_kernels_agree_witness :
  __raygen__shadow_Tr (E := Scene.env) 4 1 [] 0 Scene.lit
  = Ret (__raygen__shadow (E := Scene.env) 0 Scene.lit)
  /\ Sp_same Scene.zeros
       (Scene.zeros /: Sp.Average (Scene.ones + Scene.ones))%sp.
Proof.
  split.
  - exact (proj1 (shadow_kernels_agree (E := Scene.env) 4 0 [] 0 Scene.lit
                    (Scene.shadow_item F32.zero nullptr) eq_refl eq_refl)
             eq_refl eq_refl).
  - refine (proj2 (proj2 (proj2 (shadow_kernels_agree (E := Scene.env) 4 0 [] 0
                                   Scene.walled
                                   (Scene.shadow_item F32.one nullptr)
                                   eq_refl eq_refl)
                            (Scene.surface Scene.light_point 3 0) F32.one
                            eq_refl eq_refl _)) eq_refl).
    discriminate.
Defined.

Section Buffers.

Context {E : Externals}.

(** The two ray queues alternate: the queue of depth [depth + 1] is the
    one that depth [depth] does not use. *)
Lemma parity_flip (depth : Z) :
  (Z.land (depth + 1) 1 =? 0) = negb (Z.land depth 1 =? 0).
Proof.
  assert (Hl : forall a, Z.land a 1 = a mod 2).
  { intros a. apply (Z.land_ones a 1). lia. }
  rewrite !Hl.
  pose proof (Z.div_mod depth 2 ltac:(lia)).
  pose proof (Z.div_mod (depth + 1) 2 ltac:(lia)).
  pose proof (Z.mod_pos_bound depth 2 ltac:(lia)).
  pose proof (Z.mod_pos_bound (depth + 1) 2 ltac:(lia)).
  destruct (Z.eqb_spec ((depth + 1) mod 2) 0), (Z.eqb_spec (depth mod 2) 0);
    cbn [negb]; try reflexivity; lia.
Qed.

Lemma with_rayQueue_other (i : Z) (f : list RayWorkItem -> list RayWorkItem)
  (q : Queues) :
  rayQueues (Q.with_rayQueue (i + 1) f q) i = rayQueues q i.
Proof.
  unfold rayQueues, Q.with_rayQueue. rewrite parity_flip.
  destruct (Z.land i 1 =? 0); reflexivity.
Qed.

Lemma with_rayQueue_samples (i : Z) (f : list RayWorkItem -> list RayWorkItem)
  (q : Queues) :
  raySamples (rayQueues (Q.with_rayQueue i f q) i) = raySamples (rayQueues q i).
Proof.
  unfold rayQueues, Q.with_rayQueue.
  destruct (Z.land i 1 =? 0); reflexivity.
Qed.

Lemma with_rayQueue_frame (i : Z) (f : list RayWorkItem -> list RayWorkItem)
  (q : Queues) :
  let q' := Q.with_rayQueue i f q in
  mediumSampleQueue q' = mediumSampleQueue q
  /\ mediumScatterQueue q' = mediumScatterQueue q
  /\ escapedRayQueue q' = escapedRayQueue q
  /\ mediumTransitionQueue q' = mediumTransitionQueue q
  /\ hitAreaLightQueue q' = hitAreaLightQueue q
  /\ basicEvalMaterialQueue q' = basicEvalMaterialQueue q
  /\ universalEvalMaterialQueue q' = universalEvalMaterialQueue q
  /\ shadowRayQueue q' = shadowRayQueue q
  /\ pixelSampleState_L q' = pixelSampleState_L q.
Proof.
  unfold Q.with_rayQueue. destruct (Z.land i 1 =? 0);
    repeat split; reflexivity.
Qed.

Lemma with_rayQueue_twice (i : Z) (g : list RayWorkItem -> list RayWorkItem)
  (items : list RayWorkItem) (q : Queues) :
  Q.with_rayQueue i (fun _ => items) (Q.with_rayQueue i g q)
  = Q.with_rayQueue i (fun _ => items) q.
Proof.
  unfold Q.with_rayQueue. destruct (Z.land i 1 =? 0); reflexivity.
Qed.

Lemma with_rayQueue_id (i : Z) (q : Queues) :
  Q.with_rayQueue i (fun _ => rq_items (rayQueues q i)) q = q.
Proof.
  unfold Q.with_rayQueue, rayQueues.
  destruct q as [[] [] ? ? ? ? ? ? ? ? ?]. cbn.
  destruct (Z.land i 1 =? 0); reflexivity.
Qed.

Lemma ForAllQueued_snoc {A : Type} (f : A -> Queues -> exec Queues)
  (items : list A) (a : A) (q : Queues) :
  ForAllQueued f (items ++ [a]) q = (q1 <- ForAllQueued f items q ;; f a q1).
Proof. unfold ForAllQueued. rewrite fold_left_app. reflexivity. Qed.

Lemma ForAllQueued_cons {A : Type} (f : A -> Queues -> exec Queues)
  (items : list A) (a : A) (q q1 : Queues) :
  f a q = Ret q1 -> ForAllQueued f (a :: items) q = ForAllQueued f items q1.
Proof. intros H. unfold ForAllQueued. cbn [fold_left bind]. rewrite H. reflexivity. Qed.

(** What a kernel establishes: a relation between the queues at launch and
    the queues now, indexed by the number of items handled, that holds
    before the first item and that every item that returns keeps. *)
Lemma ForAllQueued_rule {A : Type} (f : A -> Queues -> exec Queues)
  (R : nat -> Queues -> Queues -> Prop) :
  (forall q, R O q q) ->
  (forall n a q q1 q2, R n q q1 -> f a q1 = Ret q2 -> R (S n) q q2) ->
  forall items q q',
    ForAllQueued f items q = Ret q' -> R (length items) q q'.
Proof.
  intros H0 HS items. induction items as [|a items IH] using rev_ind;
    intros q q'.
  - cbn. intros H. inversion H. apply H0.
  - rewrite ForAllQueued_snoc.
    destruct (ForAllQueued f items q) as [q1| |] eqn:H1; cbn [bind];
      try discriminate.
    intros H2. rewrite length_app, Nat.add_1_r. eapply HS; eauto.
Qed.

Lemma transitions_fold (depth : Z) (items : list MediumTransitionWorkItem) :
  forall q,
    ForAllQueued
      (fun mt q =>
         Ret (Q.with_rayQueue (depth + 1)
                (PushIndirect (mt_ray mt) (mt_piPrev mt) (mt_nPrev mt)
                   (mt_nsPrev mt) (mt_beta mt) (mt_pdfUni mt) (mt_pdfNEE mt)
                   (mt_lambda mt) (mt_etaScale mt) (mt_isSpecularBounce mt)
                   (mt_anyNonSpecularBounces mt) (mt_pixelIndex mt)) q))
      items q
    = Ret (Q.with_rayQueue (depth + 1)
             (fun _ => rq_items (rayQueues q (depth + 1))
                       ++ map ray_of_transition items) q).
Proof.
  induction items as [|a items IH]; intros q.
  - cbn [map]. rewrite app_nil_r, with_rayQueue_id. reflexivity.
  - erewrite ForAllQueued_cons; [|reflexivity].
    rewrite IH, with_rayQueue_items, with_rayQueue_twice.
    unfold PushIndirect, Q.Push. rewrite <- app_assoc. reflexivity.
Qed.

(** X5.  The medium-transition handler always returns, in whatever order
    it takes its items.  It appends to the ray queue of the next depth one
    ray per item of the medium-transition queue, each with the fields of
    its item: the rays that were queued stay at their places and the new
    ones follow them, in the order in which the items were handled, so as
    a rearrangement of the rays of the queue's items.  The ray queue of the
    current depth, the sample arrays and every other queue, the
    medium-transition queue included, are as they were. *)
Theorem transitions_become_rays (depth : Z) (q : Queues)
  (order : list MediumTransitionWorkItem) :
  Permutation order (mediumTransitionQueue q) ->
  HandleMediumTransitions depth q
  = HandleMediumTransitions_in depth (mediumTransitionQueue q) q
  /\ exists q' new,
      HandleMediumTransitions_in depth order q = Ret q'
      /\ rq_items (rayQueues q' (depth + 1))
         = rq_items (rayQueues q (depth + 1)) ++ new
      /\ new = map ray_of_transition order
      /\ Permutation new (map ray_of_transition (mediumTransitionQueue q))
      /\ raySamples (rayQueues q' (depth + 1))
         = raySamples (rayQueues q (depth + 1))
      /\ rayQueues q' depth = rayQueues q depth
      /\ mediumSampleQueue q' = mediumSampleQueue q
      /\ mediumScatterQueue q' = mediumScatterQueue q
      /\ escapedRayQueue q' = escapedRayQueue q
      /\ mediumTransitionQueue q' = mediumTransitionQueue q
      /\ hitAreaLightQueue q' = hitAreaLightQueue q
      /\ basicEvalMaterialQueue q' = basicEvalMaterialQueue q
      /\ universalEvalMaterialQueue q' = universalEvalMaterialQueue q
      /\ shadowRayQueue q' = shadowRayQueue q
      /\ pixelSampleState_L q' = pixelSampleState_L q.
Proof.
  intros Hp. split; [reflexivity|].
  eexists. exists (map ray_of_transition order). split.
  - unfold HandleMediumTransitions_in. apply transitions_fold.
  - split; [apply with_rayQueue_items|].
    split; [reflexivity|].
    split; [apply Permutation_map; exact Hp|].
    split; [apply with_rayQueue_samples|].
    split; [apply with_rayQueue_other|].
    apply with_rayQueue_frame.
Qed.

(** X6.  A ray that meets a boundary between media outside any medium, with no
    material bound to the surface, goes on.  The intersection kernel puts
    it into the medium-transition queue, and the handler, in whatever order
    it takes the items of that queue, then adds to the ray queue of the
    next depth a ray spawned at the hit in the old direction, among the
    rays of the items that were waiting; that ray item has the throughput,
    the densities, the wavelengths, the previous-vertex data, the bounce
    flags and the pixel of the ray item that was traced. *)
Theorem boundary_hit_continues (rayQueue : list RayWorkItem) (rayIndex depth : Z)
  (q : Queues) (r : RayWorkItem) (intr : SurfaceInteraction) (tHit : Float) :
  let onward :=
    mkRayWorkItem (SpawnRay (si_Interaction intr) (d (r_ray r)))
      (r_piPrev r) (r_nPrev r) (r_nsPrev r) (r_beta r) (r_pdfUni r)
      (r_pdfNEE r) (r_lambda r) (r_etaScale r) (r_isSpecularBounce r)
      (r_anyNonSpecularBounces r) (r_pixelIndex r) in
  slot rayQueue rayIndex = Some r ->
  optixTrace LaunchFindClosest (r_ray r) F32.zero F32.big_tMax
  = Some (intr, tHit) ->
  is_set (medium (r_ray r)) = false ->
  is_set (si_material intr) = false ->
  exists q1,
    __raygen__findClosest rayQueue rayIndex q = Ret q1
    /\ HandleMediumTransitions depth q1
       = HandleMediumTransitions_in depth (mediumTransitionQueue q1) q1
    /\ forall order,
        Permutation order (mediumTransitionQueue q1) ->
        exists q2 new,
          HandleMediumTransitions_in depth order q1 = Ret q2
          /\ rq_items (rayQueues q2 (depth + 1))
             = rq_items (rayQueues q (depth + 1)) ++ new
          /\ In onward new
          /\ Permutation new
               (map ray_of_transition (mediumTransitionQueue q) ++ [onward]).
Proof.
  intros onward Hs Ht Hm Hmat.
  set (q1 := enqueue_hit intr rayIndex r tHit
               (hit_context (ClosestHitContext_new (medium (r_ray r)) false)
                  intr) q).
  assert (Hq1 : mediumTransitionQueue q1
                = mediumTransitionQueue q
                  ++ [mkMediumTransitionWorkItem
                        (SpawnRay (si_Interaction intr) (d (r_ray r)))
                        (r_lambda r) (r_beta r) (r_pdfUni r) (r_pdfNEE r)
                        (r_piPrev r) (r_nPrev r) (r_nsPrev r)
                        (r_isSpecularBounce r) (r_anyNonSpecularBounces r)
                        (r_etaScale r) (r_pixelIndex r)]
                /\ forall i, rayQueues q1 i = rayQueues q i).
  { unfold q1, enqueue_hit, hit_context, ClosestHitContext_new.
    cbn [rayMedium ctx_mediumInterface]. rewrite Hm, Hmat. cbn [negb].
    split; reflexivity. }
  destruct Hq1 as [Hmt Hrq].
  exists q1. split; [|split; [reflexivity|]].
  - unfold __raygen__findClosest. rewrite Hs, Ht.
    unfold ProcessClosestIntersection.
    cbn [hit_context ClosestHitContext_new shadowRay rayMedium].
    rewrite Hs. reflexivity.
  - intros order Hp.
    assert (Hnew : Permutation (map ray_of_transition order)
                     (map ray_of_transition (mediumTransitionQueue q)
                      ++ [onward])).
    { apply (Permutation_map ray_of_transition) in Hp.
      rewrite Hmt, map_app in Hp. exact Hp. }
    eexists. exists (map ray_of_transition order). split.
    + unfold HandleMediumTransitions_in. apply transitions_fold.
    + rewrite with_rayQueue_items, Hrq.
      split; [reflexivity|]. split; [|exact Hnew].
      apply (Permutation_in onward (Permutation_sym Hnew)).
      apply in_or_app. right. left. reflexivity.
Qed.

End Buffers.

(** Two items wait; handled in queue order or the other way round they
    leave the same two rays in the ray queue of depth 1, the other way
    round. *)
Lemma transitions_become_rays_witness :
  exists q' q'',
    HandleMediumTransitions 0 Scene.two_transitions = Ret q'
    /\ HandleMediumTransitions_in 0
         [Scene.transition Scene.two; Scene.transition F32.one]
         Scene.two_transitions
       = Ret q''
    /\ rq_items (rayQueues q' 1)
       = [ray_of_transition (Scene.transition F32.one);
          ray_of_transition (Scene.transition Scene.two)]
    /\ rq_items (rayQueues q'' 1)
       = [ray_of_transition (Scene.transition Scene.two);
          ray_of_transition (Scene.transition F32.one)]
    /\ Permutation (rq_items (rayQueues q' 1)) (rq_items (rayQueues q'' 1)).
Proof.
  destruct (transitions_become_rays 0 Scene.two_transitions
              [Scene.transition F32.one; Scene.transition Scene.two]
              (Permutation_refl _))
    as [Hh [q' [new' [Hq' [Hi' [Hn' [Hp' _]]]]]]].
  destruct (transitions_become_rays 0 Scene.two_transitions
              [Scene.transition Scene.two; Scene.transition F32.one]
              (perm_swap _ _ _))
    as [_ [q'' [new'' [Hq'' [Hi'' [Hn'' [Hp'' _]]]]]]].
  exists q', q''.
  split; [rewrite Hh; exact Hq'|]. split; [exact Hq''|].
  change (0 + 1) with 1 in Hi', Hi''.
  rewrite Hi', Hi'', Hn', Hn''.
  split; [reflexivity|]. split; [reflexivity|].
  apply perm_swap.
Defined.

Lemma boundary_hit_continues_witness :
  exists q1 q2,
    __raygen__findClosest (E := Scene.env) [Scene.ray_item F32.four] 0
      Scene.empty = Ret q1
    /\ HandleMediumTransitions 0 q1 = Ret q2
    /\ rq_items (rayQueues q2 1)
       = [mkRayWorkItem
            (mkRay Scene.light_point Scene.up F32.zero nullptr)
            (Vec.to_fi Vec.zero3) Vec.zero3 Vec.zero3 Scene.ones Scene.ones
            Scene.ones Scene.ones F32.one false false 0].
Proof.
  destruct (boundary_hit_continues (E := Scene.env) [Scene.ray_item F32.four]
              0 0 Scene.empty (Scene.ray_item F32.four)
              (Scene.surface Scene.light_point 0 0) F32.one
              eq_refl eq_refl eq_refl eq_refl) as [q1 [H1 [Hh Hall]]].
  destruct (Hall (mediumTransitionQueue q1) (Permutation_refl _))
    as [q2 [new [H2 [H3 [_ Hp]]]]].
  exists q1, q2. split; [exact H1|]. split; [rewrite Hh; exact H2|].
  change (0 + 1) with 1 in H3. rewrite H3.
  vm_compute in Hp. apply Permutation_sym, Permutation_length_1_inv in Hp.
  rewrite Hp. vm_compute. reflexivity.
Defined.

Section MediumKernel.

Context {E : Externals}.
Variable maxDepth : Z.

(** A traversal scatters at most once: it leaves the scatter queue as it
    found it, or it has set [scattered] and pushed one item, which carries
    the throughput and the density the path has at that point. *)
Lemma traverse_scatter_queue (fuel : nat) (depth : Z)
  (ms : MediumSampleWorkItem) (q : Queues) (st : PathState) (rng : RNG) :
  traverse maxDepth fuel depth ms q = Ret (st, rng) ->
  (scattered st = false /\ scatterQ st = mediumScatterQueue q)
  \/ (scattered st = true
      /\ exists w, scatterQ st = mediumScatterQueue q ++ [w]
                   /\ sc_beta w = beta st /\ sc_pdfUni w = pdfUni st
                   /\ sc_rayIndex w = ms_rayIndex ms
                   /\ sc_pixelIndex w = ms_pixelIndex ms
                   /\ sc_medium w = medium (ms_ray ms)).
Proof.
  unfold traverse, SampleTmaj.
  apply (SampleTmaj_loop_rule (medium_callback maxDepth depth ms)
           (fun s => scattered s = false
                     /\ scatterQ s = mediumScatterQueue q)
           (fun s => (scattered s = false
                      /\ scatterQ s = mediumScatterQueue q)
                     \/ (scattered s = true
                         /\ exists w, scatterQ s = mediumScatterQueue q ++ [w]
                              /\ sc_beta w = beta s /\ sc_pdfUni w = pdfUni s
                              /\ sc_rayIndex w = ms_rayIndex ms
                              /\ sc_pixelIndex w = ms_pixelIndex ms
                              /\ sc_medium w = medium (ms_ray ms)))).
  - intros sample s r s' r' [Hs Hq].
    destruct (intr sample) as [i|] eqn:Hi.
    + rewrite (callback_collision maxDepth depth ms sample i s r Hi). cbv zeta.
      destruct (_ =? 0); [discriminate|].
      destruct (_ =? 1); [destruct (CastOrNullptr_HG _); discriminate|].
      intros H. inversion H; subst. cbn [scattered scatterQ]. auto.
    + unfold medium_callback. rewrite Hi. discriminate.
  - intros sample s r s' r' [Hs Hq].
    destruct (intr sample) as [i|] eqn:Hi.
    + rewrite (callback_collision maxDepth depth ms sample i s r Hi). cbv zeta.
      destruct (_ =? 0).
      * intros H. inversion H; subst. cbn [scattered scatterQ]. auto.
      * destruct (_ =? 1); [destruct (CastOrNullptr_HG _)|];
          intros H; inversion H; subst.
        right. cbn [scattered scatterQ beta pdfUni]. split; [reflexivity|].
        eexists. unfold Q.Push. rewrite Hq. split; [reflexivity|].
        repeat split; reflexivity.
    + unfold medium_callback. rewrite Hi.
      intros H. inversion H; subst. cbn [scattered scatterQ]. auto.
  - intros s H. left. exact H.
  - split; reflexivity.
Qed.

Lemma add_emission_frame (ms : MediumSampleWorkItem) (l : SampledSpectrum)
  (q : Queues) :
  let q' := add_emission ms l q in
  rayQueues0 q' = rayQueues0 q /\ rayQueues1 q' = rayQueues1 q
  /\ mediumSampleQueue q' = mediumSampleQueue q
  /\ mediumScatterQueue q' = mediumScatterQueue q
  /\ escapedRayQueue q' = escapedRayQueue q
  /\ mediumTransitionQueue q' = mediumTransitionQueue q
  /\ hitAreaLightQueue q' = hitAreaLightQueue q
  /\ basicEvalMaterialQueue q' = basicEvalMaterialQueue q
  /\ universalEvalMaterialQueue q' = universalEvalMaterialQueue q
  /\ shadowRayQueue q' = shadowRayQueue q
  /\ (forall j, j <> ms_pixelIndex ms ->
                pixelSampleState_L q' j = pixelSampleState_L q j).
Proof.
  unfold add_emission. destruct (Sp.nonzero l); queue_fields;
    repeat split; try reflexivity.
  intros j Hj. unfold Q.store. destruct (Z.eqb_spec j (ms_pixelIndex ms));
    [contradiction|reflexivity].
Qed.

(** How the queues that [route] writes grow: one of the three queues for
    surface work by one item; the escaped-ray queue by one item as well
    when the ray had no hit and the queue is configured; the queue of
    emitter hits by at most one. *)
Lemma route_counts (ms : MediumSampleWorkItem) (st : PathState) (q : Queues) :
  let q' := route ms st q in
  (length (mediumTransitionQueue q') + length (basicEvalMaterialQueue q')
   + length (universalEvalMaterialQueue q')
   = S (length (mediumTransitionQueue q) + length (basicEvalMaterialQueue q)
        + length (universalEvalMaterialQueue q)))%nat
  /\ (length (escaped_items q')
      = length (escaped_items q)
        + (if (ms_tMax ms =? F32.Infinity)%f32 then
             match escapedRayQueue q with Some _ => 1 | None => 0 end
           else 0))%nat
  /\ (length (hitAreaLightQueue q) <= length (hitAreaLightQueue q')
      <= S (length (hitAreaLightQueue q)))%nat.
Proof.
  unfold route, escaped_items.
  destruct (ms_tMax ms =? F32.Infinity)%f32, (is_set (ms_material ms)),
    (is_set (ms_areaLight ms)),
    (CanEvaluateTextures (ms_material ms)
     && (negb (is_set (GetDisplacement (ms_material ms)))
         || BasicCanEvaluate (GetDisplacement (ms_material ms))));
    cbn [negb]; queue_fields; destruct (escapedRayQueue q);
    queue_fields; unfold Q.Push; rewrite ?length_app; cbn [length];
    repeat split; lia.
Qed.

(** X7.  A medium-sample item that returns has either scattered or been routed,
    never both.  If it scattered, the medium-scatter queue has one item
    more, which carries the item's ray index and pixel, and no queue for
    surface work, emitter hits or escaped rays has changed.  If it did
    not, the medium-scatter queue is as it was and exactly one item went
    into the medium-transition queue or one of the two material queues;
    the escaped-ray queue has received an item as well exactly when the
    item's [tMax] is infinite and that queue is configured.  In both cases
    the ray queues, the medium-sample queue and the shadow-ray queue are
    untouched and no pixel but the item's own has changed. *)
Theorem medium_item_scatters_or_routes (fuel : nat) (depth : Z)
  (ms : MediumSampleWorkItem) (q q' : Queues) :
  sample_medium_item maxDepth fuel depth ms q = Ret q' ->
  (((exists w, mediumScatterQueue q' = mediumScatterQueue q ++ [w]
               /\ sc_rayIndex w = ms_rayIndex ms
               /\ sc_pixelIndex w = ms_pixelIndex ms)
    /\ escapedRayQueue q' = escapedRayQueue q
    /\ mediumTransitionQueue q' = mediumTransitionQueue q
    /\ hitAreaLightQueue q' = hitAreaLightQueue q
    /\ basicEvalMaterialQueue q' = basicEvalMaterialQueue q
    /\ universalEvalMaterialQueue q' = universalEvalMaterialQueue q)
   \/ (mediumScatterQueue q' = mediumScatterQueue q
       /\ (length (mediumTransitionQueue q') + length (basicEvalMaterialQueue q')
           + length (universalEvalMaterialQueue q')
           = S (length (mediumTransitionQueue q)
                + length (basicEvalMaterialQueue q)
                + length (universalEvalMaterialQueue q)))%nat
       /\ (length (escaped_items q')
           = length (escaped_items q)
             + (if (ms_tMax ms =? F32.Infinity)%f32 then
                  match escapedRayQueue q with Some _ => 1 | None => 0 end
                else 0))%nat
       /\ (length (hitAreaLightQueue q) <= length (hitAreaLightQueue q')
           <= S (length (hitAreaLightQueue q)))%nat))
  /\ rayQueues0 q' = rayQueues0 q /\ rayQueues1 q' = rayQueues1 q
  /\ mediumSampleQueue q' = mediumSampleQueue q
  /\ shadowRayQueue q' = shadowRayQueue q
  /\ (forall j, j <> ms_pixelIndex ms ->
                pixelSampleState_L q' j = pixelSampleState_L q j).
Proof.
  unfold sample_medium_item.
  destruct (traverse maxDepth fuel depth ms q) as [[st rng]| |] eqn:Ht;
    cbn [bind]; try discriminate.
  set (q0 := Q.with_mediumScatter (fun _ => scatterQ st) q).
  destruct (add_emission_frame ms (L st) q0)
    as [A1 [A2 [A3 [A4 [A5 [A6 [A7 [A8 [A9 [A10 A11]]]]]]]]]].
  cbv zeta in *.
  set (q1 := add_emission ms (L st) q0) in *.
  assert (Hq0 : mediumScatterQueue q0 = scatterQ st) by reflexivity.
  destruct (traverse_scatter_queue fuel depth ms q st rng Ht)
    as [[Hs Hq]|[Hs [w [Hq [_ [_ [Hr [Hp _]]]]]]]]; rewrite Hs; intros H;
    inversion H; subst q'; clear H.
  - destruct (route_frame ms st q1) as [F0 [F1 [F2 [F3 [F4 F5]]]]].
    destruct (route_counts ms st q1) as [C1 [C2 C3]]. cbv zeta in *.
    split.
    + right. rewrite F1, A4, Hq0, Hq. split; [reflexivity|].
      unfold escaped_items in *. rewrite A5, A6, A7, A8, A9 in *.
      destruct C3 as [C3 C4]. repeat split; assumption.
    + rewrite F4, F5, F2, F3, A1, A2, A3, A10. repeat split; try reflexivity.
      intros j Hj. rewrite F0. apply A11. exact Hj.
  - split.
    + left. rewrite A4, A5, A6, A7, A8, A9, Hq0. split.
      * exists w. repeat split; assumption.
      * repeat split; reflexivity.
    + rewrite A1, A2, A3, A10. repeat split; try reflexivity.
      exact A11.
Qed.

Lemma sample_direct_frame (ms : MediumScatterWorkItem) (rs : RaySamples)
  (sl : SampledLight) (q : Queues) :
  let q' := sample_direct ms rs sl q in
  rayQueues0 q' = rayQueues0 q /\ rayQueues1 q' = rayQueues1 q
  /\ mediumSampleQueue q' = mediumSampleQueue q
  /\ mediumScatterQueue q' = mediumScatterQueue q
  /\ escapedRayQueue q' = escapedRayQueue q
  /\ mediumTransitionQueue q' = mediumTransitionQueue q
  /\ hitAreaLightQueue q' = hitAreaLightQueue q
  /\ basicEvalMaterialQueue q' = basicEvalMaterialQueue q
  /\ universalEvalMaterialQueue q' = universalEvalMaterialQueue q
  /\ pixelSampleState_L q' = pixelSampleState_L q
  /\ (shadowRayQueue q' = shadowRayQueue q
      \/ exists w, shadowRayQueue q' = shadowRayQueue q ++ [w]
                   /\ o (sr_ray w) = sc_p ms
                   /\ medium (sr_ray w) = sc_medium ms
                   /\ sr_lambda w = sc_lambda ms
                   /\ sr_pixelIndex w = sc_pixelIndex ms).
Proof.
  unfold sample_direct.
  destruct (is_set (sl_light sl)); [|repeat split; try reflexivity; left; reflexivity].
  destruct (Light_SampleLi _ _ _ _) as [ls|];
    [|repeat split; try reflexivity; left; reflexivity].
  destruct (Sp.nonzero (ls_L ls));
    [|repeat split; try reflexivity; left; reflexivity].
  queue_fields. repeat split; try reflexivity.
  right. eexists. split; [reflexivity|]. repeat split; reflexivity.
Qed.

Lemma sample_indirect_frame (depth : Z) (ms : MediumScatterWorkItem)
  (rs : RaySamples) (q : Queues) :
  let q' := sample_indirect depth ms rs q in
  rayQueues q' depth = rayQueues q depth
  /\ raySamples (rayQueues q' (depth + 1)) = raySamples (rayQueues q (depth + 1))
  /\ (rq_items (rayQueues q' (depth + 1)) = rq_items (rayQueues q (depth + 1))
      \/ exists w, rq_items (rayQueues q' (depth + 1))
                   = rq_items (rayQueues q (depth + 1)) ++ [w]
                   /\ o (r_ray w) = sc_p ms
                   /\ medium (r_ray w) = sc_medium ms
                   /\ r_isSpecularBounce w = false
                   /\ r_anyNonSpecularBounces w = true
                   /\ r_etaScale w = sc_etaScale ms
                   /\ r_lambda w = sc_lambda ms
                   /\ r_pixelIndex w = sc_pixelIndex ms)
  /\ mediumSampleQueue q' = mediumSampleQueue q
  /\ mediumScatterQueue q' = mediumScatterQueue q
  /\ escapedRayQueue q' = escapedRayQueue q
  /\ mediumTransitionQueue q' = mediumTransitionQueue q
  /\ hitAreaLightQueue q' = hitAreaLightQueue q
  /\ basicEvalMaterialQueue q' = basicEvalMaterialQueue q
  /\ universalEvalMaterialQueue q' = universalEvalMaterialQueue q
  /\ shadowRayQueue q' = shadowRayQueue q
  /\ pixelSampleState_L q' = pixelSampleState_L q.
Proof.
  unfold sample_indirect.
  destruct (HG_Sample_p _ _ _) as [ps|];
    [|cbv zeta; repeat split; try reflexivity; left; reflexivity].
  destruct (russian_roulette _ _ _ _ _ _) as [[u n]|];
    [|cbv zeta; repeat split; try reflexivity; left; reflexivity].
  cbv zeta.
  split; [apply with_rayQueue_other|].
  split; [apply with_rayQueue_samples|].
  split; [|apply with_rayQueue_frame].
  right. rewrite with_rayQueue_items. unfold PushIndirect, Q.Push.
  eexists. split; [reflexivity|]. repeat split; reflexivity.
Qed.

(** X8.  A medium-scatter item reads its samples from the ray queue of the
    current depth and writes only to the shadow-ray queue and to the ray
    queue of the next depth.  It faults when the light sampler returns no
    light.  Otherwise it pushes at most one shadow ray and at most one
    continuation ray, both starting at the scattering point in the item's
    medium and carrying the item's wavelengths and pixel; the continuation
    ray is marked as a non-specular bounce.  The ray queue of the current
    depth, every other queue and every pixel are as they were. *)
Theorem scatter_item_effects (depth : Z) (ms : MediumScatterWorkItem)
  (q : Queues) :
  let rs := raySamples (rayQueues q depth) (sc_rayIndex ms) in
  let ctx := mkLightSampleContext (Vec.to_fi (sc_p ms)) Vec.zero3 Vec.zero3 in
  (lightSampler_Sample ctx (direct_uc (direct rs)) = None ->
   scatter_medium_item depth ms q = Fault EmptyOptional)
  /\ (lightSampler_Sample ctx (direct_uc (direct rs)) <> None ->
      exists q',
        scatter_medium_item depth ms q = Ret q'
        /\ rayQueues q' depth = rayQueues q depth
        /\ raySamples (rayQueues q' (depth + 1))
           = raySamples (rayQueues q (depth + 1))
        /\ (rq_items (rayQueues q' (depth + 1))
            = rq_items (rayQueues q (depth + 1))
            \/ exists w, rq_items (rayQueues q' (depth + 1))
                         = rq_items (rayQueues q (depth + 1)) ++ [w]
                         /\ o (r_ray w) = sc_p ms
                         /\ medium (r_ray w) = sc_medium ms
                         /\ r_isSpecularBounce w = false
                         /\ r_anyNonSpecularBounces w = true
                         /\ r_etaScale w = sc_etaScale ms
                         /\ r_lambda w = sc_lambda ms
                         /\ r_pixelIndex w = sc_pixelIndex ms)
        /\ (shadowRayQueue q' = shadowRayQueue q
            \/ exists w, shadowRayQueue q' = shadowRayQueue q ++ [w]
                         /\ o (sr_ray w) = sc_p ms
                         /\ medium (sr_ray w) = sc_medium ms
                         /\ sr_lambda w = sc_lambda ms
                         /\ sr_pixelIndex w = sc_pixelIndex ms)
        /\ mediumSampleQueue q' = mediumSampleQueue q
        /\ mediumScatterQueue q' = mediumScatterQueue q
        /\ escapedRayQueue q' = escapedRayQueue q
        /\ mediumTransitionQueue q' = mediumTransitionQueue q
        /\ hitAreaLightQueue q' = hitAreaLightQueue q
        /\ basicEvalMaterialQueue q' = basicEvalMaterialQueue q
        /\ universalEvalMaterialQueue q' = universalEvalMaterialQueue q
        /\ pixelSampleState_L q' = pixelSampleState_L q).
Proof.
  intros rs ctx. unfold scatter_medium_item. fold rs. fold ctx.
  destruct (lightSampler_Sample ctx (direct_uc (direct rs))) as [sl|].
  - split; [discriminate|]. intros _.
    eexists. split; [reflexivity|].
    destruct (sample_direct_frame ms rs sl q)
      as [D1 [D2 [D3 [D4 [D5 [D6 [D7 [D8 [D9 [D10 D11]]]]]]]]]].
    cbv zeta in *. set (q1 := sample_direct ms rs sl q) in *.
    destruct (sample_indirect_frame depth ms rs q1)
      as [I1 [I2 [I3 [I4 [I5 [I6 [I7 [I8 [I9 [I10 [I11 I12]]]]]]]]]]].
    cbv zeta in *.
    assert (Hrq : forall i, rayQueues q1 i = rayQueues q i).
    { intros i. unfold rayQueues. rewrite D1, D2. reflexivity. }
    rewrite I1, I2, I4, I5, I6, I7, I8, I9, I10, I11, I12, !Hrq,
      D3, D4, D5, D6, D7, D8, D9, D10.
    repeat (split; [reflexivity|]).
    split; [rewrite Hrq in I3; exact I3|].
    split; [exact D11|]. repeat split; reflexivity.
  - split; [reflexivity|]. intros H. contradiction.
Qed.

(** What the kernel needs of one item of each of its two loops. *)
Lemma sample_medium_item_counts (fuel : nat) (depth : Z)
  (ms : MediumSampleWorkItem) (q q' : Queues) :
  sample_medium_item maxDepth fuel depth ms q = Ret q' ->
  (length (mediumScatterQueue q') + length (mediumTransitionQueue q')
   + length (basicEvalMaterialQueue q') + length (universalEvalMaterialQueue q')
   = S (length (mediumScatterQueue q) + length (mediumTransitionQueue q)
        + length (basicEvalMaterialQueue q)
        + length (universalEvalMaterialQueue q)))%nat
  /\ rayQueues0 q' = rayQueues0 q /\ rayQueues1 q' = rayQueues1 q
  /\ mediumSampleQueue q' = mediumSampleQueue q
  /\ shadowRayQueue q' = shadowRayQueue q.
Proof.
  unfold sample_medium_item.
  destruct (traverse maxDepth fuel depth ms q) as [[st rng]| |] eqn:Ht;
    cbn [bind]; try discriminate.
  set (q0 := Q.with_mediumScatter (fun _ => scatterQ st) q).
  destruct (add_emission_frame ms (L st) q0)
    as [A1 [A2 [A3 [A4 [A5 [A6 [A7 [A8 [A9 [A10 A11]]]]]]]]]].
  cbv zeta in *.
  set (q1 := add_emission ms (L st) q0) in *.
  assert (Hq0 : mediumScatterQueue q0 = scatterQ st) by reflexivity.
  destruct (traverse_scatter_queue fuel depth ms q st rng Ht)
    as [[Hs Hq]|[Hs [w [Hq _]]]]; rewrite Hs; intros H;
    inversion H; subst q'; clear H.
  - destruct (route_frame ms st q1) as [F0 [F1 [F2 [F3 [F4 F5]]]]].
    destruct (route_counts ms st q1) as [C1 _]. cbv zeta in C1.
    rewrite F1, F2, F3, F4, F5, A1, A2, A3, A4, A10, Hq0, Hq.
    rewrite A6, A8, A9 in C1. repeat split; try reflexivity.
    change (mediumTransitionQueue q0) with (mediumTransitionQueue q) in C1.
    change (basicEvalMaterialQueue q0) with (basicEvalMaterialQueue q) in C1.
    change (universalEvalMaterialQueue q0)
      with (universalEvalMaterialQueue q) in C1.
    lia.
  - rewrite A1, A2, A3, A4, A6, A8, A9, A10, Hq0, Hq, length_app.
    repeat split; try reflexivity.
    change (mediumTransitionQueue q0) with (mediumTransitionQueue q).
    change (basicEvalMaterialQueue q0) with (basicEvalMaterialQueue q).
    change (universalEvalMaterialQueue q0) with (universalEvalMaterialQueue q).
    cbn [length]. lia.
Qed.

Lemma scatter_medium_item_growth (depth : Z) (ms : MediumScatterWorkItem)
  (q q' : Queues) :
  scatter_medium_item depth ms q = Ret q' ->
  rayQueues q' depth = rayQueues q depth
  /\ (length (rq_items (rayQueues q (depth + 1)))
      <= length (rq_items (rayQueues q' (depth + 1)))
      <= S (length (rq_items (rayQueues q (depth + 1)))))%nat
  /\ (length (shadowRayQueue q) <= length (shadowRayQueue q')
      <= S (length (shadowRayQueue q)))%nat
  /\ mediumSampleQueue q' = mediumSampleQueue q
  /\ mediumScatterQueue q' = mediumScatterQueue q
  /\ mediumTransitionQueue q' = mediumTransitionQueue q
  /\ basicEvalMaterialQueue q' = basicEvalMaterialQueue q
  /\ universalEvalMaterialQueue q' = universalEvalMaterialQueue q.
Proof.
  unfold scatter_medium_item.
  destruct (lightSampler_Sample _ _) as [sl|]; [|discriminate].
  intros H. inversion H; subst q'; clear H.
  set (rs := raySamples (rayQueues q depth) (sc_rayIndex ms)).
  destruct (sample_direct_frame ms rs sl q)
    as [D1 [D2 [D3 [D4 [D5 [D6 [D7 [D8 [D9 [D10 D11]]]]]]]]]].
  cbv zeta in *. set (q1 := sample_direct ms rs sl q) in *.
  destruct (sample_indirect_frame depth ms rs q1)
    as [I1 [I2 [I3 [I4 [I5 [I6 [I7 [I8 [I9 [I10 [I11 I12]]]]]]]]]]].
  cbv zeta in *.
  assert (Hrq : forall i, rayQueues q1 i = rayQueues q i).
  { intros i. unfold rayQueues. rewrite D1, D2. reflexivity. }
  rewrite Hrq in *.
  rewrite I1, I4, I5, I7, I9, I10, I11, D3, D4, D6, D8, D9.
  repeat split; try reflexivity.
  - destruct I3 as [I3|[w [I3 _]]]; rewrite I3, ?length_app; cbn [length]; lia.
  - destruct I3 as [I3|[w [I3 _]]]; rewrite I3, ?length_app; cbn [length]; lia.
  - destruct D11 as [D11|[w [D11 _]]]; rewrite D11, ?length_app; cbn [length];
      lia.
  - destruct D11 as [D11|[w [D11 _]]]; rewrite D11, ?length_app; cbn [length];
      lia.
Qed.

(** The same for a relation that is told which items have been handled. *)
Lemma ForAllQueued_done_rule {A : Type} (f : A -> Queues -> exec Queues)
  (R : list A -> Queues -> Queues -> Prop) :
  (forall q, R [] q q) ->
  (forall done a q q1 q2, R done q q1 -> f a q1 = Ret q2 -> R (done ++ [a]) q q2) ->
  forall items q q',
    ForAllQueued f items q = Ret q' -> R items q q'.
Proof.
  intros H0 HS items. induction items as [|a items IH] using rev_ind;
    intros q q'.
  - cbn. intros H. inversion H. apply H0.
  - rewrite ForAllQueued_snoc.
    destruct (ForAllQueued f items q) as [q1| |] eqn:H1; cbn [bind];
      try discriminate.
    intros H2. eapply HS; eauto.
Qed.

Lemma unbounded_snoc (items : list MediumSampleWorkItem)
  (ms : MediumSampleWorkItem) :
  length (unbounded (items ++ [ms]))
  = (length (unbounded items)
     + (if (ms_tMax ms =? F32.Infinity)%f32 then 1 else 0))%nat.
Proof.
  unfold unbounded. rewrite filter_app, length_app. cbn [filter].
  destruct (ms_tMax ms =? F32.Infinity)%f32; reflexivity.
Qed.

(** What one medium-sample item does to the escaped-ray queue and to the
    queue of emitter hits. *)
Lemma sample_medium_item_escapes (fuel : nat) (depth : Z)
  (ms : MediumSampleWorkItem) (q q' : Queues) :
  sample_medium_item maxDepth fuel depth ms q = Ret q' ->
  (length (escaped_items q) <= length (escaped_items q')
   <= length (escaped_items q)
      + (if (ms_tMax ms =? F32.Infinity)%f32 then 1 else 0))%nat
  /\ (escapedRayQueue q = None -> escapedRayQueue q' = None)
  /\ (length (hitAreaLightQueue q) <= length (hitAreaLightQueue q')
      <= S (length (hitAreaLightQueue q)))%nat.
Proof.
  unfold sample_medium_item.
  destruct (traverse maxDepth fuel depth ms q) as [[st rng]| |] eqn:Ht;
    cbn [bind]; try discriminate.
  set (q0 := Q.with_mediumScatter (fun _ => scatterQ st) q).
  destruct (add_emission_frame ms (L st) q0)
    as [_ [_ [_ [_ [A5 [_ [A7 _]]]]]]].
  cbv zeta in *.
  set (q1 := add_emission ms (L st) q0) in *.
  change (escapedRayQueue q0) with (escapedRayQueue q) in A5.
  change (hitAreaLightQueue q0) with (hitAreaLightQueue q) in A7.
  assert (He : escaped_items q1 = escaped_items q)
    by (unfold escaped_items; rewrite A5; reflexivity).
  destruct (scattered st); intros H; inversion H; subst q'; clear H.
  - rewrite He, A5, A7. repeat split; try lia. auto.
  - destruct (route_counts ms st q1) as [_ [C2 C3]]. cbv zeta in C2, C3.
    rewrite He, A5 in C2. rewrite A7 in C3.
    split; [|split; [|exact C3]].
    + rewrite C2. destruct (ms_tMax ms =? F32.Infinity)%f32; [|lia].
      destruct (escapedRayQueue q); lia.
    + intros Hn. unfold route.
      destruct (ms_tMax ms =? F32.Infinity)%f32, (is_set (ms_material ms)),
        (is_set (ms_areaLight ms)),
        (CanEvaluateTextures (ms_material ms)
         && (negb (is_set (GetDisplacement (ms_material ms)))
             || BasicCanEvaluate (GetDisplacement (ms_material ms))));
        cbn [negb]; queue_fields; rewrite A5, Hn; reflexivity.
Qed.

Lemma scatter_medium_item_others (depth : Z) (ms : MediumScatterWorkItem)
  (q q' : Queues) :
  scatter_medium_item depth ms q = Ret q' ->
  escapedRayQueue q' = escapedRayQueue q
  /\ hitAreaLightQueue q' = hitAreaLightQueue q.
Proof.
  unfold scatter_medium_item.
  destruct (lightSampler_Sample _ _) as [sl|]; [|discriminate].
  intros H. inversion H; subst q'; clear H.
  set (rs := raySamples (rayQueues q depth) (sc_rayIndex ms)).
  destruct (sample_direct_frame ms rs sl q)
    as [_ [_ [_ [_ [D5 [_ [D7 _]]]]]]].
  cbv zeta in *. set (q1 := sample_direct ms rs sl q) in *.
  destruct (sample_indirect_frame depth ms rs q1)
    as [_ [_ [_ [_ [_ [I6 [_ [I8 _]]]]]]]].
  cbv zeta in *. rewrite I6, I8, D5, D7. split; reflexivity.
Qed.

(** X9.  The counts of the medium-sample kernel.  When the kernel returns,
    the medium-scatter, medium-transition and the two material queues
    together hold exactly one item more for each item of the medium-sample
    queue.  The escaped-ray queue is not among them: an item whose ray met
    nothing and that does not scatter is pushed there as well as into the
    medium-transition or a material queue, so the escaped-ray queue grows
    by at most the number of items with an infinite [tMax], and stays
    unconfigured if it was.  The queue of emitter hits grows by at most
    one for each item.  The kernel does not touch the medium-sample queue
    or the ray queue of the current depth, and it pushes at most one
    continuation ray and one shadow ray for each item of the
    medium-scatter queue. *)
Theorem medium_kernel_item_counts (fuel : nat) (depth : Z) (q q' : Queues) :
  SampleMediumInteraction maxDepth fuel depth q = Ret q' ->
  (length (mediumScatterQueue q') + length (mediumTransitionQueue q')
   + length (basicEvalMaterialQueue q') + length (universalEvalMaterialQueue q')
   = length (mediumScatterQueue q) + length (mediumTransitionQueue q)
     + length (basicEvalMaterialQueue q) + length (universalEvalMaterialQueue q)
     + length (mediumSampleQueue q))%nat
  /\ (length (escaped_items q) <= length (escaped_items q')
      <= length (escaped_items q)
         + length (unbounded (mediumSampleQueue q)))%nat
  /\ (escapedRayQueue q = None -> escapedRayQueue q' = None)
  /\ (length (hitAreaLightQueue q) <= length (hitAreaLightQueue q')
      <= length (hitAreaLightQueue q) + length (mediumSampleQueue q))%nat
  /\ mediumSampleQueue q' = mediumSampleQueue q
  /\ rayQueues q' depth = rayQueues q depth
  /\ (length (rq_items (rayQueues q (depth + 1)))
      <= length (rq_items (rayQueues q' (depth + 1)))
      <= length (rq_items (rayQueues q (depth + 1)))
         + length (mediumScatterQueue q'))%nat
  /\ (length (shadowRayQueue q) <= length (shadowRayQueue q')
      <= length (shadowRayQueue q) + length (mediumScatterQueue q'))%nat.
Proof.
  unfold SampleMediumInteraction.
  destruct (ForAllQueued (sample_medium_item maxDepth fuel depth)
              (mediumSampleQueue q) q) as [q1| |] eqn:H1; cbn [bind];
    try discriminate.
  intros H2.
  pose proof (ForAllQueued_done_rule (sample_medium_item maxDepth fuel depth)
    (fun done q q1 =>
       (length (mediumScatterQueue q1) + length (mediumTransitionQueue q1)
        + length (basicEvalMaterialQueue q1)
        + length (universalEvalMaterialQueue q1)
        = length (mediumScatterQueue q) + length (mediumTransitionQueue q)
          + length (basicEvalMaterialQueue q)
          + length (universalEvalMaterialQueue q) + length done)%nat
       /\ mediumSampleQueue q1 = mediumSampleQueue q
       /\ rayQueues0 q1 = rayQueues0 q /\ rayQueues1 q1 = rayQueues1 q
       /\ shadowRayQueue q1 = shadowRayQueue q
       /\ (length (escaped_items q) <= length (escaped_items q1)
           <= length (escaped_items q) + length (unbounded done))%nat
       /\ (escapedRayQueue q = None -> escapedRayQueue q1 = None)
       /\ (length (hitAreaLightQueue q) <= length (hitAreaLightQueue q1)
           <= length (hitAreaLightQueue q) + length done)%nat)) as R1.
  specialize (R1 ltac:(intros; cbn [length unbounded filter];
                       repeat split; try reflexivity; try lia; auto)).
  assert (S1 : forall done a q q1 q2,
             (length (mediumScatterQueue q1) + length (mediumTransitionQueue q1)
              + length (basicEvalMaterialQueue q1)
              + length (universalEvalMaterialQueue q1)
              = length (mediumScatterQueue q) + length (mediumTransitionQueue q)
                + length (basicEvalMaterialQueue q)
                + length (universalEvalMaterialQueue q) + length done)%nat
             /\ mediumSampleQueue q1 = mediumSampleQueue q
             /\ rayQueues0 q1 = rayQueues0 q /\ rayQueues1 q1 = rayQueues1 q
             /\ shadowRayQueue q1 = shadowRayQueue q
             /\ (length (escaped_items q) <= length (escaped_items q1)
                 <= length (escaped_items q) + length (unbounded done))%nat
             /\ (escapedRayQueue q = None -> escapedRayQueue q1 = None)
             /\ (length (hitAreaLightQueue q) <= length (hitAreaLightQueue q1)
                 <= length (hitAreaLightQueue q) + length done)%nat ->
             sample_medium_item maxDepth fuel depth a q1 = Ret q2 ->
             (length (mediumScatterQueue q2) + length (mediumTransitionQueue q2)
              + length (basicEvalMaterialQueue q2)
              + length (universalEvalMaterialQueue q2)
              = length (mediumScatterQueue q) + length (mediumTransitionQueue q)
                + length (basicEvalMaterialQueue q)
                + length (universalEvalMaterialQueue q)
                + length (done ++ [a]))%nat
             /\ mediumSampleQueue q2 = mediumSampleQueue q
             /\ rayQueues0 q2 = rayQueues0 q /\ rayQueues1 q2 = rayQueues1 q
             /\ shadowRayQueue q2 = shadowRayQueue q
             /\ (length (escaped_items q) <= length (escaped_items q2)
                 <= length (escaped_items q)
                    + length (unbounded (done ++ [a])))%nat
             /\ (escapedRayQueue q = None -> escapedRayQueue q2 = None)
             /\ (length (hitAreaLightQueue q) <= length (hitAreaLightQueue q2)
                 <= length (hitAreaLightQueue q) + length (done ++ [a]))%nat).
  { intros done a p p1 p2 [Hc [Hm [Hr0 [Hr1 [Hsh [He [Hn Hh]]]]]]] Hf.
    destruct (sample_medium_item_counts fuel depth a p1 p2 Hf)
      as [Hcount [G0 [G1 [G2 G3]]]].
    destruct (sample_medium_item_escapes fuel depth a p1 p2 Hf)
      as [Ge [Gn Gh]].
    rewrite G0, G1, G2, G3, unbounded_snoc, length_app. cbn [length].
    repeat split; try assumption; try lia. auto. }
  specialize (R1 S1 _ _ _ H1). clear S1.
  destruct R1 as [Hc [Hm [Hr0 [Hr1 [Hsh [He [Hnone Hh]]]]]]].
  pose proof (ForAllQueued_rule (scatter_medium_item depth)
    (fun n q q2 =>
       rayQueues q2 depth = rayQueues q depth
       /\ (length (rq_items (rayQueues q (depth + 1)))
           <= length (rq_items (rayQueues q2 (depth + 1)))
           <= length (rq_items (rayQueues q (depth + 1))) + n)%nat
       /\ (length (shadowRayQueue q) <= length (shadowRayQueue q2)
           <= length (shadowRayQueue q) + n)%nat
       /\ mediumSampleQueue q2 = mediumSampleQueue q
       /\ mediumScatterQueue q2 = mediumScatterQueue q
       /\ mediumTransitionQueue q2 = mediumTransitionQueue q
       /\ basicEvalMaterialQueue q2 = basicEvalMaterialQueue q
       /\ universalEvalMaterialQueue q2 = universalEvalMaterialQueue q
       /\ escapedRayQueue q2 = escapedRayQueue q
       /\ hitAreaLightQueue q2 = hitAreaLightQueue q)) as R2.
  specialize (R2 ltac:(intros; repeat split; try reflexivity; lia)).
  assert (S2 : forall n a q q1 q2,
             rayQueues q1 depth = rayQueues q depth
             /\ (length (rq_items (rayQueues q (depth + 1)))
                 <= length (rq_items (rayQueues q1 (depth + 1)))
                 <= length (rq_items (rayQueues q (depth + 1))) + n)%nat
             /\ (length (shadowRayQueue q) <= length (shadowRayQueue q1)
                 <= length (shadowRayQueue q) + n)%nat
             /\ mediumSampleQueue q1 = mediumSampleQueue q
             /\ mediumScatterQueue q1 = mediumScatterQueue q
             /\ mediumTransitionQueue q1 = mediumTransitionQueue q
             /\ basicEvalMaterialQueue q1 = basicEvalMaterialQueue q
             /\ universalEvalMaterialQueue q1 = universalEvalMaterialQueue q
             /\ escapedRayQueue q1 = escapedRayQueue q
             /\ hitAreaLightQueue q1 = hitAreaLightQueue q ->
             scatter_medium_item depth a q1 = Ret q2 ->
             rayQueues q2 depth = rayQueues q depth
             /\ (length (rq_items (rayQueues q (depth + 1)))
                 <= length (rq_items (rayQueues q2 (depth + 1)))
                 <= length (rq_items (rayQueues q (depth + 1))) + S n)%nat
             /\ (length (shadowRayQueue q) <= length (shadowRayQueue q2)
                 <= length (shadowRayQueue q) + S n)%nat
             /\ mediumSampleQueue q2 = mediumSampleQueue q
             /\ mediumScatterQueue q2 = mediumScatterQueue q
             /\ mediumTransitionQueue q2 = mediumTransitionQueue q
             /\ basicEvalMaterialQueue q2 = basicEvalMaterialQueue q
             /\ universalEvalMaterialQueue q2 = universalEvalMaterialQueue q
             /\ escapedRayQueue q2 = escapedRayQueue q
             /\ hitAreaLightQueue q2 = hitAreaLightQueue q).
  { intros n a p p1 p2 [Hd [Hn [Hs [Hms [Hsc [Ht [Hb [Hu [Hes Hal]]]]]]]]] Hf.
    destruct (scatter_medium_item_growth depth a p1 p2 Hf)
      as [E1 [E3 [E4 [E5 [E6 [E8 [E10 E11]]]]]]].
    destruct (scatter_medium_item_others depth a p1 p2 Hf) as [O1 O2].
    rewrite E1, E5, E6, E8, E10, E11, O1, O2.
    repeat split; try assumption; lia. }
  specialize (R2 S2 _ _ _ H2). clear S2.
  destruct R2 as [Hd [Hn [Hs [Hms [Hsc [Ht [Hb [Hu [Hes Hal]]]]]]]]].
  assert (Hrq : forall i, rayQueues q1 i = rayQueues q i).
  { intros i. unfold rayQueues. rewrite Hr0, Hr1. reflexivity. }
  assert (Hei : escaped_items q' = escaped_items q1)
    by (unfold escaped_items; rewrite Hes; reflexivity).
  rewrite Hrq in *. rewrite Hsh in *.
  rewrite Hsc, Ht, Hb, Hu, Hms, Hd, Hei, Hes, Hal.
  repeat split; try assumption; lia.
Qed.

End MediumKernel.

Lemma medium_item_scatters_or_routes_witness :
  exists q',
    sample_medium_item (E := Scene.env) 5 4 0
      (Scene.ms_item 3 Scene.ones Scene.ones Scene.ones 0 0) Scene.empty
    = Ret q'
    /\ length (mediumScatterQueue q') = 1%nat
    /\ mediumSampleQueue q' = []
    /\ shadowRayQueue q' = [].
Proof.
  destruct (sample_medium_item (E := Scene.env) 5 4 0
              (Scene.ms_item 3 Scene.ones Scene.ones Scene.ones 0 0)
              Scene.empty) as [q'| |] eqn:Hq;
    [|vm_compute in Hq; discriminate ..].
  exists q'. split; [reflexivity|].
  destruct (medium_item_scatters_or_routes (E := Scene.env) 5 4 0 _ _ _ Hq)
    as [_ [_ [_ [H2 [H3 _]]]]].
  split; [|split; [exact H2|exact H3]].
  vm_compute in Hq. injection Hq as <-. reflexivity.
Defined.

Lemma scatter_item_effects_witness :
  exists q',
    scatter_medium_item (E := Scene.env) 0 (Scene.sc_item 0) Scene.empty = Ret q'
    /\ rayQueues q' 0 = rayQueues Scene.empty 0
    /\ mediumScatterQueue q' = [].
Proof.
  destruct (proj2 (scatter_item_effects (E := Scene.env) 0 (Scene.sc_item 0)
                     Scene.empty) ltac:(discriminate))
    as [q' [H0 [H1 [_ [_ [_ [_ [H2 _]]]]]]]].
  exists q'. split; [exact H0|]. split; [exact H1|exact H2].
Defined.

(** A queue of three items: one scatters, one is absorbed and one, whose
    ray met nothing, leaves the medium.  The four queues hold three items
    more, and the escaped-ray queue holds the third item as well. *)
Lemma medium_kernel_item_counts_witness :
  exists q',
    SampleMediumInteraction (E := Scene.env) 5 4 0
      (Q.with_mediumSample
         (fun _ => [Scene.ms_item 3 Scene.ones Scene.ones Scene.ones 0 0;
                    Scene.absorbed_item; Scene.escaping_item]) Scene.empty)
    = Ret q'
    /\ (length (mediumScatterQueue q') + length (mediumTransitionQueue q')
        + length (basicEvalMaterialQueue q')
        + length (universalEvalMaterialQueue q') = 3)%nat
    /\ length (escaped_items q') = 1%nat
    /\ length (mediumSampleQueue q') = 3%nat.
Proof.
  destruct (SampleMediumInteraction (E := Scene.env) 5 4 0
              (Q.with_mediumSample
                 (fun _ => [Scene.ms_item 3 Scene.ones Scene.ones Scene.ones 0 0;
                            Scene.absorbed_item; Scene.escaping_item])
                 Scene.empty))
    as [q'| |] eqn:Hq; [|vm_compute in Hq; discriminate ..].
  exists q'. split; [reflexivity|].
  destruct (medium_kernel_item_counts (E := Scene.env) 5 4 0 _ _ Hq)
    as [H1 [_ [_ [_ [H2 _]]]]].
  split; [exact H1|]. split; [|rewrite H2; reflexivity].
  vm_compute in Hq. injection Hq as <-. reflexivity.
Defined.

Section Payload.

Lemma lor_halves (hi lo : Z) :
  0 <= lo < 2 ^ 32 -> Z.lor (Z.shiftl hi 32) lo = hi * 2 ^ 32 + lo.
Proof.
  intros Hlo.
  assert (Hd : Z.land (Z.shiftl hi 32) lo = 0).
  { apply Z.bits_inj'. intros n Hn. rewrite Z.land_spec, Z.bits_0.
    destruct (Z.ltb_spec n 32).
    - rewrite Z.shiftl_spec_low by lia. reflexivity.
    - replace lo with (lo mod 2 ^ 32) by (apply Z.mod_small; lia).
      rewrite Z.mod_pow2_bits_high by lia. apply andb_false_r. }
  rewrite <- Z.lxor_lor by exact Hd.
  rewrite <- Z.add_nocarry_lxor by exact Hd.
  rewrite Z.shiftl_mul_pow2 by lia. reflexivity.
Qed.

(** X10.  The two payload registers carry a 64-bit address without loss: the
    address that [getPayload] makes of the two halves that [packPointer0]
    and [packPointer1] take of an address is that address, and the halves
    of the address made of two 32-bit registers are those registers. *)
Theorem payload_round_trip :
  (forall ptr, 0 <= ptr < 2 ^ 64 ->
     getPayload (packPointer0 ptr) (packPointer1 ptr) = ptr
     /\ 0 <= packPointer0 ptr < 2 ^ 32
     /\ 0 <= packPointer1 ptr < 2 ^ 32)
  /\ (forall p0 p1, 0 <= p0 < 2 ^ 32 -> 0 <= p1 < 2 ^ 32 ->
        packPointer0 (getPayload p0 p1) = p0
        /\ packPointer1 (getPayload p0 p1) = p1
        /\ 0 <= getPayload p0 p1 < 2 ^ 64).
Proof.
  assert (H32 : 2 ^ 32 = 4294967296) by reflexivity.
  assert (H64 : 2 ^ 64 = 18446744073709551616) by reflexivity.
  split.
  - intros ptr Hp. unfold getPayload, packPointer0, packPointer1, uint32, uint64.
    cbv zeta. rewrite (Z.mod_small ptr (2 ^ 64)) by exact Hp.
    rewrite Z.shiftr_div_pow2 by lia.
    pose proof (Z.div_mod ptr (2 ^ 32) ltac:(lia)) as Hdm.
    pose proof (Z.mod_pos_bound ptr (2 ^ 32) ltac:(lia)) as Hm.
    assert (Hq : 0 <= ptr / 2 ^ 32 < 2 ^ 32).
    { split; [apply Z.div_pos; lia|apply Z.div_lt_upper_bound; lia]. }
    rewrite (Z.mod_small (ptr / 2 ^ 32)) by exact Hq.
    rewrite (Z.mod_small (ptr / 2 ^ 32) (2 ^ 64)) by lia.
    rewrite (Z.mod_small (ptr mod 2 ^ 32) (2 ^ 64)) by lia.
    rewrite Z.shiftl_mul_pow2 by lia.
    rewrite (Z.mod_small (ptr / 2 ^ 32 * 2 ^ 32)) by lia.
    rewrite <- Z.shiftl_mul_pow2 by lia.
    rewrite lor_halves by exact Hm.
    split; [lia|]. split; assumption.
  - intros p0 p1 H0 H1.
    unfold getPayload, packPointer0, packPointer1, uint32, uint64. cbv zeta.
    rewrite (Z.mod_small p0 (2 ^ 64)) by lia.
    rewrite (Z.mod_small p1 (2 ^ 64)) by lia.
    rewrite Z.shiftl_mul_pow2 by lia.
    rewrite (Z.mod_small (p0 * 2 ^ 32)) by lia.
    rewrite <- Z.shiftl_mul_pow2 by lia.
    rewrite lor_halves by exact H1.
    rewrite (Z.mod_small (p0 * 2 ^ 32 + p1)) by lia.
    rewrite Z.shiftr_div_pow2 by lia.
    assert (Hq : (p0 * 2 ^ 32 + p1) / 2 ^ 32 = p0).
    { symmetry. apply (Z.div_unique _ _ p0 p1); lia. }
    assert (Hr : (p0 * 2 ^ 32 + p1) mod 2 ^ 32 = p1).
    { symmetry. apply (Z.mod_unique _ _ p0 p1); lia. }
    rewrite Hq, Hr, (Z.mod_small p0) by lia. repeat split; lia.
Qed.

End Payload.

Lemma payload_round_trip_witness :
  getPayload (packPointer0 140737488355327) (packPointer1 140737488355327)
  = 140737488355327
  /\ packPointer0 (getPayload 32767 4294967295) = 32767.
Proof.
  split.
  - apply (proj1 payload_round_trip 140737488355327). lia.
  - apply (proj2 payload_round_trip 32767 4294967295); lia.
Defined.

Section Triangles.

Context {E : Externals} {G : Shapes}.

Lemma ProcessClosestIntersection_faults (intr : SurfaceInteraction)
  (rayQueue : list RayWorkItem) (rayIndex : Z) (tHit : Float)
  (ctx : ClosestHitContext) (q : Queues) :
  ProcessClosestIntersection intr rayQueue rayIndex tHit ctx q
  <> Fault EmptyOptional.
Proof.
  unfold ProcessClosestIntersection.
  destruct (shadowRay _); [discriminate|].
  destruct (slot rayQueue rayIndex); discriminate.
Qed.

(** X11.  The alpha test guards the dereference in the closest-hit program.  A
    triangle candidate with an alpha texture that the any-hit program
    keeps has an intersection, at which the texture is not zero; so the
    closest-hit program, called in the same state, neither fails an
    assertion nor dereferences an empty optional. *)
Theorem alpha_tested_triangle_is_valid (rec : TriangleMeshRecord)
  (st : ProgramState) (rayQueue : list RayWorkItem) (rayIndex : Z)
  (ctx : ClosestHitContext) (q : Queues) :
  is_set (tri_alphaTexture rec) = true ->
  __anyhit__triangle rec st = Passed false ->
  (exists intr,
      getTriangleIntersection rec st = Passed (Some intr)
      /\ (BasicTextureEvaluator_eval (tri_alphaTexture rec) intr =? F32.zero)%f32
         = false)
  /\ __closesthit__triangle rec st rayQueue rayIndex ctx q <> AssertionFailed
  /\ __closesthit__triangle rec st rayQueue rayIndex ctx q
     <> Passed (Fault EmptyOptional).
Proof.
  intros Ha. unfold __anyhit__triangle, alphaKilled, __closesthit__triangle.
  rewrite Ha. cbn [negb].
  destruct (getTriangleIntersection rec st) as [[intr|]|]; try discriminate.
  intros H. inversion H as [Hz]. split.
  - exists intr. split; reflexivity.
  - split.
    + destruct (tri_areaLights rec); [discriminate|].
      destruct (slot _ _); discriminate.
    + destruct (tri_areaLights rec) as [|l ls].
      * intros C. inversion C as [C1].
        exact (ProcessClosestIntersection_faults _ _ _ _ _ _ C1).
      * destruct (slot _ _); [|discriminate].
        intros C. inversion C as [C1].
        exact (ProcessClosestIntersection_faults _ _ _ _ _ _ C1).
Qed.

(** X12.  A shadow ray discards at least what a path ray discards.  A triangle
    candidate that the any-hit program of path rays ignores is ignored by
    the any-hit program of shadow rays; one that the shadow program keeps
    has a material that is unset or not transparent and is kept by the
    program of path rays. *)
Theorem shadow_anyhit_discards_more (rec : TriangleMeshRecord)
  (st : ProgramState) :
  (__anyhit__triangle rec st = Passed true ->
   __anyhit__shadowTriangle rec st = Passed true)
  /\ (__anyhit__shadowTriangle rec st = Passed false ->
      __anyhit__triangle rec st = Passed false
      /\ (is_set (tri_material rec) = false
          \/ IsTransparent (tri_material rec) = false)).
Proof.
  unfold __anyhit__shadowTriangle, __anyhit__triangle.
  destruct (is_set (tri_material rec)), (IsTransparent (tri_material rec));
    cbn [andb]; split; intros H; try discriminate; auto.
Qed.

(** X13.  An emitting triangle is found by its primitive index.  When the mesh
    has area lights, the closest-hit program takes the light at the index
    of the primitive, and faults if the list ends before it.  For a path
    ray outside any medium that hits a triangle with a material, it pushes
    one item with that light to the queue of emitter hits if the light is
    set, and none if it is not; the context reports the material of the
    record. *)
Theorem emitting_triangle_by_index (rec : TriangleMeshRecord)
  (st : ProgramState) (rayQueue : list RayWorkItem) (rayIndex : Z)
  (ctx : ClosestHitContext) (q : Queues) (intr : SurfaceInteraction)
  (r : RayWorkItem) :
  getTriangleIntersection rec st = Passed (Some intr) ->
  tri_areaLights rec <> [] ->
  (slot (tri_areaLights rec) (optixGetPrimitiveIndex st) = None ->
   __closesthit__triangle rec st rayQueue rayIndex ctx q
   = Passed (Fault OutOfRange))
  /\ (forall l,
        slot (tri_areaLights rec) (optixGetPrimitiveIndex st) = Some l ->
        shadowRay ctx = false -> is_set (rayMedium ctx) = false ->
        is_set (tri_material rec) = true ->
        slot rayQueue rayIndex = Some r ->
        exists ctx' q',
          __closesthit__triangle rec st rayQueue rayIndex ctx q
          = Passed (Ret (ctx', q'))
          /\ ctx_material ctx' = tri_material rec
          /\ (if is_set l
              then exists w, hitAreaLightQueue q' = hitAreaLightQueue q ++ [w]
                             /\ hl_areaLight w = l
                             /\ hl_beta w = r_beta r
                             /\ hl_pixelIndex w = r_pixelIndex r
              else hitAreaLightQueue q' = hitAreaLightQueue q)).
Proof.
  intros Hi Hn. unfold __closesthit__triangle. rewrite Hi.
  destruct (tri_areaLights rec) as [|l0 ls] eqn:Hl; [contradiction|].
  split.
  - intros Hs. rewrite Hs. reflexivity.
  - intros l Hs Hsh Hm Hmat Hr. rewrite Hs.
    unfold ProcessClosestIntersection, hit_context.
    cbn [shadowRay]. rewrite Hsh, Hr.
    eexists. eexists. split; [reflexivity|]. split; [reflexivity|].
    unfold enqueue_hit. cbn [rayMedium ctx_mediumInterface]. rewrite Hm.
    cbn [set_areaLight set_material si_material si_areaLight].
    rewrite Hmat. cbn [negb].
    destruct (is_set l).
    + destruct (CanEvaluateTextures _ && _); queue_fields;
        eexists; (split; [reflexivity|]); repeat split; reflexivity.
    + destruct (CanEvaluateTextures _ && _); queue_fields; reflexivity.
Qed.

End Triangles.

Lemma alpha_tested_triangle_is_valid_witness :
  __closesthit__triangle (E := Scene.env) (G := Gallery.shapes)
    (Gallery.triangles 2 []) (Gallery.state 0) [Scene.ray_item F32.zero] 0
    (ClosestHitContext_new nullptr false) Scene.empty
  <> Passed (Fault EmptyOptional).
Proof.
  exact (proj2 (proj2 (alpha_tested_triangle_is_valid (E := Scene.env)
                         (G := Gallery.shapes) (Gallery.triangles 2 [])
                         (Gallery.state 0) [Scene.ray_item F32.zero] 0
                         (ClosestHitContext_new nullptr false) Scene.empty
                         eq_refl eq_refl))).
Defined.

Lemma shadow_anyhit_discards_more_witness :
  __anyhit__shadowTriangle (G := Gallery.shapes) (Gallery.triangles 1 [])
    (Gallery.state 0) = Passed true
  /\ __anyhit__triangle (G := Gallery.shapes) (Gallery.triangles 2 [])
       (Gallery.state 0) = Passed false.
Proof.
  split.
  - apply (proj1 (shadow_anyhit_discards_more (G := Gallery.shapes)
                    (Gallery.triangles 1 []) (Gallery.state 0))).
    reflexivity.
  - apply (proj2 (shadow_anyhit_discards_more (G := Gallery.shapes)
                    (Gallery.triangles 2 []) (Gallery.state 0))).
    reflexivity.
Defined.

Lemma emitting_triangle_by_index_witness :
  __closesthit__triangle (E := Scene.env) (G := Gallery.shapes)
    (Gallery.triangles 0 [5]) (Gallery.state 1) [Scene.ray_item F32.zero] 0
    (ClosestHitContext_new nullptr false) Scene.empty
  = Passed (Fault OutOfRange)
  /\ exists ctx' q',
      __closesthit__triangle (E := Scene.env) (G := Gallery.shapes)
        (Gallery.triangles 0 [0; 5]) (Gallery.state 1)
        [Scene.ray_item F32.zero] 0 (ClosestHitContext_new nullptr false)
        Scene.empty
      = Passed (Ret (ctx', q'))
      /\ ctx_material ctx' = 3
      /\ exists w, hitAreaLightQueue q' = [w] /\ hl_areaLight w = 5.
Proof.
  split.
  - apply (proj1 (emitting_triangle_by_index (E := Scene.env)
                    (G := Gallery.shapes) (Gallery.triangles 0 [5])
                    (Gallery.state 1) [Scene.ray_item F32.zero] 0
                    (ClosestHitContext_new nullptr false) Scene.empty
                    Gallery.wall (Scene.ray_item F32.zero) eq_refl
                    ltac:(discriminate))).
    reflexivity.
  - destruct (proj2 (emitting_triangle_by_index (E := Scene.env)
                       (G := Gallery.shapes) (Gallery.triangles 0 [0; 5])
                       (Gallery.state 1) [Scene.ray_item F32.zero] 0
                       (ClosestHitContext_new nullptr false) Scene.empty
                       Gallery.wall (Scene.ray_item F32.zero) eq_refl
                       ltac:(discriminate))
                5 eq_refl eq_refl eq_refl eq_refl eq_refl)
      as [ctx' [q' [H1 [H2 [w [H3 [H4 _]]]]]]].
    exists ctx', q'. split; [exact H1|]. split; [exact H2|].
    exists w. split; [exact H3|exact H4].
Defined.

Section Quadrics.

Context {E : Externals} {G : Shapes}.

(** X14.  The assertion of [getQuadricIntersection] cannot fail on a hit that
    the intersection program reports.  The intersection program never
    fails it; when it reports a hit, the shape of the record is a sphere,
    a cylinder or a disk, so the closest-hit program and the random-hit
    program, whatever state they are called in, pass it as well; and with
    an alpha texture the texture is not zero at the reported hit.  For a
    record with any other shape the intersection program reports nothing,
    while the closest-hit program would fail the assertion. *)
Theorem quadric_report_has_interaction (rec : QuadricRecord)
  (st : ProgramState) :
  __intersection__quadric rec st <> AssertionFailed
  /\ (forall rep,
        __intersection__quadric rec st = Passed (Some rep) ->
        rep_hitKind rep = 0
        /\ length (rep_attributes rep) = 4%nat
        /\ (forall st' qi,
              exists intr, getQuadricIntersection rec st' qi = Passed intr)
        /\ (forall st' rayQueue rayIndex ctx q,
              __closesthit__quadric rec st' rayQueue rayIndex ctx q
              <> AssertionFailed)
        /\ (is_set (quad_alphaTexture rec) = true ->
            exists isect intr,
              getQuadricIntersection rec st isect = Passed intr
              /\ rep_tHit rep = qi_tHit isect
              /\ (BasicTextureEvaluator_eval (quad_alphaTexture rec) intr
                  =? F32.zero)%f32 = false))
  /\ (forall tag,
        quad_shape rec = ShapeOther tag ->
        __intersection__quadric rec st = Passed None
        /\ forall st' rayQueue rayIndex ctx q,
             __closesthit__quadric rec st' rayQueue rayIndex ctx q
             = AssertionFailed).
Proof.
  unfold __intersection__quadric, __closesthit__quadric, getQuadricIntersection.
  destruct (quad_shape rec) as [s|c|d|t]; cbv beta iota zeta.
  1-3:
    match goal with
    | |- context [match ?o with Some _ => _ | None => _ end] =>
        destruct o as [isect|]
    end;
    (split; [|split; [|intros tag Hs; discriminate Hs]]);
    [destruct (is_set (quad_alphaTexture rec)); [destruct (_ =? _)%f32|];
     discriminate
    |intros rep;
     destruct (is_set (quad_alphaTexture rec)) eqn:Ha;
     [destruct (_ =? _)%f32 eqn:Hz; [discriminate|]|];
     intros H; inversion H; subst rep;
     cbn [rep_hitKind rep_attributes rep_tHit length];
     (split; [reflexivity|]); (split; [reflexivity|]);
     (split; [intros st' qi; eexists; reflexivity|]);
     (split; [intros; discriminate|]);
     intros Hset; try discriminate;
     exists isect; eexists; split; [reflexivity|]; split;
     [reflexivity|exact Hz]
    |discriminate
    |intros rep H; discriminate H].
  split; [discriminate|]. split; [intros rep H; discriminate H|].
  intros tag Hs. split; [reflexivity|]. intros. reflexivity.
Qed.

End Quadrics.

Lemma quadric_report_has_interaction_witness :
  exists rep,
    __intersection__quadric (G := Gallery.shapes)
      (Gallery.quadric (ShapeDisk 1) 2) (Gallery.state 0) = Passed (Some rep)
    /\ rep_hitKind rep = 0
    /\ __intersection__quadric (G := Gallery.shapes)
         (Gallery.quadric (ShapeOther 4) 2) (Gallery.state 0) = Passed None.
Proof.
  eexists. split; [reflexivity|]. split.
  - apply (proj1 (proj2 (quadric_report_has_interaction (E := Scene.env)
                           (G := Gallery.shapes)
                           (Gallery.quadric (ShapeDisk 1) 2)
                           (Gallery.state 0))) _ eq_refl).
  - apply (proj2 (proj2 (quadric_report_has_interaction (E := Scene.env)
                           (G := Gallery.shapes)
                           (Gallery.quadric (ShapeOther 4) 2)
                           (Gallery.state 0))) 4 eq_refl).
Defined.

Section Patches.

Context {E : Externals} {G : Shapes}.

Lemma slot_some {A : Type} (l : list A) (i : Z) :
  0 <= i < Z.of_nat (length l) -> exists a, slot l i = Some a /\ In a l.
Proof.
  intros Hi. unfold slot. destruct (Z.ltb_spec i 0); [lia|].
  destruct (nth_error l (Z.to_nat i)) as [a|] eqn:Hn.
  - exists a. split; [reflexivity|]. eapply nth_error_In. exact Hn.
  - apply nth_error_None in Hn. lia.
Qed.

Lemma vertex_in_range (mesh : BilinearPatchMesh) (i : Z) :
  Forall (fun v => 0 <= v < Z.of_nat (length (mesh_p mesh)))
    (mesh_vertexIndices mesh) ->
  0 <= i < Z.of_nat (length (mesh_vertexIndices mesh)) ->
  exists p, vertex mesh i = Ret p.
Proof.
  intros Hall Hi. unfold vertex.
  destruct (slot_some _ i Hi) as [v [Hv Hin]]. rewrite Hv.
  rewrite Forall_forall in Hall.
  destruct (slot_some _ v (Hall v Hin)) as [p [Hp _]]. rewrite Hp.
  exists p. reflexivity.
Qed.

(** X15.  The intersection program of bilinear patches reads four vertices of
    the patch whose index it is given.  On a mesh of [n] patches whose
    vertex indices all lie within the array of points, it reads within
    bounds for every primitive index below [n] and returns, reporting
    either nothing or a hit of kind zero with two attributes; given an
    index from [n] on, it reads past the end of the vertex indices. *)
Theorem bilinear_patch_reads_in_range (rec : BilinearMeshRecord)
  (st : ProgramState) (n : nat) :
  length (mesh_vertexIndices (bil_mesh rec)) = (4 * n)%nat ->
  Forall (fun v => 0 <= v < Z.of_nat (length (mesh_p (bil_mesh rec))))
    (mesh_vertexIndices (bil_mesh rec)) ->
  Z.of_nat n <= 2 ^ 29 ->
  (0 <= optixGetPrimitiveIndex st < Z.of_nat n ->
   exists r,
     __intersection__bilinearPatch rec st = Ret r
     /\ forall rep, r = Some rep ->
                    rep_hitKind rep = 0
                    /\ length (rep_attributes rep) = 2%nat)
  /\ (Z.of_nat n <= optixGetPrimitiveIndex st < 2 ^ 29 ->
      __intersection__bilinearPatch rec st = Fault OutOfRange).
Proof.
  intros Hlen Hall Hn.
  assert (H29 : 2 ^ 29 = 536870912) by reflexivity.
  assert (H31 : 2 ^ 31 = 2147483648) by reflexivity.
  unfold __intersection__bilinearPatch. cbv zeta. split.
  - intros Hp. rewrite int32_small by lia.
    destruct (vertex_in_range (bil_mesh rec) (4 * optixGetPrimitiveIndex st)
                Hall ltac:(lia)) as [p00 H00].
    destruct (vertex_in_range (bil_mesh rec)
                (4 * optixGetPrimitiveIndex st + 1) Hall ltac:(lia))
      as [p10 H10].
    destruct (vertex_in_range (bil_mesh rec)
                (4 * optixGetPrimitiveIndex st + 2) Hall ltac:(lia))
      as [p01 H01].
    destruct (vertex_in_range (bil_mesh rec)
                (4 * optixGetPrimitiveIndex st + 3) Hall ltac:(lia))
      as [p11 H11].
    rewrite H00, H10, H01, H11. cbn [bind].
    destruct (BilinearPatch_Intersect _ _ _ _ _ _) as [isect|].
    + destruct (is_set (bil_alphaTexture rec)); [destruct (_ =? _)%f32|];
        eexists; (split; [reflexivity|]); intros rep Hr; inversion Hr;
        split; reflexivity.
    + eexists. split; [reflexivity|]. intros rep Hr. discriminate Hr.
  - intros Hp. rewrite int32_small by lia.
    unfold vertex at 1. rewrite slot_past_end by lia. reflexivity.
Qed.

End Patches.

Lemma bilinear_patch_reads_in_range_witness :
  (exists r,
      __intersection__bilinearPatch (G := Gallery.shapes) (Gallery.patches 2)
        (Gallery.state 1) = Ret r)
  /\ __intersection__bilinearPatch (G := Gallery.shapes) (Gallery.patches 2)
       (Gallery.state 2) = Fault OutOfRange.
Proof.
  assert (Hall : Forall (fun v => 0 <= v < 4) [0; 1; 2; 3; 0; 1; 2; 3]).
  { repeat constructor; lia. }
  split.
  - destruct (proj1 (bilinear_patch_reads_in_range (G := Gallery.shapes)
                       (Gallery.patches 2) (Gallery.state 1) 2 eq_refl Hall
                       ltac:(cbn; lia)) ltac:(cbn; lia)) as [r [Hr _]].
    exists r. exact Hr.
  - apply (proj2 (bilinear_patch_reads_in_range (G := Gallery.shapes)
                    (Gallery.patches 2) (Gallery.state 2) 2 eq_refl Hall
                    ltac:(cbn; lia))).
    cbn. lia.
Defined.

Section RandomHit.

Context {E : Externals} {G : Shapes}.

Lemma anyhit_randomHit_material (c : Candidate) (p p' : RandomHitPayload) :
  anyhit_randomHit c p = Passed (Ret p') -> material p' = material p.
Proof.
  destruct c as [rec st|rec st|rec st]; cbn [anyhit_randomHit];
    unfold __anyhit__randomHitTriangle, __anyhit__randomHitBilinearPatch,
      __anyhit__randomHitQuadric, add_candidate;
    destruct (_ =? material p);
    try (intros H; inversion H; reflexivity);
    destruct (WRS_Add _ _ _) as [[w| |]|]; intros H; inversion H; reflexivity.
Qed.

Lemma anyhit_randomHit_other (c : Candidate) (p : RandomHitPayload) :
  same_material (material p) c = false -> anyhit_randomHit c p = Passed (Ret p).
Proof.
  destruct c as [rec st|rec st|rec st]; cbn [anyhit_randomHit same_material];
    unfold __anyhit__randomHitTriangle, __anyhit__randomHitBilinearPatch,
      __anyhit__randomHitQuadric, add_candidate;
    intros H; rewrite H; reflexivity.
Qed.

(** X16.  Candidates of another material do not take part in the sampling.  The
    payload after a traversal is the payload after a traversal of the
    candidates whose record has the material of the payload, in the same
    order, and the material of the payload never changes. *)
Theorem randomHit_skips_other_materials (cs : list Candidate) :
  forall p : RandomHitPayload,
    randomHit_Trace cs p
    = randomHit_Trace (filter (same_material (material p)) cs) p
    /\ forall p', randomHit_Trace cs p = Passed (Ret p') ->
                  material p' = material p.
Proof.
  induction cs as [|c cs IH]; intros p.
  - split; [reflexivity|]. intros p' H. inversion H. reflexivity.
  - cbn [filter randomHit_Trace].
    destruct (same_material (material p) c) eqn:Hc.
    + cbn [randomHit_Trace].
      destruct (anyhit_randomHit c p) as [[p1| |]|] eqn:Ha;
        try (split; [reflexivity|intros p' H; discriminate H]).
      pose proof (anyhit_randomHit_material c p p1 Ha) as Hm.
      destruct (IH p1) as [IH1 IH2]. rewrite Hm in IH1, IH2.
      split; [exact IH1|exact IH2].
    + rewrite (anyhit_randomHit_other c p Hc). apply IH.
Qed.

Lemma set_weight_length (n : nat) (w : Float)
  (l : list SubsurfaceScatterWorkItem) :
  length (set_weight n w l) = length l.
Proof.
  revert n. induction l as [|s l IH]; intros [|n]; cbn; try reflexivity.
  rewrite IH. reflexivity.
Qed.

Lemma set_ssi_length (n : nat) (i : SubsurfaceInteraction)
  (l : list SubsurfaceScatterWorkItem) :
  length (set_ssi n i l) = length l.
Proof.
  revert n. induction l as [|s l IH]; intros [|n]; cbn; try reflexivity.
  rewrite IH. reflexivity.
Qed.

Lemma set_weight_same (n : nat) (w : Float)
  (l : list SubsurfaceScatterWorkItem) (s : SubsurfaceScatterWorkItem) :
  nth_error l n = Some s ->
  nth_error (set_weight n w l) n
  = Some (mkSubsurfaceScatterWorkItem (ss_p0 s) (ss_p1 s) (ss_material s) w
            (ss_ssi s)).
Proof.
  revert n. induction l as [|a l IH]; intros [|n]; cbn; try discriminate.
  - intros H. inversion H. reflexivity.
  - apply IH.
Qed.

Lemma set_ssi_same (n : nat) (i : SubsurfaceInteraction)
  (l : list SubsurfaceScatterWorkItem) (s : SubsurfaceScatterWorkItem) :
  nth_error l n = Some s ->
  nth_error (set_ssi n i l) n
  = Some (mkSubsurfaceScatterWorkItem (ss_p0 s) (ss_p1 s) (ss_material s)
            (ss_weight s) i).
Proof.
  revert n. induction l as [|a l IH]; intros [|n]; cbn; try discriminate.
  - intros H. inversion H. reflexivity.
  - apply IH.
Qed.

Lemma set_weight_other (n m : nat) (w : Float)
  (l : list SubsurfaceScatterWorkItem) :
  n <> m -> nth_error (set_weight n w l) m = nth_error l m.
Proof.
  revert n m. induction l as [|a l IH]; intros [|n] [|m] H; cbn;
    try reflexivity; try congruence.
  apply IH. congruence.
Qed.

Lemma set_ssi_other (n m : nat) (i : SubsurfaceInteraction)
  (l : list SubsurfaceScatterWorkItem) :
  n <> m -> nth_error (set_ssi n i l) m = nth_error l m.
Proof.
  revert n m. induction l as [|a l IH]; intros [|n] [|m] H; cbn;
    try reflexivity; try congruence.
  apply IH. congruence.
Qed.

(** X17.  The random-hit program writes the result of one segment.  When it
    returns, the queue has the size it had and every other slot holds what
    it held; the segment of the launch index keeps its end points and its
    material, and its weight is either zero, with the stored interaction
    left as it was, or greater than zero.  With a launch index past the
    end of the queue nothing is written. *)
Theorem randomHit_writes_one_slot (index : Z)
  (queue queue' : list SubsurfaceScatterWorkItem) :
  __raygen__randomHit index queue = Passed (Ret queue') ->
  length queue' = length queue
  /\ (forall j, j <> index -> slot queue' j = slot queue j)
  /\ (slot queue index = None -> queue' = queue)
  /\ (forall s,
        slot queue index = Some s ->
        exists s',
          slot queue' index = Some s'
          /\ ss_p0 s' = ss_p0 s /\ ss_p1 s' = ss_p1 s
          /\ ss_material s' = ss_material s
          /\ ((ss_weight s' = F32.zero /\ ss_ssi s' = ss_ssi s)
              \/ (F32.zero <? ss_weight s')%f32 = true)).
Proof.
  unfold __raygen__randomHit.
  destruct (slot queue index) as [s|] eqn:Hs.
  - pose proof (slot_in_range _ _ _ Hs) as Hr.
    assert (Hn : nth_error queue (Z.to_nat index) = Some s).
    { unfold slot in Hs. destruct (index <? 0); [discriminate|exact Hs]. }
    cbv zeta.
    destruct (randomHit_Trace _ _) as [[p| |]|]; try discriminate.
    destruct (WRS_HasSample (wrs p)
              && (F32.zero <? WRS_WeightSum (wrs p))%f32) eqn:Hw;
      intros H; inversion H; subst queue'; clear H.
    + split; [rewrite set_ssi_length, set_weight_length; reflexivity|].
      split.
      { intros j Hj. unfold slot. destruct (Z.ltb_spec j 0); [reflexivity|].
        rewrite set_ssi_other, set_weight_other by lia. reflexivity. }
      split; [discriminate|].
      intros s0 Hs0. inversion Hs0; subst s0.
      eexists. split.
      { unfold slot. destruct (Z.ltb_spec index 0); [lia|].
        apply set_ssi_same. apply set_weight_same. exact Hn. }
      cbn [ss_p0 ss_p1 ss_material ss_weight ss_ssi].
      repeat (split; [reflexivity|]). right.
      apply andb_true_iff in Hw. apply Hw.
    + split; [apply set_weight_length|].
      split.
      { intros j Hj. unfold slot. destruct (Z.ltb_spec j 0); [reflexivity|].
        rewrite set_weight_other by lia. reflexivity. }
      split; [discriminate|].
      intros s0 Hs0. inversion Hs0; subst s0.
      eexists. split.
      { unfold slot. destruct (Z.ltb_spec index 0); [lia|].
        apply set_weight_same. exact Hn. }
      cbn [ss_p0 ss_p1 ss_material ss_weight ss_ssi].
      repeat (split; [reflexivity|]). left. split; reflexivity.
  - intros H. inversion H; subst queue'.
    split; [reflexivity|]. split; [reflexivity|].
    split; [reflexivity|]. intros s Hs0. discriminate Hs0.
Qed.

End RandomHit.

Lemma randomHit_writes_one_slot_witness :
  exists queue',
    __raygen__randomHit (G := Gallery.shapes) 0 Gallery.segments
    = Passed (Ret queue')
    /\ length queue' = 2%nat
    /\ slot queue' 1 = slot Gallery.segments 1.
Proof.
  destruct (__raygen__randomHit (G := Gallery.shapes) 0 Gallery.segments)
    as [[queue'| |]|] eqn:Hq; [|vm_compute in Hq; discriminate ..].
  exists queue'. split; [reflexivity|].
  destruct (randomHit_writes_one_slot (G := Gallery.shapes) 0 _ _ Hq)
    as [H1 [H2 _]].
  split; [exact H1|]. apply H2. discriminate.
Defined.

Lemma randomHit_skips_other_materials_witness :
  randomHit_Trace (G := Gallery.shapes)
    (@randomHit_candidates Gallery.shapes (mkRay Vec.zero3 Scene.up F32.zero nullptr)
       F32.zero F32.one)
    (mkRandomHitPayload (@WRS_new Gallery.shapes) 3)
  = randomHit_Trace (G := Gallery.shapes)
      [OnTriangle (Gallery.triangles 0 []) (Gallery.state 0);
       OnQuadric (Gallery.quadric (ShapeSphere 1) 0) (Gallery.state 0)]
      (mkRandomHitPayload (@WRS_new Gallery.shapes) 3).
Proof.
  exact (proj1 (randomHit_skips_other_materials (G := Gallery.shapes)
                  (@randomHit_candidates Gallery.shapes
                     (mkRay Vec.zero3 Scene.up F32.zero nullptr) F32.zero
                     F32.one)
                  (mkRandomHitPayload (@WRS_new Gallery.shapes) 3))).
Defined.

Section Traversal.

Context {E : Externals}.
Variable maxDepth : Z.

Lemma Forall_removelast {A : Type} (P : A -> Prop) (l : list A) :
  Forall P l -> Forall P (removelast l).
Proof.
  induction 1 as [|a l Ha Hl IH]; [constructor|].
  cbn [removelast]. destruct l; [constructor|].
  constructor; assumption.
Qed.

Lemma ended_of_visits (b u n l0 : SampledSpectrum) (s : bool)
  (sq : list MediumScatterWorkItem) (l : list Visit) (v : Visit) :
  ended (mkPathState b u n l0 s sq (l ++ [v])) = Some (v_outcome v).
Proof. unfold ended. cbn [visits]. rewrite rev_unit. reflexivity. Qed.

Lemma ended_all_null (st : PathState) :
  Forall (fun v => v_outcome v = NullScattered) (visits st) ->
  ended st <> Some Scattered.
Proof.
  intros Hall. unfold ended.
  destruct (rev (visits st)) as [|v l] eqn:Hr; [discriminate|].
  rewrite Forall_forall in Hall.
  rewrite (Hall v); [discriminate|].
  apply in_rev. rewrite Hr. left. reflexivity.
Qed.

(** X18.  The sampling goes on only after a null collision.  In the trace of a
    traversal that returns, every visit but the last is a null collision;
    the path has scattered exactly when the last visit is a scattering;
    and a traversal with no null collision leaves [pdfNEE] at the value of
    the work item. *)
Theorem only_null_collisions_continue (fuel : nat) (depth : Z)
  (ms : MediumSampleWorkItem) (q : Queues) (st : PathState) (rng : RNG) :
  traverse maxDepth fuel depth ms q = Ret (st, rng) ->
  Forall (fun v => v_outcome v = NullScattered) (removelast (visits st))
  /\ (scattered st = true <-> ended st = Some Scattered)
  /\ ((forall v, In v (visits st) -> v_outcome v <> NullScattered) ->
      pdfNEE st = ms_pdfNEE ms).
Proof.
  unfold traverse, SampleTmaj.
  apply (SampleTmaj_loop_rule (medium_callback maxDepth depth ms)
           (fun s => Forall (fun v => v_outcome v = NullScattered) (visits s)
                     /\ scattered s = false
                     /\ (visits s = [] -> pdfNEE s = ms_pdfNEE ms))
           (fun s => Forall (fun v => v_outcome v = NullScattered)
                       (removelast (visits s))
                     /\ (scattered s = true <-> ended s = Some Scattered)
                     /\ ((forall v, In v (visits s) ->
                                    v_outcome v <> NullScattered) ->
                         pdfNEE s = ms_pdfNEE ms))).
  - intros sample s r s' r' [Hall [Hs Hn]].
    destruct (intr sample) as [i|] eqn:Hi.
    + rewrite (callback_collision maxDepth depth ms sample i s r Hi). cbv zeta.
      destruct (_ =? 0); [discriminate|].
      destruct (_ =? 1); [destruct (CastOrNullptr_HG _); discriminate|].
      intros H. inversion H; subst. cbn [visits scattered pdfNEE].
      split; [|split; [exact Hs|]].
      * apply Forall_app. split; [exact Hall|]. repeat constructor.
      * intros C. destruct (visits s); discriminate C.
    + unfold medium_callback. rewrite Hi. discriminate.
  - intros sample s r s' r' [Hall [Hs Hn]].
    assert (Hnull : forall v0 o,
               o <> NullScattered ->
               (forall v, In v (visits s ++ [mkVisit v0 o]) ->
                          v_outcome v <> NullScattered) ->
               visits s = []).
    { intros v0 o Ho Hv. destruct (visits s) as [|a l] eqn:Hl; [reflexivity|].
      exfalso. apply (Hv a); [left; reflexivity|].
      rewrite Forall_forall in Hall. apply Hall. left. reflexivity. }
    destruct (intr sample) as [i|] eqn:Hi.
    + rewrite (callback_collision maxDepth depth ms sample i s r Hi). cbv zeta.
      destruct (_ =? 0).
      * intros H. inversion H; subst. rewrite ended_of_visits.
        cbn [visits scattered pdfNEE v_outcome]. rewrite removelast_last.
        split; [exact Hall|]. rewrite Hs.
        split; [split; discriminate|].
        intros Hv. apply Hn. eapply Hnull; [|exact Hv]. discriminate.
      * destruct (_ =? 1); [destruct (CastOrNullptr_HG _)|];
          intros H; inversion H; subst. rewrite ended_of_visits.
        cbn [visits scattered pdfNEE v_outcome]. rewrite removelast_last.
        split; [exact Hall|].
        split; [split; reflexivity|].
        intros Hv. apply Hn. eapply Hnull; [|exact Hv]. discriminate.
    + unfold medium_callback. rewrite Hi.
      intros H. inversion H; subst. rewrite ended_of_visits.
      cbn [visits scattered pdfNEE v_outcome]. rewrite removelast_last.
      split; [exact Hall|]. rewrite Hs.
      split; [split; discriminate|].
      intros Hv. apply Hn. eapply Hnull; [|exact Hv]. discriminate.
  - intros s [Hall [Hs Hn]].
    split; [apply Forall_removelast; exact Hall|].
    split.
    + rewrite Hs. split; [discriminate|].
      intros C. exfalso. exact (ended_all_null s Hall C).
    + intros Hv. apply Hn. destruct (visits s) as [|a l] eqn:Hl; [reflexivity|].
      exfalso. apply (Hv a); [left; reflexivity|].
      rewrite Forall_forall in Hall. apply Hall. left. reflexivity.
  - cbn [visits scattered pdfNEE]. split; [constructor|].
    split; reflexivity.
Qed.

(** X19.  At the depth limit a medium adds no emission.  When the depth has
    reached [maxDepth], an item that returns leaves every pixel as it
    was, whatever the medium emits. *)
Theorem no_emission_at_depth_limit (fuel : nat) (depth : Z)
  (ms : MediumSampleWorkItem) (q q' : Queues) :
  maxDepth <= depth ->
  sample_medium_item maxDepth fuel depth ms q = Ret q' ->
  pixelSampleState_L q' = pixelSampleState_L q.
Proof.
  intros Hd. unfold sample_medium_item.
  destruct (traverse maxDepth fuel depth ms q) as [[st rng]| |] eqn:Ht;
    cbn [bind]; try discriminate.
  assert (HL : L st = Sp.const F32.zero).
  { revert Ht. unfold traverse, SampleTmaj.
    apply (SampleTmaj_loop_rule (medium_callback maxDepth depth ms)
             (fun s => L s = Sp.const F32.zero)
             (fun s => L s = Sp.const F32.zero)).
    - intros sample s r s' r' Hs.
      destruct (intr sample) as [i|] eqn:Hi.
      + rewrite (callback_collision maxDepth depth ms sample i s r Hi).
        cbv zeta. unfold add_Le.
        destruct (Z.ltb_spec depth maxDepth) as [Hlt|Hge]; [lia|]. cbn [andb].
        destruct (_ =? 0); [discriminate|].
        destruct (_ =? 1); [destruct (CastOrNullptr_HG _); discriminate|].
        intros H. inversion H; subst. exact Hs.
      + unfold medium_callback. rewrite Hi. discriminate.
    - intros sample s r s' r' Hs.
      destruct (intr sample) as [i|] eqn:Hi.
      + rewrite (callback_collision maxDepth depth ms sample i s r Hi).
        cbv zeta. unfold add_Le.
        destruct (Z.ltb_spec depth maxDepth) as [Hlt|Hge]; [lia|]. cbn [andb].
        destruct (_ =? 0); [|destruct (_ =? 1);
                             [destruct (CastOrNullptr_HG _)|]];
          intros H; inversion H; subst; exact Hs.
      + unfold medium_callback. rewrite Hi.
        intros H. inversion H; subst. exact Hs.
    - auto.
    - reflexivity. }
  rewrite HL. unfold add_emission.
  replace (Sp.nonzero (Sp.const F32.zero)) with false by reflexivity.
  destruct (scattered st); intros H; inversion H; subst q'; clear H.
  - reflexivity.
  - destruct (route_frame ms st
                (Q.with_mediumScatter (fun _ => scatterQ st) q)) as [F0 _].
    rewrite F0. reflexivity.
Qed.

End Traversal.

Lemma only_null_collisions_continue_witness :
  exists st rng,
    traverse (E := Scene.env) 5 4 0 Scene.plain_item Scene.empty = Ret (st, rng)
    /\ Forall (fun v => v_outcome v = NullScattered) (removelast (visits st)).
Proof.
  destruct (traverse (E := Scene.env) 5 4 0 Scene.plain_item Scene.empty)
    as [[st rng]| |] eqn:Ht; [|vm_compute in Ht; discriminate ..].
  exists st, rng. split; [reflexivity|].
  exact (proj1 (only_null_collisions_continue (E := Scene.env) 5 4 0 _ _ _ _ Ht)).
Defined.

Lemma no_emission_at_depth_limit_witness :
  exists q',
    sample_medium_item (E := Scene.env) 5 4 5 Scene.emitting_item Scene.empty
    = Ret q'
    /\ pixelSampleState_L q' = pixelSampleState_L Scene.empty.
Proof.
  destruct (sample_medium_item (E := Scene.env) 5 4 5 Scene.emitting_item
              Scene.empty) as [q'| |] eqn:Hq;
    [|vm_compute in Hq; discriminate ..].
  exists q'. split; [reflexivity|].
  apply (no_emission_at_depth_limit (E := Scene.env) 5 4 5 _ _ _ ltac:(lia) Hq).
Defined.
